(** * Kernel interrupt objects (base/ntos/ke/i386/intobj.c)

    A shallow embedding of the i386 interrupt-object module: initialising,
    connecting and disconnecting interrupt objects, the vector inspector and
    binder, the timed chained dispatcher and the calibration of the ISR time
    limit.

    Conventions of the embedding.
    - Addresses and ULONG values are integers reduced modulo 2^32 wherever
      the source computes with them; ULONGLONG values are reduced modulo 2^64.
    - Interrupt objects live in a store indexed by their address; the
      store is the memory of the embedding.  KiGetVectorInfo reads a dispatch
      address through a pointer that, for a vector on a flat table, points
      into the dispatch code of an interrupt object: that read returns the
      bytes of the dispatch code.  No other access through an address that
      holds no interrupt object is given a value: there the machine stops
      with [ACCESS_VIOLATION], and no property below rests on such a stop.
    - The embedding is that of the free build: [ASSERT] and the [#if DBG]
      blocks expand to nothing.
    - Everything the module takes from ki.h, the HAL, trap.asm and intsup.asm
      is gathered in the record [platform]. *)

From Stdlib Require Import ZArith Lia List Bool.
From stdpp Require Import base option list gmap.

Local Open Scope Z_scope.

(** ** Machine arithmetic *)

Definition wrap32 (x : Z) : Z := x mod 2 ^ 32.
Definition wrap64 (x : Z) : Z := x mod 2 ^ 64.

Definition valid_ptr (p : Z) : Prop := 0 <= p < 2 ^ 32.

(** [(PUCHAR)p + d] and [CONTAINING_RECORD(address, type, field)], the
    latter with [off] the offset of [field] in [type]. *)
Definition ptr_add (p d : Z) : Z := wrap32 (p + d).
Definition CONTAINING_RECORD (address off : Z) : Z := wrap32 (address - off).

(** Little-endian bytes of a ULONG, and an array of bytes addressed by
    offset (the storage of [DispatchCode]). *)
Definition byte_of (v i : Z) : Z := Z.shiftr v (8 * i) mod 256.

Definition store32 (code : Z -> Z) (off v : Z) : Z -> Z :=
  fun k => if (off <=? k) && (k <? off + 4) then byte_of v (k - off) else code k.

Definition load32 (code : Z -> Z) (off : Z) : Z :=
  code off mod 256
  + (code (off + 1) mod 256) * 2 ^ 8
  + (code (off + 2) mod 256) * 2 ^ 16
  + (code (off + 3) mod 256) * 2 ^ 24.

(** ** Types of ki.h used by the module *)

Inductive KINTERRUPT_MODE := LevelSensitive | Latched.

Inductive CONNECT_TYPE := NoConnect | NormalConnect | ChainConnect | UnknownConnect.

#[global] Instance KINTERRUPT_MODE_eq_dec : EqDecision KINTERRUPT_MODE.
Proof. solve_decision. Defined.

#[global] Instance CONNECT_TYPE_eq_dec : EqDecision CONNECT_TYPE.
Proof. solve_decision. Defined.

Record LIST_ENTRY := { Flink : Z; Blink : Z }.

(** The fields of KINTERRUPT the module reads or writes.  [DispatchCode]
    is the embedded copy of the dispatch template, byte by byte. *)
Record KINTERRUPT := {
  Type_ : Z;
  Size_ : Z;
  InterruptListEntry : LIST_ENTRY;
  ServiceRoutine : Z;
  ServiceContext : Z;
  SpinLock : Z;
  TickCount : Z;
  ActualLock : Z;
  DispatchAddress : Z;
  Vector : Z;
  Irql : Z;
  SynchronizeIrql : Z;
  FloatingSave : bool;
  Connected : bool;
  Number : Z;
  ShareVector : bool;
  Mode : KINTERRUPT_MODE;
  DispatchCount : Z;
  DispatchCode : Z -> Z
}.

Record DISPATCH_INFO := {
  InfoType : CONNECT_TYPE;
  InfoInterrupt : Z;
  NoDispatch : Z;
  InterruptDispatch : Z;
  FloatingDispatch : Z;
  ChainedDispatch : Z;
  FlatDispatch : Z
}.

(** What one call of a service routine does, as far as the dispatcher can
    tell: its BOOLEAN result, the cycles it ran for, and the time that
    interrupts nesting on top of it added to [Prcb->IsrTime].  The platform
    gives the effect of the n-th call made on the machine; the machine keeps
    the calls made, latest first, in [IsrLog]. *)
Record isr_effect := { isr_handled : bool; isr_cycles : Z; isr_nested : Z }.

(** ** The platform: ki.h, HAL, trap.asm, intsup.asm *)

Record platform := {
  HIGH_LEVEL : Z;
  KeNumberProcessors : Z;
  PRIMARY_VECTOR_BASE : Z;
  NORMAL_DISPATCH_LENGTH : nat;
  InterruptObject : Z;
  sizeof_KINTERRUPT : Z;
  off_InterruptListEntry : Z;
  off_SpinLock : Z;
  off_DispatchAddress : Z;
  off_DispatchCode : Z;
  KiStartUnexpectedRange : Z;
  KiUnexpectedEntrySize : Z;
  KiInterruptTemplate : Z;
  KiInterruptTemplateCode : Z -> Z;
  KiInterruptTemplateObject : Z;
  KiInterruptTemplateDispatch : Z;
  KiInterruptTemplate2ndDispatch : Z;
  KiInterruptDispatch : Z;
  KiFloatingDispatch : Z;
  KiChainedDispatch : Z;
  KiInterruptDispatch2ndLvl : Z;
  KiChainedDispatch2ndLvl : Z;
  HalSystemVectorDispatchEntry : Z -> Z * Z * Z;
  HalVectorToIDTEntry : Z -> Z;
  HalEnableResult : Z -> Z -> KINTERRUPT_MODE -> bool;
  KeFeatureBits : Z;
  KF_RDTSC : Z;
  KdDebuggerEnabled : bool;
  PoolAvailable : bool;
  CallServiceRoutine : nat -> Z -> Z -> Z -> isr_effect
}.

(** ** Machine state *)

Inductive hal_call :=
| HalEnable (Vector Irql : Z) (Mode : KINTERRUPT_MODE) (Enabled : bool)
| HalDisable (Vector Irql : Z).

(** The calls the module makes besides those to the HAL, in the order it
    makes them: kernel services, and the service routine of an interrupt
    object, [Routine(Interrupt, Context)]. *)
Inductive kernel_call :=
| KeSetSystemAffinityThread (Affinity : Z)
| KeRevertToUserAffinityThread
| KiLockDispatcherDatabase
| KiUnlockDispatcherDatabase
| KeSweepDcache (AllProcessors : bool)
| KeSweepIcache (AllProcessors : bool)
| KfRaiseIrql (NewIrql : Z)
| KfLowerIrql (NewIrql : Z)
| KiAcquireSpinLock (SpinLock : Z)
| KiReleaseSpinLock (SpinLock : Z)
| InterruptService (Routine Interrupt Context_ : Z)
| DbgBreakPoint.

(** The pool block behind [KiIsrTimerInit]: the queued timer (due time and
    period, when set) and the start timestamp. *)
Record KISRTIMERINIT := {
  SampleTimer : option (Z * Z);
  InitialTime : Z
}.

Record machine := {
  Objects : gmap Z KINTERRUPT;
  IDT : Z -> Z;
  FlatTable : Z -> Z;
  HalLines : list hal_call;
  KernelLog : list kernel_call;
  KiIsrTscLimit : Z;
  KiTimeLimitIsrMicroseconds : Z;
  KiIsrTimerInit : option KISRTIMERINIT;
  Tsc : Z;
  IsrTime : Z;
  IsrLog : list (Z * bool)
}.

Definition set_Objects (f : gmap Z KINTERRUPT -> gmap Z KINTERRUPT) (s : machine) : machine :=
  {| Objects := f (Objects s); IDT := IDT s; FlatTable := FlatTable s;
     HalLines := HalLines s; KernelLog := KernelLog s;
     KiIsrTscLimit := KiIsrTscLimit s;
     KiTimeLimitIsrMicroseconds := KiTimeLimitIsrMicroseconds s;
     KiIsrTimerInit := KiIsrTimerInit s; Tsc := Tsc s; IsrTime := IsrTime s;
     IsrLog := IsrLog s |}.

Definition set_IDT (f : (Z -> Z) -> Z -> Z) (s : machine) : machine :=
  {| Objects := Objects s; IDT := f (IDT s); FlatTable := FlatTable s;
     HalLines := HalLines s; KernelLog := KernelLog s;
     KiIsrTscLimit := KiIsrTscLimit s;
     KiTimeLimitIsrMicroseconds := KiTimeLimitIsrMicroseconds s;
     KiIsrTimerInit := KiIsrTimerInit s; Tsc := Tsc s; IsrTime := IsrTime s;
     IsrLog := IsrLog s |}.

Definition set_FlatTable (f : (Z -> Z) -> Z -> Z) (s : machine) : machine :=
  {| Objects := Objects s; IDT := IDT s; FlatTable := f (FlatTable s);
     HalLines := HalLines s; KernelLog := KernelLog s;
     KiIsrTscLimit := KiIsrTscLimit s;
     KiTimeLimitIsrMicroseconds := KiTimeLimitIsrMicroseconds s;
     KiIsrTimerInit := KiIsrTimerInit s; Tsc := Tsc s; IsrTime := IsrTime s;
     IsrLog := IsrLog s |}.

Definition set_HalLines (f : list hal_call -> list hal_call) (s : machine) : machine :=
  {| Objects := Objects s; IDT := IDT s; FlatTable := FlatTable s;
     HalLines := f (HalLines s); KernelLog := KernelLog s;
     KiIsrTscLimit := KiIsrTscLimit s;
     KiTimeLimitIsrMicroseconds := KiTimeLimitIsrMicroseconds s;
     KiIsrTimerInit := KiIsrTimerInit s; Tsc := Tsc s; IsrTime := IsrTime s;
     IsrLog := IsrLog s |}.

Definition set_KernelLog (f : list kernel_call -> list kernel_call) (s : machine) : machine :=
  {| Objects := Objects s; IDT := IDT s; FlatTable := FlatTable s;
     HalLines := HalLines s; KernelLog := f (KernelLog s);
     KiIsrTscLimit := KiIsrTscLimit s;
     KiTimeLimitIsrMicroseconds := KiTimeLimitIsrMicroseconds s;
     KiIsrTimerInit := KiIsrTimerInit s; Tsc := Tsc s; IsrTime := IsrTime s;
     IsrLog := IsrLog s |}.

Definition set_KiIsrTscLimit (v : Z) (s : machine) : machine :=
  {| Objects := Objects s; IDT := IDT s; FlatTable := FlatTable s;
     HalLines := HalLines s; KernelLog := KernelLog s;
     KiIsrTscLimit := v;
     KiTimeLimitIsrMicroseconds := KiTimeLimitIsrMicroseconds s;
     KiIsrTimerInit := KiIsrTimerInit s; Tsc := Tsc s; IsrTime := IsrTime s;
     IsrLog := IsrLog s |}.

Definition set_KiIsrTimerInit (v : option KISRTIMERINIT) (s : machine) : machine :=
  {| Objects := Objects s; IDT := IDT s; FlatTable := FlatTable s;
     HalLines := HalLines s; KernelLog := KernelLog s;
     KiIsrTscLimit := KiIsrTscLimit s;
     KiTimeLimitIsrMicroseconds := KiTimeLimitIsrMicroseconds s;
     KiIsrTimerInit := v; Tsc := Tsc s; IsrTime := IsrTime s;
     IsrLog := IsrLog s |}.

Definition set_Tsc (v : Z) (s : machine) : machine :=
  {| Objects := Objects s; IDT := IDT s; FlatTable := FlatTable s;
     HalLines := HalLines s; KernelLog := KernelLog s;
     KiIsrTscLimit := KiIsrTscLimit s;
     KiTimeLimitIsrMicroseconds := KiTimeLimitIsrMicroseconds s;
     KiIsrTimerInit := KiIsrTimerInit s; Tsc := v; IsrTime := IsrTime s;
     IsrLog := IsrLog s |}.

Definition set_IsrTime (v : Z) (s : machine) : machine :=
  {| Objects := Objects s; IDT := IDT s; FlatTable := FlatTable s;
     HalLines := HalLines s; KernelLog := KernelLog s;
     KiIsrTscLimit := KiIsrTscLimit s;
     KiTimeLimitIsrMicroseconds := KiTimeLimitIsrMicroseconds s;
     KiIsrTimerInit := KiIsrTimerInit s; Tsc := Tsc s; IsrTime := v;
     IsrLog := IsrLog s |}.

Definition set_IsrLog (v : list (Z * bool)) (s : machine) : machine :=
  {| Objects := Objects s; IDT := IDT s; FlatTable := FlatTable s;
     HalLines := HalLines s; KernelLog := KernelLog s;
     KiIsrTscLimit := KiIsrTscLimit s;
     KiTimeLimitIsrMicroseconds := KiTimeLimitIsrMicroseconds s;
     KiIsrTimerInit := KiIsrTimerInit s; Tsc := Tsc s; IsrTime := IsrTime s;
     IsrLog := v |}.

(** ** The state-and-stop monad *)

Inductive stop_code :=
| MISMATCHED_HAL
| ACCESS_VIOLATION (address : Z).

Inductive outcome (A : Type) :=
| Ok (a : A) (s : machine)
| Stop (c : stop_code).

Arguments Ok {A} a s.
Arguments Stop {A} c.

Definition M (A : Type) : Type := machine -> outcome A.

Definition ret {A} (a : A) : M A := fun s => Ok a s.

Definition bind {A B} (m : M A) (k : A -> M B) : M B :=
  fun s => match m s with
           | Ok a s' => k a s'
           | Stop c => Stop c
           end.

Declare Scope kernel_scope.
Delimit Scope kernel_scope with K.
Notation "x ← y ; z" := (bind y (fun x => z))
  (at level 20, y at level 100, z at level 200, only parsing) : kernel_scope.
Notation "' x ← y ; z" := (bind y (fun x => z))
  (at level 20, x pattern, y at level 100, z at level 200, only parsing) : kernel_scope.
Notation "x ;; z" := (bind x (fun _ => z))
  (at level 100, z at level 200, only parsing, right associativity) : kernel_scope.
Local Open Scope kernel_scope.

Definition gets {A} (f : machine -> A) : M A := fun s => Ok (f s) s.
Definition modify (f : machine -> machine) : M unit := fun s => Ok tt (f s).
Definition KeBugCheck {A} (c : stop_code) : M A := fun _ => Stop c.

Definition kernel (c : kernel_call) : M unit :=
  modify (set_KernelLog (cons c)).

(** [Interrupt->field] and [Interrupt->field = v]. *)
Definition load {A} (Interrupt : Z) (field : KINTERRUPT -> A) : M A :=
  fun s => match Objects s !! Interrupt with
           | Some o => Ok (field o) s
           | None => Stop (ACCESS_VIOLATION Interrupt)
           end.

Definition store (Interrupt : Z) (assign : KINTERRUPT -> KINTERRUPT) : M unit :=
  fun s => match Objects s !! Interrupt with
           | Some o => Ok tt (set_Objects (insert Interrupt (assign o)) s)
           | None => Stop (ACCESS_VIOLATION Interrupt)
           end.

(** ** Field assignments *)

Definition set_Flink (v : Z) (e : LIST_ENTRY) : LIST_ENTRY :=
  {| Flink := v; Blink := Blink e |}.

Definition set_Blink (v : Z) (e : LIST_ENTRY) : LIST_ENTRY :=
  {| Flink := Flink e; Blink := v |}.

Definition set_Type_ (v : Z) (o : KINTERRUPT) : KINTERRUPT :=
  {| Type_ := v; Size_ := Size_ o;
     InterruptListEntry := InterruptListEntry o;
     ServiceRoutine := ServiceRoutine o; ServiceContext := ServiceContext o;
     SpinLock := SpinLock o; TickCount := TickCount o;
     ActualLock := ActualLock o; DispatchAddress := DispatchAddress o;
     Vector := Vector o; Irql := Irql o;
     SynchronizeIrql := SynchronizeIrql o; FloatingSave := FloatingSave o;
     Connected := Connected o; Number := Number o;
     ShareVector := ShareVector o; Mode := Mode o;
     DispatchCount := DispatchCount o; DispatchCode := DispatchCode o |}.

Definition set_Size_ (v : Z) (o : KINTERRUPT) : KINTERRUPT :=
  {| Type_ := Type_ o; Size_ := v;
     InterruptListEntry := InterruptListEntry o;
     ServiceRoutine := ServiceRoutine o; ServiceContext := ServiceContext o;
     SpinLock := SpinLock o; TickCount := TickCount o;
     ActualLock := ActualLock o; DispatchAddress := DispatchAddress o;
     Vector := Vector o; Irql := Irql o;
     SynchronizeIrql := SynchronizeIrql o; FloatingSave := FloatingSave o;
     Connected := Connected o; Number := Number o;
     ShareVector := ShareVector o; Mode := Mode o;
     DispatchCount := DispatchCount o; DispatchCode := DispatchCode o |}.

Definition set_InterruptListEntry (v : LIST_ENTRY) (o : KINTERRUPT) : KINTERRUPT :=
  {| Type_ := Type_ o; Size_ := Size_ o; InterruptListEntry := v;
     ServiceRoutine := ServiceRoutine o; ServiceContext := ServiceContext o;
     SpinLock := SpinLock o; TickCount := TickCount o;
     ActualLock := ActualLock o; DispatchAddress := DispatchAddress o;
     Vector := Vector o; Irql := Irql o;
     SynchronizeIrql := SynchronizeIrql o; FloatingSave := FloatingSave o;
     Connected := Connected o; Number := Number o;
     ShareVector := ShareVector o; Mode := Mode o;
     DispatchCount := DispatchCount o; DispatchCode := DispatchCode o |}.

Definition set_ServiceRoutine (v : Z) (o : KINTERRUPT) : KINTERRUPT :=
  {| Type_ := Type_ o; Size_ := Size_ o;
     InterruptListEntry := InterruptListEntry o; ServiceRoutine := v;
     ServiceContext := ServiceContext o; SpinLock := SpinLock o;
     TickCount := TickCount o; ActualLock := ActualLock o;
     DispatchAddress := DispatchAddress o; Vector := Vector o;
     Irql := Irql o; SynchronizeIrql := SynchronizeIrql o;
     FloatingSave := FloatingSave o; Connected := Connected o;
     Number := Number o; ShareVector := ShareVector o; Mode := Mode o;
     DispatchCount := DispatchCount o; DispatchCode := DispatchCode o |}.

Definition set_ServiceContext (v : Z) (o : KINTERRUPT) : KINTERRUPT :=
  {| Type_ := Type_ o; Size_ := Size_ o;
     InterruptListEntry := InterruptListEntry o;
     ServiceRoutine := ServiceRoutine o; ServiceContext := v;
     SpinLock := SpinLock o; TickCount := TickCount o;
     ActualLock := ActualLock o; DispatchAddress := DispatchAddress o;
     Vector := Vector o; Irql := Irql o;
     SynchronizeIrql := SynchronizeIrql o; FloatingSave := FloatingSave o;
     Connected := Connected o; Number := Number o;
     ShareVector := ShareVector o; Mode := Mode o;
     DispatchCount := DispatchCount o; DispatchCode := DispatchCode o |}.

Definition set_SpinLock (v : Z) (o : KINTERRUPT) : KINTERRUPT :=
  {| Type_ := Type_ o; Size_ := Size_ o;
     InterruptListEntry := InterruptListEntry o;
     ServiceRoutine := ServiceRoutine o; ServiceContext := ServiceContext o;
     SpinLock := v; TickCount := TickCount o; ActualLock := ActualLock o;
     DispatchAddress := DispatchAddress o; Vector := Vector o;
     Irql := Irql o; SynchronizeIrql := SynchronizeIrql o;
     FloatingSave := FloatingSave o; Connected := Connected o;
     Number := Number o; ShareVector := ShareVector o; Mode := Mode o;
     DispatchCount := DispatchCount o; DispatchCode := DispatchCode o |}.

Definition set_TickCount (v : Z) (o : KINTERRUPT) : KINTERRUPT :=
  {| Type_ := Type_ o; Size_ := Size_ o;
     InterruptListEntry := InterruptListEntry o;
     ServiceRoutine := ServiceRoutine o; ServiceContext := ServiceContext o;
     SpinLock := SpinLock o; TickCount := v; ActualLock := ActualLock o;
     DispatchAddress := DispatchAddress o; Vector := Vector o;
     Irql := Irql o; SynchronizeIrql := SynchronizeIrql o;
     FloatingSave := FloatingSave o; Connected := Connected o;
     Number := Number o; ShareVector := ShareVector o; Mode := Mode o;
     DispatchCount := DispatchCount o; DispatchCode := DispatchCode o |}.

Definition set_ActualLock (v : Z) (o : KINTERRUPT) : KINTERRUPT :=
  {| Type_ := Type_ o; Size_ := Size_ o;
     InterruptListEntry := InterruptListEntry o;
     ServiceRoutine := ServiceRoutine o; ServiceContext := ServiceContext o;
     SpinLock := SpinLock o; TickCount := TickCount o; ActualLock := v;
     DispatchAddress := DispatchAddress o; Vector := Vector o;
     Irql := Irql o; SynchronizeIrql := SynchronizeIrql o;
     FloatingSave := FloatingSave o; Connected := Connected o;
     Number := Number o; ShareVector := ShareVector o; Mode := Mode o;
     DispatchCount := DispatchCount o; DispatchCode := DispatchCode o |}.

Definition set_DispatchAddress (v : Z) (o : KINTERRUPT) : KINTERRUPT :=
  {| Type_ := Type_ o; Size_ := Size_ o;
     InterruptListEntry := InterruptListEntry o;
     ServiceRoutine := ServiceRoutine o; ServiceContext := ServiceContext o;
     SpinLock := SpinLock o; TickCount := TickCount o;
     ActualLock := ActualLock o; DispatchAddress := v; Vector := Vector o;
     Irql := Irql o; SynchronizeIrql := SynchronizeIrql o;
     FloatingSave := FloatingSave o; Connected := Connected o;
     Number := Number o; ShareVector := ShareVector o; Mode := Mode o;
     DispatchCount := DispatchCount o; DispatchCode := DispatchCode o |}.

Definition set_Vector (v : Z) (o : KINTERRUPT) : KINTERRUPT :=
  {| Type_ := Type_ o; Size_ := Size_ o;
     InterruptListEntry := InterruptListEntry o;
     ServiceRoutine := ServiceRoutine o; ServiceContext := ServiceContext o;
     SpinLock := SpinLock o; TickCount := TickCount o;
     ActualLock := ActualLock o; DispatchAddress := DispatchAddress o;
     Vector := v; Irql := Irql o; SynchronizeIrql := SynchronizeIrql o;
     FloatingSave := FloatingSave o; Connected := Connected o;
     Number := Number o; ShareVector := ShareVector o; Mode := Mode o;
     DispatchCount := DispatchCount o; DispatchCode := DispatchCode o |}.

Definition set_Irql (v : Z) (o : KINTERRUPT) : KINTERRUPT :=
  {| Type_ := Type_ o; Size_ := Size_ o;
     InterruptListEntry := InterruptListEntry o;
     ServiceRoutine := ServiceRoutine o; ServiceContext := ServiceContext o;
     SpinLock := SpinLock o; TickCount := TickCount o;
     ActualLock := ActualLock o; DispatchAddress := DispatchAddress o;
     Vector := Vector o; Irql := v; SynchronizeIrql := SynchronizeIrql o;
     FloatingSave := FloatingSave o; Connected := Connected o;
     Number := Number o; ShareVector := ShareVector o; Mode := Mode o;
     DispatchCount := DispatchCount o; DispatchCode := DispatchCode o |}.

Definition set_SynchronizeIrql (v : Z) (o : KINTERRUPT) : KINTERRUPT :=
  {| Type_ := Type_ o; Size_ := Size_ o;
     InterruptListEntry := InterruptListEntry o;
     ServiceRoutine := ServiceRoutine o; ServiceContext := ServiceContext o;
     SpinLock := SpinLock o; TickCount := TickCount o;
     ActualLock := ActualLock o; DispatchAddress := DispatchAddress o;
     Vector := Vector o; Irql := Irql o; SynchronizeIrql := v;
     FloatingSave := FloatingSave o; Connected := Connected o;
     Number := Number o; ShareVector := ShareVector o; Mode := Mode o;
     DispatchCount := DispatchCount o; DispatchCode := DispatchCode o |}.

Definition set_FloatingSave (v : bool) (o : KINTERRUPT) : KINTERRUPT :=
  {| Type_ := Type_ o; Size_ := Size_ o;
     InterruptListEntry := InterruptListEntry o;
     ServiceRoutine := ServiceRoutine o; ServiceContext := ServiceContext o;
     SpinLock := SpinLock o; TickCount := TickCount o;
     ActualLock := ActualLock o; DispatchAddress := DispatchAddress o;
     Vector := Vector o; Irql := Irql o;
     SynchronizeIrql := SynchronizeIrql o; FloatingSave := v;
     Connected := Connected o; Number := Number o;
     ShareVector := ShareVector o; Mode := Mode o;
     DispatchCount := DispatchCount o; DispatchCode := DispatchCode o |}.

Definition set_Connected (v : bool) (o : KINTERRUPT) : KINTERRUPT :=
  {| Type_ := Type_ o; Size_ := Size_ o;
     InterruptListEntry := InterruptListEntry o;
     ServiceRoutine := ServiceRoutine o; ServiceContext := ServiceContext o;
     SpinLock := SpinLock o; TickCount := TickCount o;
     ActualLock := ActualLock o; DispatchAddress := DispatchAddress o;
     Vector := Vector o; Irql := Irql o;
     SynchronizeIrql := SynchronizeIrql o; FloatingSave := FloatingSave o;
     Connected := v; Number := Number o; ShareVector := ShareVector o;
     Mode := Mode o; DispatchCount := DispatchCount o;
     DispatchCode := DispatchCode o |}.

Definition set_Number (v : Z) (o : KINTERRUPT) : KINTERRUPT :=
  {| Type_ := Type_ o; Size_ := Size_ o;
     InterruptListEntry := InterruptListEntry o;
     ServiceRoutine := ServiceRoutine o; ServiceContext := ServiceContext o;
     SpinLock := SpinLock o; TickCount := TickCount o;
     ActualLock := ActualLock o; DispatchAddress := DispatchAddress o;
     Vector := Vector o; Irql := Irql o;
     SynchronizeIrql := SynchronizeIrql o; FloatingSave := FloatingSave o;
     Connected := Connected o; Number := v; ShareVector := ShareVector o;
     Mode := Mode o; DispatchCount := DispatchCount o;
     DispatchCode := DispatchCode o |}.

Definition set_ShareVector (v : bool) (o : KINTERRUPT) : KINTERRUPT :=
  {| Type_ := Type_ o; Size_ := Size_ o;
     InterruptListEntry := InterruptListEntry o;
     ServiceRoutine := ServiceRoutine o; ServiceContext := ServiceContext o;
     SpinLock := SpinLock o; TickCount := TickCount o;
     ActualLock := ActualLock o; DispatchAddress := DispatchAddress o;
     Vector := Vector o; Irql := Irql o;
     SynchronizeIrql := SynchronizeIrql o; FloatingSave := FloatingSave o;
     Connected := Connected o; Number := Number o; ShareVector := v;
     Mode := Mode o; DispatchCount := DispatchCount o;
     DispatchCode := DispatchCode o |}.

Definition set_Mode (v : KINTERRUPT_MODE) (o : KINTERRUPT) : KINTERRUPT :=
  {| Type_ := Type_ o; Size_ := Size_ o;
     InterruptListEntry := InterruptListEntry o;
     ServiceRoutine := ServiceRoutine o; ServiceContext := ServiceContext o;
     SpinLock := SpinLock o; TickCount := TickCount o;
     ActualLock := ActualLock o; DispatchAddress := DispatchAddress o;
     Vector := Vector o; Irql := Irql o;
     SynchronizeIrql := SynchronizeIrql o; FloatingSave := FloatingSave o;
     Connected := Connected o; Number := Number o;
     ShareVector := ShareVector o; Mode := v;
     DispatchCount := DispatchCount o; DispatchCode := DispatchCode o |}.

Definition set_DispatchCount (v : Z) (o : KINTERRUPT) : KINTERRUPT :=
  {| Type_ := Type_ o; Size_ := Size_ o;
     InterruptListEntry := InterruptListEntry o;
     ServiceRoutine := ServiceRoutine o; ServiceContext := ServiceContext o;
     SpinLock := SpinLock o; TickCount := TickCount o;
     ActualLock := ActualLock o; DispatchAddress := DispatchAddress o;
     Vector := Vector o; Irql := Irql o;
     SynchronizeIrql := SynchronizeIrql o; FloatingSave := FloatingSave o;
     Connected := Connected o; Number := Number o;
     ShareVector := ShareVector o; Mode := Mode o; DispatchCount := v;
     DispatchCode := DispatchCode o |}.

Definition set_DispatchCode (v : Z -> Z) (o : KINTERRUPT) : KINTERRUPT :=
  {| Type_ := Type_ o; Size_ := Size_ o;
     InterruptListEntry := InterruptListEntry o;
     ServiceRoutine := ServiceRoutine o; ServiceContext := ServiceContext o;
     SpinLock := SpinLock o; TickCount := TickCount o;
     ActualLock := ActualLock o; DispatchAddress := DispatchAddress o;
     Vector := Vector o; Irql := Irql o;
     SynchronizeIrql := SynchronizeIrql o; FloatingSave := FloatingSave o;
     Connected := Connected o; Number := Number o;
     ShareVector := ShareVector o; Mode := Mode o;
     DispatchCount := DispatchCount o; DispatchCode := v |}.

(** ** The module *)

Definition MAXULONGLONG : Z := 0xFFFFFFFFFFFFFFFF.

(** [(KAFFINITY)(1<<Number)] with [Number] a CCHAR: the shift instruction
    of the i386 takes its count modulo 32, so processor 40 gives 0x100 and
    processor -1 gives 0x80000000. *)
Definition affinity_of (Number_ : Z) : Z := wrap32 (Z.shiftl 1 (Number_ mod 32)).

Section Kernel.

Context (P : platform).

(** *** Collaborators *)

(** Modelled from the spec: the macros [KiReturnHandlerAddressFromIDT] and
    [KiSetHandlerAddressToIDT] of ki.h are missing; they are the read and the
    write of a direct table slot by index, the index being
    [HalVectorToIDTEntry(Vector)]. *)
Definition KiReturnHandlerAddressFromIDT (Vector : Z) : M Z :=
  gets (fun s => IDT s (HalVectorToIDTEntry P Vector)).

Definition KiSetHandlerAddressToIDT (Vector HandlerAddress : Z) : M unit :=
  modify (set_IDT (fun idt i =>
    if i =? HalVectorToIDTEntry P Vector then wrap32 HandlerAddress else idt i)).

(** Read and write of a flat table slot by reference. *)
Definition read_flat (FlatDispatch : Z) : M Z :=
  if FlatDispatch =? 0 then KeBugCheck (ACCESS_VIOLATION 0)
  else gets (fun s => FlatTable s FlatDispatch).

Definition write_flat (FlatDispatch DispatchAddress : Z) : M unit :=
  modify (set_FlatTable (fun flat r =>
    if r =? FlatDispatch then DispatchAddress else flat r)).

Definition HalEnableSystemInterrupt (Vector Irql : Z) (Mode : KINTERRUPT_MODE) : M bool :=
  let Enabled := HalEnableResult P Vector Irql Mode in
  modify (set_HalLines (cons (HalEnable Vector Irql Mode Enabled)));;
  ret Enabled.

Definition HalDisableSystemInterrupt (Vector Irql : Z) : M unit :=
  modify (set_HalLines (cons (HalDisable Vector Irql))).

Definition RDTSC : M Z := gets Tsc.

(** Modelled from the spec: the list macros of the kernel headers are
    missing; they maintain the circular doubly linked list of the interrupt
    objects that share a vector.  Every list entry lies in an interrupt
    object, at [off_InterruptListEntry]. *)
Definition entry_of (Interrupt : Z) : Z := ptr_add Interrupt (off_InterruptListEntry P).

Definition object_of (Entry : Z) : Z := CONTAINING_RECORD Entry (off_InterruptListEntry P).

Definition entry_load (Entry : Z) (field : LIST_ENTRY -> Z) : M Z :=
  load (object_of Entry) (fun o => field (InterruptListEntry o)).

Definition entry_store (Entry : Z) (assign : LIST_ENTRY -> LIST_ENTRY) : M unit :=
  store (object_of Entry)
        (fun o => set_InterruptListEntry (assign (InterruptListEntry o)) o).

Definition InitializeListHead (ListHead : Z) : M unit :=
  entry_store ListHead (set_Blink ListHead);;
  entry_store ListHead (set_Flink ListHead).

Definition InsertTailList (ListHead Entry : Z) : M unit :=
  EX_Blink ← entry_load ListHead Blink;
  entry_store Entry (set_Flink ListHead);;
  entry_store Entry (set_Blink EX_Blink);;
  entry_store EX_Blink (set_Flink Entry);;
  entry_store ListHead (set_Blink Entry).

Definition RemoveEntryList (Entry : Z) : M unit :=
  EX_Flink ← entry_load Entry Flink;
  EX_Blink ← entry_load Entry Blink;
  entry_store EX_Blink (set_Flink EX_Flink);;
  entry_store EX_Flink (set_Blink EX_Blink).

(** *** KiGetVectorInfo *)

(** [Interrupt->DispatchAddress] as KiGetVectorInfo reads it.  The pointer
    need not be the address of an interrupt object: for a vector on a flat
    table it is an address inside the dispatch code of the object the slot
    refers to, and the ULONG at [off_DispatchAddress] from it is made of
    bytes of that dispatch code.  [encloses N address] says that the ULONG
    at [address] lies in the array [DispatchCode] of the object at [N],
    which holds DISPATCH_LENGTH ULONGs, on the i386 the same as
    NORMAL_DISPATCH_LENGTH. *)
Definition encloses (Interrupt address : Z) : bool :=
  (Interrupt + off_DispatchCode P <=? address)
  && (address + 4 <=? Interrupt + off_DispatchCode P
                      + 4 * Z.of_nat (NORMAL_DISPATCH_LENGTH P)).

Definition load_DispatchAddress (Interrupt : Z) : M Z :=
  fun s =>
    match Objects s !! Interrupt with
    | Some o => Ok (DispatchAddress o) s
    | None =>
        let address := ptr_add Interrupt (off_DispatchAddress P) in
        match List.find (fun e => encloses e.1 address)
                        (map_to_list (Objects s)) with
        | Some (N, o) =>
            Ok (load32 (DispatchCode o) (address - (N + off_DispatchCode P))) s
        | None => Stop (ACCESS_VIOLATION Interrupt)
        end
    end.

Definition KiGetVectorInfo (Vector : Z) : M DISPATCH_INFO :=
  let '(DispatchType, HalFlatDispatch, HalNoDispatch) :=
    HalSystemVectorDispatchEntry P Vector in
  '(DispatchInfo, CurrentDispatch) ←
    match DispatchType with
    | 0 =>
        (* Primary dispatch *)
        let IDTEntry := HalVectorToIDTEntry P Vector mod 256 in
        CurrentDispatch ← KiReturnHandlerAddressFromIDT Vector;
        ret (fun T =>
                {| InfoType := T;
                   InfoInterrupt :=
                     CONTAINING_RECORD CurrentDispatch (off_DispatchCode P);
                   NoDispatch :=
                     wrap32 (KiStartUnexpectedRange P
                             + (IDTEntry - PRIMARY_VECTOR_BASE P)
                               * KiUnexpectedEntrySize P);
                   InterruptDispatch := KiInterruptDispatch P;
                   FloatingDispatch := KiFloatingDispatch P;
                   ChainedDispatch := KiChainedDispatch P;
                   FlatDispatch := 0 |},
              CurrentDispatch)
    | 1 =>
        (* Secondary dispatch *)
        CurrentDispatch ← read_flat HalFlatDispatch;
        ret (fun T =>
                {| InfoType := T;
                   InfoInterrupt :=
                     wrap32 (CurrentDispatch - KiInterruptTemplate P
                             + KiInterruptTemplate2ndDispatch P);
                   NoDispatch := HalNoDispatch;
                   InterruptDispatch := KiInterruptDispatch2ndLvl P;
                   FloatingDispatch := KiInterruptDispatch2ndLvl P;
                   ChainedDispatch := KiChainedDispatch2ndLvl P;
                   FlatDispatch := HalFlatDispatch |},
              CurrentDispatch)
    | _ =>
        (* Other values reserved *)
        KeBugCheck MISMATCHED_HAL
    end;
  (* Determine dispatch type *)
  if CurrentDispatch =? NoDispatch (DispatchInfo NoConnect) then
    ret (DispatchInfo NoConnect)
  else
    Dispatch ← load_DispatchAddress (InfoInterrupt (DispatchInfo NoConnect));
    if Dispatch =? ChainedDispatch (DispatchInfo NoConnect) then
      ret (DispatchInfo ChainConnect)
    else if (Dispatch =? InterruptDispatch (DispatchInfo NoConnect))
            || (Dispatch =? FloatingDispatch (DispatchInfo NoConnect)) then
      ret (DispatchInfo NormalConnect)
    else
      ret (DispatchInfo UnknownConnect).

(** *** KiConnectVectorAndInterruptObject *)

Definition KiConnectVectorAndInterruptObject
    (Interrupt : Z) (ConnectType : CONNECT_TYPE) : M unit :=
  Vector_ ← load Interrupt Vector;
  DispatchInfo ← KiGetVectorInfo Vector_;
  DispatchAddress_ ←
    (if decide (ConnectType = NoConnect) then
       (* If disconnecting, set vector to NoDispatch *)
       ret (NoDispatch DispatchInfo)
     else
       FloatingSave_ ← load Interrupt FloatingSave;
       let DispatchAddress_ :=
         if decide (ConnectType = NormalConnect) then
           if FloatingSave_ then FloatingDispatch DispatchInfo
           else InterruptDispatch DispatchInfo
         else ChainedDispatch DispatchInfo in
       store Interrupt (set_DispatchAddress DispatchAddress_);;
       (* Set interrupt objects dispatch code to kernel dispatcher *)
       let pl := KiInterruptTemplateDispatch P - KiInterruptTemplate P - 4 in
       code ← load Interrupt DispatchCode;
       store Interrupt
         (set_DispatchCode
            (store32 code pl
               (wrap32 (DispatchAddress_
                        - ptr_add Interrupt (off_DispatchCode P + pl + 4)))));;
       (* Set dispatch vector to proper address dispatch code location *)
       if FlatDispatch DispatchInfo =? 0 then
         ret (ptr_add Interrupt (off_DispatchCode P))
       else
         ret (ptr_add Interrupt
                 (off_DispatchCode P
                  + (KiInterruptTemplate2ndDispatch P - KiInterruptTemplate P)))
     : M Z);
  if FlatDispatch DispatchInfo =? 0 then
    (* Connect to IDT *)
    Vector_ ← load Interrupt Vector;
    KiSetHandlerAddressToIDT Vector_ DispatchAddress_
  else
    (* Connect to flat dispatch *)
    write_flat (FlatDispatch DispatchInfo) DispatchAddress_.

(** *** KeInitializeInterrupt *)

Fixpoint copy_template (Interrupt Index : Z) (count : nat) : M unit :=
  match count with
  | O => ret tt
  | S count' =>
      code ← load Interrupt DispatchCode;
      store Interrupt
        (set_DispatchCode
           (store32 code (4 * Index) (KiInterruptTemplateCode P Index)));;
      copy_template Interrupt (Index + 1) count'
  end.

Definition KeInitializeInterrupt
    (Interrupt ServiceRoutine ServiceContext SpinLock Vector Irql
       SynchronizeIrql : Z)
    (InterruptMode : KINTERRUPT_MODE) (ShareVector : bool)
    (ProcessorNumber : Z) (FloatingSave : bool) : M unit :=
  (* Initialize standard control object header. *)
  store Interrupt (set_Type_ (InterruptObject P));;
  store Interrupt (set_Size_ (sizeof_KINTERRUPT P));;
  store Interrupt (set_ServiceRoutine ServiceRoutine);;
  store Interrupt (set_ServiceContext ServiceContext);;
  (if SpinLock =? 0 then
     store Interrupt (set_SpinLock 0);;
     store Interrupt (set_ActualLock (ptr_add Interrupt (off_SpinLock P)))
   else
     store Interrupt (set_ActualLock SpinLock));;
  store Interrupt (set_Vector Vector);;
  store Interrupt (set_Irql Irql);;
  store Interrupt (set_SynchronizeIrql SynchronizeIrql);;
  store Interrupt (set_Mode InterruptMode);;
  store Interrupt (set_ShareVector ShareVector);;
  store Interrupt (set_Number ProcessorNumber);;
  store Interrupt (set_FloatingSave FloatingSave);;
  (* Initialize fields for the interrupt storm detection. *)
  store Interrupt (set_TickCount (wrap32 (-1)));;
  store Interrupt (set_DispatchCount (wrap32 (-1)));;
  (* Copy the interrupt dispatch code template into the interrupt object *)
  copy_template Interrupt 0 (NORMAL_DISPATCH_LENGTH P);;
  (* Set the address of current interrupt object in the dispatching code. *)
  let pl := KiInterruptTemplateObject P - KiInterruptTemplate P - 4 in
  code ← load Interrupt DispatchCode;
  store Interrupt (set_DispatchCode (store32 code pl (wrap32 Interrupt)));;
  kernel (KeSweepDcache false);;
  (* Set the connected state of the interrupt object to FALSE. *)
  store Interrupt (set_Connected false).

(** *** KeDisconnectInterrupt *)

Definition KeDisconnectInterrupt (Interrupt : Z) : M bool :=
  (* Set system affinity to the specified processor. *)
  Number_ ← load Interrupt Number;
  kernel (KeSetSystemAffinityThread (affinity_of Number_));;
  (* Raise IRQL to dispatcher level and lock dispatcher database. *)
  kernel KiLockDispatcherDatabase;;
  Connected_ ← load Interrupt Connected;
  (if Connected_ then
     Irql_ ← load Interrupt Irql;
     Vector_ ← load Interrupt Vector;
     (* Determine interrupt dispatch vector *)
     DispatchInfo ← KiGetVectorInfo Vector_;
     (* Is dispatch a chained handler? *)
     (if decide (InfoType DispatchInfo = ChainConnect) then
        (* Is interrupt being removed from head? *)
        Head ←
          (if Interrupt =? InfoInterrupt DispatchInfo then
             (* Update next interrupt object to be head *)
             Next ← load (InfoInterrupt DispatchInfo)
                         (fun o => Flink (InterruptListEntry o));
             KiConnectVectorAndInterruptObject (object_of Next) ChainConnect;;
             ret (object_of Next)
           else ret (InfoInterrupt DispatchInfo));
        (* Remove interrupt object *)
        RemoveEntryList (entry_of Interrupt);;
        (* If there's only one interrupt object left on this vector,
           determine proper interrupt dispatcher *)
        Next ← load Head (fun o => Flink (InterruptListEntry o));
        let Interrupty := object_of Next in
        if Head =? Interrupty then
          KiConnectVectorAndInterruptObject Interrupty NormalConnect
        else ret tt
      else
        (* Removing last interrupt object from the vector.  Disable the
           vector, and set it to unconnected *)
        Vector' ← load Interrupt Vector;
        HalDisableSystemInterrupt Vector' Irql_;;
        KiConnectVectorAndInterruptObject Interrupt NoConnect);;
     kernel (KeSweepIcache true);;
     store Interrupt (set_Connected false)
   else ret tt);;
  (* Unlock dispatcher database and lower IRQL to its previous value. *)
  kernel KiUnlockDispatcherDatabase;;
  (* Set system affinity back to the original value. *)
  kernel KeRevertToUserAffinityThread;;
  (* Return whether interrupt was disconnected from the specified vector. *)
  ret Connected_.

(** *** KeConnectInterrupt *)

Definition KeConnectInterrupt (Interrupt : Z) : M bool :=
  Irql_ ← load Interrupt Irql;
  Number_ ← load Interrupt Number;
  Vector_ ← load Interrupt Vector;
  SynchronizeIrql_ ← load Interrupt SynchronizeIrql;
  FloatingSave_ ← load Interrupt FloatingSave;
  '(Connected_, ConnectError) ←
    (if negb ((HIGH_LEVEL P <? Irql_)
              || (KeNumberProcessors P <=? Number_)
              || (SynchronizeIrql_ <? Irql_)
              || FloatingSave_) then
       (* Set system affinity to the specified processor. *)
       kernel (KeSetSystemAffinityThread (affinity_of Number_));;
       (* Raise IRQL to dispatcher level and lock dispatcher database. *)
       kernel KiLockDispatcherDatabase;;
       (* Is interrupt object already connected? *)
       AlreadyConnected ← load Interrupt Connected;
       r ←
         (if negb AlreadyConnected then
            (* Determine interrupt dispatch vector *)
            DispatchInfo ← KiGetVectorInfo Vector_;
            (* If dispatch vector is not connected, then connect it *)
            if decide (InfoType DispatchInfo = NoConnect) then
              store Interrupt (set_Connected true);;
              (* Connect interrupt dispatch to interrupt object dispatch code *)
              InitializeListHead (entry_of Interrupt);;
              KiConnectVectorAndInterruptObject Interrupt NormalConnect;;
              (* Enabled system vector *)
              Mode_ ← load Interrupt Mode;
              Enabled ← HalEnableSystemInterrupt Vector_ Irql_ Mode_;
              ret (true, negb Enabled)
            else
              Sharable ←
                (if decide (InfoType DispatchInfo = UnknownConnect) then
                   ret false
                 else
                   ShareVector_ ← load Interrupt ShareVector;
                   if ShareVector_ then
                     OccupantShare ← load (InfoInterrupt DispatchInfo) ShareVector;
                     if OccupantShare then
                       OccupantMode ← load (InfoInterrupt DispatchInfo) Mode;
                       Mode_ ← load Interrupt Mode;
                       ret (bool_decide (OccupantMode = Mode_))
                     else ret false
                   else ret false);
              if (Sharable : bool) then
                (* Vector is already connected as sharable.  New vector is
                   sharable and modes match.  Chain new vector. *)
                store Interrupt (set_Connected true);;
                (* If not already using chained dispatch handler, set it up *)
                (if decide (InfoType DispatchInfo = ChainConnect) then ret tt
                 else KiConnectVectorAndInterruptObject
                        (InfoInterrupt DispatchInfo) ChainConnect);;
                (* Add to tail of chained dispatch *)
                InsertTailList (entry_of (InfoInterrupt DispatchInfo))
                               (entry_of Interrupt);;
                ret (true, false)
              else ret (false, false)
          else ret (false, false));
       (* Unlock dispatcher database and lower IRQL to its previous value. *)
       kernel KiUnlockDispatcherDatabase;;
       (* Set system affinity back to the original value. *)
       kernel KeRevertToUserAffinityThread;;
       ret r
     else ret (false, false));
  if (Connected_ : bool) && (ConnectError : bool) then
    KeDisconnectInterrupt Interrupt;;
    ret false
  else
    (* Return whether interrupt was connected to the specified vector. *)
    ret Connected_.

(** *** KiTimedChainedDispatch2ndLvl *)

(** The call [Interrupt->ServiceRoutine(Interrupt, Interrupt->ServiceContext)]:
    the platform tells what the call does; the cycle counter and the time of
    nested interrupts move on.  The call is entered in [KernelLog] at the
    point where it is made, and in [IsrLog] with its answer. *)
Definition call_ServiceRoutine (Interrupt : Z) : M bool :=
  Routine ← load Interrupt ServiceRoutine;
  Context_ ← load Interrupt ServiceContext;
  kernel (InterruptService Routine Interrupt Context_);;
  Log ← gets IsrLog;
  let effect :=
    CallServiceRoutine P (length Log) Routine Interrupt Context_ in
  modify (set_IsrLog ((Interrupt, isr_handled effect) :: Log));;
  modify (fun s => set_Tsc (wrap64 (Tsc s + isr_cycles effect)) s);;
  modify (fun s => set_IsrTime (wrap64 (IsrTime s + isr_nested effect)) s);;
  ret (isr_handled effect).

(** One turn of the [do ... while (TRUE)] loop: [None] when the function
    returns or breaks out of the loop, otherwise the next interrupt object
    and the handled flag. *)
Definition chained_dispatch_turn (ListEnd Interrupt : Z) (Handled : bool)
    : M (option (Z * bool)) :=
  Irql_ ← load Interrupt Irql;
  SynchronizeIrql_ ← load Interrupt SynchronizeIrql;
  (if negb (Irql_ =? SynchronizeIrql_) then kernel (KfRaiseIrql SynchronizeIrql_)
   else ret tt);;
  StartTimeHigher ← gets IsrTime;
  StartTime ← RDTSC;
  (* Acquire the interrupt lock. *)
  Lock ← load Interrupt ActualLock;
  kernel (KiAcquireSpinLock Lock);;
  (* Call the Interrupt Service Routine. *)
  Result ← call_ServiceRoutine Interrupt;
  let Handled := Handled || Result in
  (* Release the interrupt lock. *)
  Lock ← load Interrupt ActualLock;
  kernel (KiReleaseSpinLock Lock);;
  Now ← RDTSC;
  let ElapsedTime := wrap64 (Now - StartTime) in
  IsrTimeNow ← gets IsrTime;
  let TimeHigher := wrap64 (IsrTimeNow - StartTimeHigher) in
  let ElapsedTime := wrap64 (ElapsedTime - TimeHigher) in
  Limit ← gets KiIsrTscLimit;
  (if Limit <? ElapsedTime then
     if KdDebuggerEnabled P then kernel DbgBreakPoint else ret tt
   else ret tt);;
  (* Update time spent processing interrupts. *)
  modify (fun s => set_IsrTime (wrap64 (IsrTime s + ElapsedTime)) s);;
  (* If IRQL was raised, lower to the previous level. *)
  Irql_ ← load Interrupt Irql;
  SynchronizeIrql_ ← load Interrupt SynchronizeIrql;
  (if negb (Irql_ =? SynchronizeIrql_) then kernel (KfLowerIrql Irql_)
   else ret tt);;
  Mode_ ← load Interrupt Mode;
  if Handled && bool_decide (Mode_ = LevelSensitive) then
    (* The interrupt has been handled. *)
    ret None
  else
    (* If this is the last entry on the chain, get out, otherwise advance
       to the next entry. *)
    Next ← load Interrupt (fun o => Flink (InterruptListEntry o));
    if (Next =? ListEnd) && negb Handled then ret None
    else ret (Some (object_of Next, Handled)).

Inductive completion := Returned | OutOfFuel.

Fixpoint chained_dispatch_loop (fuel : nat) (ListEnd Interrupt : Z)
    (Handled : bool) : M completion :=
  match fuel with
  | O => ret OutOfFuel
  | S fuel' =>
      r ← chained_dispatch_turn ListEnd Interrupt Handled;
      match r with
      | None => ret Returned
      | Some (Interrupt', Handled') =>
          chained_dispatch_loop fuel' ListEnd Interrupt' Handled'
      end
  end.

Definition KiTimedChainedDispatch2ndLvl (fuel : nat) (Interrupt : Z) : M completion :=
  let Handled := false in
  let ListEnd := entry_of Interrupt in
  chained_dispatch_loop fuel ListEnd Interrupt Handled.

(** *** KiTimedInterruptDispatch *)

Definition KiTimedInterruptDispatch (Interrupt : Z) : M unit :=
  StartTimeHigher ← gets IsrTime;
  StartTime ← RDTSC;
  (* Acquire the interrupt lock. *)
  Lock ← load Interrupt ActualLock;
  kernel (KiAcquireSpinLock Lock);;
  (* Call the Interrupt Service Routine. *)
  call_ServiceRoutine Interrupt;;
  (* Release the interrupt lock. *)
  Lock ← load Interrupt ActualLock;
  kernel (KiReleaseSpinLock Lock);;
  (* ElapsedTime is time since we entered this routine. *)
  Now ← RDTSC;
  let ElapsedTime := wrap64 (Now - StartTime) in
  (* TimeHigher is the amount Prcb->IsrTime has increased since we entered
     this routine, ie the amount of time spent in higher level ISRs. *)
  IsrTimeNow ← gets IsrTime;
  let TimeHigher := wrap64 (IsrTimeNow - StartTimeHigher) in
  let ElapsedTime := wrap64 (ElapsedTime - TimeHigher) in
  Limit ← gets KiIsrTscLimit;
  (if Limit <? ElapsedTime then
     (* If there is a debugger attached, breakin.  Otherwise do nothing. *)
     if KdDebuggerEnabled P then kernel DbgBreakPoint else ret tt
   else ret tt);;
  (* Update time spent processing interrupts. *)
  modify (fun s => set_IsrTime (wrap64 (IsrTime s + ElapsedTime)) s).

(** *** Calibration of the ISR time limit *)

Definition timer_block : M KISRTIMERINIT :=
  fun s => match KiIsrTimerInit s with
           | Some b => Ok b s
           | None => Stop (ACCESS_VIOLATION 0)
           end.

Definition KiInitializeInterruptTimersDpc : M unit :=
  Limit ← gets KiIsrTscLimit;
  if Limit =? MAXULONGLONG then
    (* First pass.   Get starting TSC value. *)
    Now ← RDTSC;
    b ← timer_block;
    modify (set_KiIsrTimerInit
              (Some {| SampleTimer := SampleTimer b; InitialTime := Now |}));;
    modify (set_KiIsrTscLimit 0xFFFFFFFFFFFFFFFE)
  else
    (* Second pass.  Get ending TSC value, cancel the periodic timer
       controlling this DPC and free the memory associated with the timer
       and the DPC. *)
    Now ← RDTSC;
    b ← timer_block;
    let Delta := wrap64 (Now - InitialTime b) in
    (* KeCancelTimer *)
    modify (set_KiIsrTimerInit
              (Some {| SampleTimer := None; InitialTime := InitialTime b |}));;
    (* ExFreePool *)
    modify (set_KiIsrTimerInit None);;
    Microseconds ← gets KiTimeLimitIsrMicroseconds;
    let Delta := wrap64 (Delta * Microseconds) in
    let Delta := Delta / (10 * 1000 * 1000) in
    modify (set_KiIsrTscLimit Delta).

Definition KiInitializeInterruptTimers : M unit :=
  Microseconds ← gets KiTimeLimitIsrMicroseconds;
  (* If not timing ISRs, nothing to do. *)
  if Microseconds =? 0 then ret tt
  else if Z.land (KeFeatureBits P) (KF_RDTSC P) =? 0 then
    (* Processor doesn't support the RDTSC instruction, don't attempt to
       time ISRs. *)
    ret tt
  else if negb (PoolAvailable P) then
    (* Couldn't allocate memory for timer?  Skip ISR timing. *)
    modify (set_KiIsrTimerInit None)
  else
    modify (set_KiIsrTimerInit (Some {| SampleTimer := None; InitialTime := 0 |}));;
    (* Relative time in 100 nanoseconds = 10 seconds. *)
    let DueTime := - (10 * 10 * 1000 * 1000) in
    b ← timer_block;
    modify (set_KiIsrTimerInit
              (Some {| SampleTimer := Some (DueTime, 10000);
                       InitialTime := InitialTime b |})).

End Kernel.

(** ** Auxiliary definitions for the statements *)

(** The bytes of [DispatchCode] after the template copy loop of
    KeInitializeInterrupt has run [count] times from [Index]. *)
Fixpoint copy_code (P : platform) (code : Z -> Z) (Index : Z) (count : nat) : Z -> Z :=
  match count with
  | O => code
  | S count' =>
      copy_code P (store32 code (4 * Index) (KiInterruptTemplateCode P Index))
                (Index + 1) count'
  end.

(** The vocabulary of the vector inspector: the table shape of a vector,
    the target installed for it, its unexpected-interrupt stub, the
    dispatch entry points that go with the shape, and the occupant of the
    vector: the interrupt object for which KiConnectVectorAndInterruptObject
    installs the target, which is the address of its dispatch code (IDT) or
    that address plus the offset of KiInterruptTemplate2ndDispatch in the
    template (flat table). *)
Definition vector_shape (P : platform) (Vector : Z) : Z :=
  (HalSystemVectorDispatchEntry P Vector).1.1.

Definition flat_slot (P : platform) (Vector : Z) : Z :=
  (HalSystemVectorDispatchEntry P Vector).1.2.

Definition installed_target (P : platform) (s : machine) (Vector : Z) : Z :=
  if vector_shape P Vector =? 0 then IDT s (HalVectorToIDTEntry P Vector)
  else FlatTable s (flat_slot P Vector).

Definition unexpected_stub (P : platform) (Vector : Z) : Z :=
  if vector_shape P Vector =? 0 then
    wrap32 (KiStartUnexpectedRange P
            + (HalVectorToIDTEntry P Vector mod 256 - PRIMARY_VECTOR_BASE P)
              * KiUnexpectedEntrySize P)
  else (HalSystemVectorDispatchEntry P Vector).2.

Definition occupant_of (P : platform) (Vector target : Z) : Z :=
  if vector_shape P Vector =? 0 then CONTAINING_RECORD target (off_DispatchCode P)
  else CONTAINING_RECORD target
         (off_DispatchCode P
          + (KiInterruptTemplate2ndDispatch P - KiInterruptTemplate P)).

Definition chained_entry (P : platform) (Vector : Z) : Z :=
  if vector_shape P Vector =? 0 then KiChainedDispatch P
  else KiChainedDispatch2ndLvl P.

Definition normal_entry (P : platform) (Vector : Z) : Z :=
  if vector_shape P Vector =? 0 then KiInterruptDispatch P
  else KiInterruptDispatch2ndLvl P.

Definition floating_entry (P : platform) (Vector : Z) : Z :=
  if vector_shape P Vector =? 0 then KiFloatingDispatch P
  else KiInterruptDispatch2ndLvl P.

(** The classification rule, in the words of the specification. *)
Definition classification (P : platform) (Vector : Z) (occupant : KINTERRUPT)
    : CONNECT_TYPE :=
  if DispatchAddress occupant =? chained_entry P Vector then ChainConnect
  else if (DispatchAddress occupant =? normal_entry P Vector)
          || (DispatchAddress occupant =? floating_entry P Vector)
       then NormalConnect
  else UnknownConnect.

(** The calibration sequence: KiInitializeInterruptTimers, then the DPC
    when the time-stamp counter reads [t1], then the DPC again when it
    reads [t2]. *)
Definition calibration (P : platform) (t1 t2 : Z) : M unit :=
  (KiInitializeInterruptTimers P;;
   modify (set_Tsc t1);;
   KiInitializeInterruptTimersDpc;;
   modify (set_Tsc t2);;
   KiInitializeInterruptTimersDpc)%K.

(** The chain of the interrupt objects that share a vector: a circular
    doubly linked list through [InterruptListEntry].  [chain P m l] says
    that the objects at the addresses [l], in this order and starting with
    the head, form such a list in the store [m]. *)
Definition flink_of (m : gmap Z KINTERRUPT) (x : Z) : option Z :=
  (fun o => Flink (InterruptListEntry o)) <$> m !! x.

Definition blink_of (m : gmap Z KINTERRUPT) (x : Z) : option Z :=
  (fun o => Blink (InterruptListEntry o)) <$> m !! x.

Fixpoint fwd_seg (P : platform) (m : gmap Z KINTERRUPT) (l : list Z) (next : Z)
    : Prop :=
  match l with
  | [] => True
  | x :: t => flink_of m x = Some (entry_of P (hd next t)) /\ fwd_seg P m t next
  end.

Fixpoint bwd_seg (P : platform) (m : gmap Z KINTERRUPT) (prev : Z) (l : list Z)
    : Prop :=
  match l with
  | [] => True
  | x :: t => blink_of m x = Some (entry_of P prev) /\ bwd_seg P m x t
  end.

Definition chain (P : platform) (m : gmap Z KINTERRUPT) (l : list Z) : Prop :=
  NoDup l /\ Forall valid_ptr l
  /\ match l with
     | [] => False
     | h :: t => fwd_seg P m l h /\ bwd_seg P m (List.last t h) l
     end.

Definition mode_of (m : gmap Z KINTERRUPT) (x : Z) : option KINTERRUPT_MODE :=
  Mode <$> m !! x.

(** The answer of the service routine of the object at [x] when it is the
    next call on the machine [s] after [n] more calls. *)
Definition next_answer (P : platform) (s : machine) (n : nat) (x : Z) : option bool :=
  (fun o => isr_handled (CallServiceRoutine P (length (IsrLog s) + n)
                           (ServiceRoutine o) x (ServiceContext o)))
    <$> Objects s !! x.

(** Objects that differ at most in their list entries. *)
Definition links_only (m m' : gmap Z KINTERRUPT) : Prop :=
  forall x,
    match m !! x with
    | Some o => exists e, m' !! x = Some (set_InterruptListEntry e o)
    | None => m' !! x = None
    end.

(** What an interrupt object was registered with: the fields that connecting
    and disconnecting never write. *)
Definition registration (o : KINTERRUPT)
    : Z * Z * Z * Z * Z * Z * bool * Z * bool * KINTERRUPT_MODE :=
  (ServiceRoutine o, ServiceContext o, ActualLock o, Vector o, Irql o,
   SynchronizeIrql o, FloatingSave o, Number o, ShareVector o, Mode o).

(** The entry point KiConnectVectorAndInterruptObject selects for a
    connection type other than NoConnect, and the object once its dispatch
    address and the branch of its dispatch code are set to an entry point
    of a vector on the IDT. *)
Definition dispatch_entry (P : platform) (T : CONNECT_TYPE) (o : KINTERRUPT) : Z :=
  if decide (T = NormalConnect) then
    if FloatingSave o then KiFloatingDispatch P else KiInterruptDispatch P
  else KiChainedDispatch P.

Definition rebound (P : platform) (Interrupt entry : Z) (o : KINTERRUPT) : KINTERRUPT :=
  let pl := KiInterruptTemplateDispatch P - KiInterruptTemplate P - 4 in
  set_DispatchCode
    (store32 (DispatchCode o) pl
       (wrap32 (entry - ptr_add Interrupt (off_DispatchCode P + pl + 4))))
    (set_DispatchAddress entry o).

(** What the inspector reports for a vector on the IDT whose slot holds
    [CurrentDispatch]. *)
Definition direct_info (P : platform) (Vector CurrentDispatch : Z)
    (T : CONNECT_TYPE) : DISPATCH_INFO :=
  {| InfoType := T;
     InfoInterrupt := CONTAINING_RECORD CurrentDispatch (off_DispatchCode P);
     NoDispatch := unexpected_stub P Vector;
     InterruptDispatch := KiInterruptDispatch P;
     FloatingDispatch := KiFloatingDispatch P;
     ChainedDispatch := KiChainedDispatch P;
     FlatDispatch := 0 |}.

(** The write of KiSetHandlerAddressToIDT, and the condition under which
    the inspector can read the occupant of a vector on the IDT. *)
Definition idt_write (P : platform) (Vector HandlerAddress : Z)
    (idt : Z -> Z) : Z -> Z :=
  fun i => if i =? HalVectorToIDTEntry P Vector then wrap32 HandlerAddress
           else idt i.

Definition inspectable (P : platform) (s : machine) (v : Z) : Prop :=
  IDT s (HalVectorToIDTEntry P v) <> unexpected_stub P v ->
  is_Some (Objects s !! CONTAINING_RECORD (IDT s (HalVectorToIDTEntry P v))
                          (off_DispatchCode P)).

(** The states of a vector on the IDT.  [vector_free]: the slot holds the
    unexpected-interrupt stub.  [vector_held P s v l]: the slot holds the
    dispatch code of the head of the chain [l] of connected objects of the
    vector; a sole owner dispatches through KiInterruptDispatch, the head of
    a longer chain through KiChainedDispatch. *)
Definition vector_free (P : platform) (s : machine) (v : Z) : Prop :=
  vector_shape P v = 0
  /\ IDT s (HalVectorToIDTEntry P v) = unexpected_stub P v.

Definition member_of (P : platform) (s : machine) (v x : Z) : Prop :=
  ptr_add x (off_DispatchCode P) <> unexpected_stub P v
  /\ exists o, Objects s !! x = Some o
               /\ Vector o = v /\ Connected o = true /\ FloatingSave o = false.

Definition vector_held (P : platform) (s : machine) (v : Z) (l : list Z) : Prop :=
  vector_shape P v = 0
  /\ chain P (Objects s) l
  /\ IDT s (HalVectorToIDTEntry P v) = ptr_add (hd 0 l) (off_DispatchCode P)
  /\ Forall (member_of P s v) l
  /\ DispatchAddress <$> Objects s !! hd 0 l
     = Some (match l with
             | [_] => KiInterruptDispatch P
             | _ => KiChainedDispatch P
             end).

(** An object that KeConnectInterrupt does not refuse outright. *)
Definition connectable (P : platform) (o : KINTERRUPT) : Prop :=
  Irql o <= HIGH_LEVEL P /\ Number o < KeNumberProcessors P
  /\ Irql o <= SynchronizeIrql o /\ FloatingSave o = false.

(** What a call leaves alone: the objects outside [touched], the
    registration of every object, the other slots of the IDT and the flat
    table. *)
Definition preserves (P : platform) (v : Z) (touched : list Z) (s s' : machine) : Prop :=
  (forall x, x ∉ touched -> Objects s' !! x = Objects s !! x)
  /\ (forall x o, Objects s !! x = Some o ->
        exists o', Objects s' !! x = Some o' /\ registration o' = registration o)
  /\ (forall i, i <> HalVectorToIDTEntry P v -> IDT s' i = IDT s i)
  /\ FlatTable s' = FlatTable s.

(** The calls around the body of KeConnectInterrupt and
    KeDisconnectInterrupt. *)
Definition pinned (Number_ : Z) (log : list kernel_call) : list kernel_call :=
  KeRevertToUserAffinityThread :: KiUnlockDispatcherDatabase
  :: KiLockDispatcherDatabase
  :: KeSetSystemAffinityThread (affinity_of Number_) :: log.

(** The object of a first connection: connected, alone on its list, bound
    to the normal dispatch. *)
Definition first_owner (P : platform) (N : Z) (n : KINTERRUPT) : KINTERRUPT :=
  let n1 := set_InterruptListEntry
              {| Flink := entry_of P N; Blink := entry_of P N |}
              (set_Connected true n) in
  rebound P N (dispatch_entry P NormalConnect n1) n1.

(** The outcome of one turn of the chained dispatch loop at an object
    [o] whose service routine answered [Result]. *)
Definition turn_outcome (P : platform) (ListEnd : Z) (o : KINTERRUPT)
    (Handled Result : bool) : option (Z * bool) :=
  if (Handled || Result) && bool_decide (Mode o = LevelSensitive) then None
  else if (Flink (InterruptListEntry o) =? ListEnd) && negb (Handled || Result)
       then None
  else Some (object_of P (Flink (InterruptListEntry o)), Handled || Result).

(** The calls of one dispatch of the object [o] at [Interrupt], newest
    first: the spin lock of the object is acquired, the service routine is
    called and the spin lock is released, in this order; the breakpoint is
    hit when the call took longer than [Limit] and a debugger is attached;
    and the chained dispatch ([raise]) brackets the whole with a raise to
    the synchronize level and a lower to the request level when the two
    differ. *)
Definition service_calls (P : platform) (Interrupt : Z) (o : KINTERRUPT)
    (raise : bool) (Limit ElapsedTime : Z) : list kernel_call :=
  (if raise && negb (Irql o =? SynchronizeIrql o)
   then [KfLowerIrql (Irql o)] else [])
  ++ (if (Limit <? ElapsedTime) && KdDebuggerEnabled P
      then [DbgBreakPoint] else [])
  ++ [KiReleaseSpinLock (ActualLock o);
      InterruptService (ServiceRoutine o) Interrupt (ServiceContext o);
      KiAcquireSpinLock (ActualLock o)]
  ++ (if raise && negb (Irql o =? SynchronizeIrql o)
      then [KfRaiseIrql (SynchronizeIrql o)] else []).

(** The request level in force after the kernel calls [log] (newest
    first), when it was [start] before them. *)
Fixpoint irql_after (log : list kernel_call) (start : Z) : Z :=
  match log with
  | [] => start
  | KfRaiseIrql NewIrql :: _ => NewIrql
  | KfLowerIrql NewIrql :: _ => NewIrql
  | _ :: older => irql_after older start
  end.

(** A list of interrupt objects connected, or disconnected, one after the
    other; the answers of the calls in the same order. *)
Fixpoint connect_each (P : platform) (l : list Z) : M (list bool) :=
  match l with
  | [] => ret []
  | x :: t =>
      (b ← KeConnectInterrupt P x;
       bs ← connect_each P t;
       ret (b :: bs))%K
  end.

Fixpoint disconnect_each (P : platform) (l : list Z) : M (list bool) :=
  match l with
  | [] => ret []
  | x :: t =>
      (b ← KeDisconnectInterrupt P x;
       bs ← disconnect_each P t;
       ret (b :: bs))%K
  end.

(** An interrupt object that may be connected to vector [v] and shares it
    in mode [md]. *)
Definition shareable_at (P : platform) (s : machine) (v : Z)
    (md : KINTERRUPT_MODE) (x : Z) : Prop :=
  valid_ptr x
  /\ ptr_add x (off_DispatchCode P) <> unexpected_stub P v
  /\ exists o, Objects s !! x = Some o
               /\ connectable P o /\ Connected o = false /\ Vector o = v
               /\ ShareVector o = true /\ Mode o = md.

(** What the inspector reports for a vector on a flat dispatch table whose
    slot holds [CurrentDispatch]. *)
Definition flat_info (P : platform) (Vector CurrentDispatch : Z)
    (T : CONNECT_TYPE) : DISPATCH_INFO :=
  {| InfoType := T;
     InfoInterrupt :=
       wrap32 (CurrentDispatch - KiInterruptTemplate P
               + KiInterruptTemplate2ndDispatch P);
     NoDispatch := unexpected_stub P Vector;
     InterruptDispatch := KiInterruptDispatch2ndLvl P;
     FloatingDispatch := KiInterruptDispatch2ndLvl P;
     ChainedDispatch := KiChainedDispatch2ndLvl P;
     FlatDispatch := flat_slot P Vector |}.

(** The address KiConnectVectorAndInterruptObject installs in a flat
    table for the object at [Interrupt]. *)
Definition flat_entry (P : platform) (Interrupt : Z) : Z :=
  ptr_add Interrupt
    (off_DispatchCode P
     + (KiInterruptTemplate2ndDispatch P - KiInterruptTemplate P)).

(** The type the inspector gives a vector on a flat table when the
    dispatch address it reads is [Dispatch]. *)
Definition flat_type (P : platform) (Dispatch : Z) : CONNECT_TYPE :=
  if Dispatch =? KiChainedDispatch2ndLvl P then ChainConnect
  else if Dispatch =? KiInterruptDispatch2ndLvl P then NormalConnect
  else UnknownConnect.

(** The first owner of a vector on a flat table: connected, alone on its
    list, bound to KiInterruptDispatch2ndLvl. *)
Definition flat_owner (P : platform) (N : Z) (n : KINTERRUPT) : KINTERRUPT :=
  rebound P N (KiInterruptDispatch2ndLvl P)
    (set_InterruptListEntry {| Flink := entry_of P N; Blink := entry_of P N |}
       (set_Connected true n)).

(** Where the inspector reads the dispatch address of the occupant of a
    flat vector bound to the object at [N].  With [d] the offset of
    KiInterruptTemplate2ndDispatch in the template, the slot holds
    [N + off_DispatchCode + d] and the inspector adds [d] once more, so that
    it reads the ULONG at offset [2 * d + off_DispatchAddress] of the
    dispatch code of [N].  [misread_in_code P m N]: that ULONG lies within
    the dispatch code of [N] and of no other object of the store [m], and
    no interrupt object is stored at the address the inspector takes for
    the occupant. *)
Definition misread_offset (P : platform) : Z :=
  2 * (KiInterruptTemplate2ndDispatch P - KiInterruptTemplate P)
  + off_DispatchAddress P.

Definition misread_in_code (P : platform) (m : gmap Z KINTERRUPT) (N : Z) : Prop :=
  let d := KiInterruptTemplate2ndDispatch P - KiInterruptTemplate P in
  let size := 4 * Z.of_nat (NORMAL_DISPATCH_LENGTH P) in
  (0 <= off_DispatchCode P /\ 0 <= off_DispatchAddress P /\ 0 <= d)
  /\ misread_offset P + 4 <= size
  /\ N + off_DispatchCode P + size <= 2 ^ 32
  /\ m !! (N + off_DispatchCode P + 2 * d) = None
  /\ forall k, is_Some (m !! k) ->
               encloses P k (N + off_DispatchCode P + misread_offset P) = true ->
               k = N.

(** The calls of a KeDisconnectInterrupt that disconnects. *)
Definition unpinned (Number_ : Z) (log : list kernel_call) : list kernel_call :=
  KeRevertToUserAffinityThread :: KiUnlockDispatcherDatabase
  :: KeSweepIcache true :: KiLockDispatcherDatabase
  :: KeSetSystemAffinityThread (affinity_of Number_) :: log.

(** ** A concrete platform and machine

    A uniprocessor PC: 32 request levels, the interrupt template of
    intsup.asm at a fixed address, every vector dispatched through the IDT
    (shape 0) or through a flat table (shape 1).  The HAL answer to an
    enable request and the behaviour of service routines are left to the
    caller. *)

Definition pc (enable : bool) (shape : Z)
    (isr : nat -> Z -> Z -> Z -> isr_effect) : platform :=
  {| HIGH_LEVEL := 31; KeNumberProcessors := 1; PRIMARY_VECTOR_BASE := 0x30;
     NORMAL_DISPATCH_LENGTH := 106; InterruptObject := 22;
     sizeof_KINTERRUPT := 0x1E4;
     off_InterruptListEntry := 4; off_SpinLock := 0x14;
     off_DispatchAddress := 0x20; off_DispatchCode := 0x3C;
     KiStartUnexpectedRange := 0x80540000; KiUnexpectedEntrySize := 7;
     KiInterruptTemplate := 0x80541000;
     KiInterruptTemplateCode := fun i => 0x90909090 + i;
     KiInterruptTemplateObject := 0x80541064;
     KiInterruptTemplateDispatch := 0x8054106B;
     KiInterruptTemplate2ndDispatch := 0x8054105F;
     KiInterruptDispatch := 0x80542000; KiFloatingDispatch := 0x80542100;
     KiChainedDispatch := 0x80542200;
     KiInterruptDispatch2ndLvl := 0x80542300;
     KiChainedDispatch2ndLvl := 0x80542400;
     HalSystemVectorDispatchEntry :=
       fun v => (shape, 0x80550000 + 4 * v, 0x80543000);
     HalVectorToIDTEntry := fun v => v mod 256;
     HalEnableResult := fun _ _ _ => enable;
     KeFeatureBits := 2; KF_RDTSC := 2; KdDebuggerEnabled := false;
     PoolAvailable := true;
     CallServiceRoutine := isr |}.

Definition quiet_isr : nat -> Z -> Z -> Z -> isr_effect :=
  fun _ _ _ _ => {| isr_handled := false; isr_cycles := 10; isr_nested := 0 |}.

(** Storage of an interrupt object before KeInitializeInterrupt. *)
Definition raw_object : KINTERRUPT :=
  {| Type_ := 0; Size_ := 0; InterruptListEntry := {| Flink := 0; Blink := 0 |};
     ServiceRoutine := 0; ServiceContext := 0; SpinLock := 0; TickCount := 0;
     ActualLock := 0; DispatchAddress := 0; Vector := 0; Irql := 0;
     SynchronizeIrql := 0; FloatingSave := false; Connected := false;
     Number := 0; ShareVector := false; Mode := Latched; DispatchCount := 0;
     DispatchCode := fun _ => 0 |}.

(** The machine after boot: three raw objects, every vector on its
    unexpected-interrupt stub, calibration not started. *)
Definition pc_boot (P : platform) (microseconds : Z) : machine :=
  {| Objects := <[0x1000 := raw_object]>
                  (<[0x2000 := raw_object]> (<[0x3000 := raw_object]> ∅));
     IDT := fun i => wrap32 (KiStartUnexpectedRange P
                             + (i - PRIMARY_VECTOR_BASE P) * KiUnexpectedEntrySize P);
     FlatTable := fun _ => 0x80543000;
     HalLines := []; KernelLog := [];
     KiIsrTscLimit := MAXULONGLONG;
     KiTimeLimitIsrMicroseconds := microseconds;
     KiIsrTimerInit := None;
     Tsc := 0; IsrTime := 0; IsrLog := [] |}.

(** The state reached by running [m], or the starting state when [m] stops. *)
Definition after {A} (m : M A) (s : machine) : machine :=
  match m s with Ok _ s' => s' | Stop _ => s end.

(** Three objects on vector 0x41 of the PC, request and synchronize level
    5, sharing allowed, initialized and connected in the order 0x1000,
    0x2000, 0x3000. *)
Definition pc_setup (P : platform) (mode : KINTERRUPT_MODE) : M unit :=
  (KeInitializeInterrupt P 0x1000 7 8 0 0x41 5 5 mode true 0 false;;
   KeInitializeInterrupt P 0x2000 7 8 0 0x41 5 5 mode true 0 false;;
   KeInitializeInterrupt P 0x3000 7 8 0 0x41 5 5 mode true 0 false)%K.

Definition pc_shared (P : platform) (mode : KINTERRUPT_MODE) : machine :=
  after (pc_setup P mode;;
         KeConnectInterrupt P 0x1000;;
         KeConnectInterrupt P 0x2000;;
         KeConnectInterrupt P 0x3000)%K
        (pc_boot P 0).

(** The interrupt object of the end-to-end example: vector 0x41, request
    and synchronize level 5, level sensitive, not shareable, processor 0,
    initialized at 0x1000 and not connected. *)
Definition pc_single (P : platform) : machine :=
  after (KeInitializeInterrupt P 0x1000 7 8 0 0x41 5 5 LevelSensitive false 0 false)
        (pc_boot P 0).

(** The same object registered for processor [Number_]. *)
Definition pc_on_processor (P : platform) (Number_ : Z) : machine :=
  after (KeInitializeInterrupt P 0x1000 7 8 0 0x41 5 5 LevelSensitive false
           Number_ false)
        (pc_boot P 0).

(** The same object connected, on a PC whose HAL dispatches every vector
    through a flat table. *)
Definition pc_flat (isr : nat -> Z -> Z -> Z -> isr_effect) : machine :=
  after (KeConnectInterrupt (pc true 1 isr) 0x1000) (pc_single (pc true 1 isr)).

(** The three shareable objects initialized and none connected, and the
    first two of them connected. *)
Definition pc_ready (P : platform) (mode : KINTERRUPT_MODE) : machine :=
  after (pc_setup P mode) (pc_boot P 0).

Definition pc_pair (P : platform) (mode : KINTERRUPT_MODE) : machine :=
  after (pc_setup P mode;;
         KeConnectInterrupt P 0x1000;;
         KeConnectInterrupt P 0x2000)%K
        (pc_boot P 0).

(** The object stored at [x]. *)
Definition object_at (s : machine) (x : Z) : KINTERRUPT :=
  default raw_object (Objects s !! x).

(** The object at 0x1000 not shareable and connected, the object at 0x2000
    shareable and not connected, both on vector 0x41. *)
Definition pc_exclusive (P : platform) : machine :=
  after (KeInitializeInterrupt P 0x1000 7 8 0 0x41 5 5 Latched false 0 false;;
         KeInitializeInterrupt P 0x2000 7 8 0 0x41 5 5 Latched true 0 false;;
         KeConnectInterrupt P 0x1000)%K
        (pc_boot P 0).

(** The slot of vector 0x41 pointing at the dispatch code of an object
    that was never connected. *)
Definition pc_stray (P : platform) : machine :=
  set_IDT (fun idt i => if i =? 0x41 then 0x103C else idt i)
          (pc_ready P Latched).

(** Service routines of which only that of the object at 0x2000 reports
    the interrupt handled. *)
Definition second_handles : nat -> Z -> Z -> Z -> isr_effect :=
  fun _ _ Interrupt _ =>
    {| isr_handled := Interrupt =? 0x2000; isr_cycles := 10; isr_nested := 0 |}.

(** The edge-triggered walk in the words of the specification: after a
    pass in which no member reported handled the chain is walked again, so
    that the dispatch returns only once a member has reported handled. *)
Definition restarts_until_handled (P : platform) (s : machine) (head : Z) : Prop :=
  forall fuel s',
    KiTimedChainedDispatch2ndLvl P fuel head s = Ok Returned s' ->
    Exists (fun c => c.2 = true) (IsrLog s').

(** * Properties *)

Arguments wrap32 : simpl never.
Arguments wrap64 : simpl never.
Arguments ptr_add : simpl never.
Arguments CONTAINING_RECORD : simpl never.
Arguments store32 : simpl never.
Arguments load32 : simpl never.

(** ** Machine arithmetic *)

Lemma wrap32_valid x : valid_ptr (wrap32 x).
Proof. unfold valid_ptr, wrap32. apply Z.mod_pos_bound. lia. Qed.

Lemma wrap32_small x : valid_ptr x -> wrap32 x = x.
Proof. unfold valid_ptr, wrap32. intros H. apply Z.mod_small. lia. Qed.

Lemma wrap32_idem x : wrap32 (wrap32 x) = wrap32 x.
Proof. apply wrap32_small, wrap32_valid. Qed.

Lemma CONTAINING_RECORD_ptr_add p off :
  valid_ptr p -> CONTAINING_RECORD (ptr_add p off) off = p.
Proof.
  intros Hp. unfold CONTAINING_RECORD, ptr_add, wrap32.
  rewrite Zminus_mod_idemp_l.
  replace (p + off - off) with p by lia.
  apply Z.mod_small. exact Hp.
Qed.

Lemma ptr_add_inj p q off :
  valid_ptr p -> valid_ptr q -> ptr_add p off = ptr_add q off -> p = q.
Proof.
  intros Hp Hq H.
  rewrite <- (CONTAINING_RECORD_ptr_add p off Hp).
  rewrite <- (CONTAINING_RECORD_ptr_add q off Hq).
  now rewrite H.
Qed.

Lemma bytes_of_ulong v :
  byte_of v 0 + byte_of v 1 * 2 ^ 8 + byte_of v 2 * 2 ^ 16 + byte_of v 3 * 2 ^ 24
  = wrap32 v.
Proof.
  unfold byte_of, wrap32.
  rewrite !Z.shiftr_div_pow2 by lia.
  change (2 ^ (8 * 0)) with 1. rewrite Z.div_1_r.
  change (8 * 1) with 8. change (8 * 2) with 16. change (8 * 3) with 24.
  pose proof (Z.div_mod v 256 ltac:(lia)) as H0.
  pose proof (Z.mod_pos_bound v 256 ltac:(lia)) as B0.
  pose proof (Z.div_mod (v / 256) 256 ltac:(lia)) as H1.
  pose proof (Z.mod_pos_bound (v / 256) 256 ltac:(lia)) as B1.
  pose proof (Z.div_mod (v / 256 / 256) 256 ltac:(lia)) as H2.
  pose proof (Z.mod_pos_bound (v / 256 / 256) 256 ltac:(lia)) as B2.
  pose proof (Z.div_mod (v / 256 / 256 / 256) 256 ltac:(lia)) as H3.
  pose proof (Z.mod_pos_bound (v / 256 / 256 / 256) 256 ltac:(lia)) as B3.
  replace (v / 2 ^ 8) with (v / 256) by reflexivity.
  replace (v / 2 ^ 16) with (v / 256 / 256)
    by (rewrite Z.div_div by lia; reflexivity).
  replace (v / 2 ^ 24) with (v / 256 / 256 / 256)
    by (rewrite !Z.div_div by lia; reflexivity).
  apply (Z.mod_unique _ _ (v / 256 / 256 / 256 / 256)); lia.
Qed.

Lemma byte_of_range v i : 0 <= byte_of v i < 256.
Proof. unfold byte_of. apply Z.mod_pos_bound. lia. Qed.

Lemma load32_store32 code off v :
  load32 (store32 code off v) off = wrap32 v.
Proof.
  unfold load32, store32.
  replace ((off <=? off) && (off <? off + 4)) with true
    by (symmetry; apply andb_true_iff; split; [apply Z.leb_le | apply Z.ltb_lt]; lia).
  replace ((off <=? off + 1) && (off + 1 <? off + 4)) with true
    by (symmetry; apply andb_true_iff; split; [apply Z.leb_le | apply Z.ltb_lt]; lia).
  replace ((off <=? off + 2) && (off + 2 <? off + 4)) with true
    by (symmetry; apply andb_true_iff; split; [apply Z.leb_le | apply Z.ltb_lt]; lia).
  replace ((off <=? off + 3) && (off + 3 <? off + 4)) with true
    by (symmetry; apply andb_true_iff; split; [apply Z.leb_le | apply Z.ltb_lt]; lia).
  replace (off - off) with 0 by lia.
  replace (off + 1 - off) with 1 by lia.
  replace (off + 2 - off) with 2 by lia.
  replace (off + 3 - off) with 3 by lia.
  rewrite !(Z.mod_small (byte_of v _) 256) by apply byte_of_range.
  apply bytes_of_ulong.
Qed.

Lemma store32_other code off v k :
  k < off \/ off + 4 <= k -> store32 code off v k = code k.
Proof.
  intros H. unfold store32.
  destruct (off <=? k) eqn:E1; destruct (k <? off + 4) eqn:E2; simpl; try reflexivity.
  apply Z.leb_le in E1. apply Z.ltb_lt in E2. lia.
Qed.

(** ** Stepping through the monad *)

Lemma bind_Ok {A B} (m : M A) (k : A -> M B) s a s' :
  m s = Ok a s' -> bind m k s = k a s'.
Proof. intros H. unfold bind. now rewrite H. Qed.

Lemma bind_Stop {A B} (m : M A) (k : A -> M B) s c :
  m s = Stop c -> bind m k s = Stop c.
Proof. intros H. unfold bind. now rewrite H. Qed.

Lemma load_Ok {A} p (f : KINTERRUPT -> A) s o :
  Objects s !! p = Some o -> load p f s = Ok (f o) s.
Proof. intros H. unfold load. now rewrite H. Qed.

Lemma store_Ok p f s o :
  Objects s !! p = Some o ->
  store p f s = Ok tt (set_Objects (insert p (f o)) s).
Proof. intros H. unfold store. now rewrite H. Qed.

Lemma bind_ret {A B} (a : A) (k : A -> M B) s : bind (ret a) k s = k a s.
Proof. reflexivity. Qed.

Lemma bind_gets {A B} (f : machine -> A) (k : A -> M B) s :
  bind (gets f) k s = k (f s) s.
Proof. reflexivity. Qed.

Lemma bind_modify {B} (f : machine -> machine) (k : unit -> M B) s :
  bind (modify f) k s = k tt (f s).
Proof. reflexivity. Qed.

Lemma bind_kernel {B} c (k : unit -> M B) s :
  bind (kernel c) k s = k tt (set_KernelLog (cons c) s).
Proof. reflexivity. Qed.

Lemma bind_assoc {A B C} (m : M A) (f : A -> M B) (g : B -> M C) s :
  bind (bind m f) g s = bind m (fun x => bind (f x) g) s.
Proof. unfold bind. destruct (m s); reflexivity. Qed.

Lemma bind_load {A B} p (f : KINTERRUPT -> A) (k : A -> M B) s o :
  Objects s !! p = Some o -> bind (load p f) k s = k (f o) s.
Proof. intros H. apply bind_Ok, load_Ok, H. Qed.

Lemma bind_store {B} p f (k : unit -> M B) s o :
  Objects s !! p = Some o ->
  bind (store p f) k s = k tt (set_Objects (insert p (f o)) s).
Proof. intros H. apply bind_Ok, store_Ok, H. Qed.

Lemma load_DispatchAddress_object P p s o :
  Objects s !! p = Some o ->
  load_DispatchAddress P p s = Ok (DispatchAddress o) s.
Proof. intros H. unfold load_DispatchAddress. now rewrite H. Qed.

Lemma bind_load_DispatchAddress {B} P p (k : Z -> M B) s o :
  Objects s !! p = Some o ->
  bind (load_DispatchAddress P p) k s = k (DispatchAddress o) s.
Proof. intros H. apply bind_Ok, load_DispatchAddress_object, H. Qed.

Lemma load_DispatchAddress_pure P p s d s' :
  load_DispatchAddress P p s = Ok d s' -> s' = s.
Proof.
  unfold load_DispatchAddress.
  destruct (Objects s !! p); [intros [= _ H]; now subst|].
  destruct (List.find _ _) as [[N o]|]; [intros [= _ H]; now subst|discriminate].
Qed.

(** The read through a pointer into the dispatch code of the object at
    [N], the only object whose dispatch code holds the ULONG read. *)
Lemma load_DispatchAddress_code P p s N o :
  Objects s !! p = None ->
  Objects s !! N = Some o ->
  encloses P N (ptr_add p (off_DispatchAddress P)) = true ->
  (forall k, is_Some (Objects s !! k) ->
             encloses P k (ptr_add p (off_DispatchAddress P)) = true -> k = N) ->
  load_DispatchAddress P p s
  = Ok (load32 (DispatchCode o)
          (ptr_add p (off_DispatchAddress P) - (N + off_DispatchCode P))) s.
Proof.
  intros Hp HN Henc Hone. unfold load_DispatchAddress. rewrite Hp. cbv zeta.
  destruct (List.find _ _) as [[k v]|] eqn:E.
  - apply List.find_some in E as [Hin Hk]. cbn [fst] in Hk.
    apply list_elem_of_In, elem_of_map_to_list in Hin.
    assert (k = N) as -> by (apply Hone; [by exists v | exact Hk]).
    rewrite HN in Hin. injection Hin as <-. reflexivity.
  - pose proof (List.find_none _ _ E (N, o)) as H. cbn [fst] in H.
    rewrite Henc in H. discriminate H.
    apply list_elem_of_In, elem_of_map_to_list. exact HN.
Qed.

Ltac proj_simpl :=
  unfold set_Objects, set_IDT, set_FlatTable, set_HalLines, set_KernelLog,
    set_KiIsrTscLimit, set_KiIsrTimerInit, set_Tsc, set_IsrTime, set_IsrLog;
  cbn [Objects IDT FlatTable HalLines KernelLog KiIsrTscLimit
       KiTimeLimitIsrMicroseconds KiIsrTimerInit Tsc IsrTime IsrLog].

Ltac lookup_solve :=
  proj_simpl;
  first [ eassumption
        | apply lookup_insert_eq
        | rewrite lookup_insert_ne by congruence; lookup_solve ].

Ltac kstep :=
  first [ rewrite bind_ret | rewrite bind_gets | rewrite bind_modify
        | rewrite bind_kernel | rewrite bind_assoc
        | erewrite bind_load by lookup_solve
        | erewrite bind_load_DispatchAddress by lookup_solve
        | erewrite bind_store by lookup_solve
        | erewrite load_Ok by lookup_solve
        | erewrite store_Ok by lookup_solve ];
  proj_simpl; rewrite ?insert_insert_eq.

Lemma set_DispatchCode_id o : set_DispatchCode (DispatchCode o) o = o.
Proof. destruct o; reflexivity. Qed.

Lemma copy_template_Ok P p n :
  forall i objs idt flat hal log lim us tinit tsc isrt calls o,
  objs !! p = Some o ->
  copy_template P p i n
    (Build_machine objs idt flat hal log lim us tinit tsc isrt calls) =
  Ok tt (Build_machine
           (<[p := set_DispatchCode (copy_code P (DispatchCode o) i n) o]> objs)
           idt flat hal log lim us tinit tsc isrt calls).
Proof.
  induction n as [|n IH];
    intros i objs idt flat hal log lim us tinit tsc isrt calls o Ho.
  - cbn [copy_template copy_code].
    rewrite set_DispatchCode_id, insert_id by exact Ho. reflexivity.
  - cbn [copy_template copy_code].
    repeat kstep.
    erewrite IH by apply lookup_insert_eq.
    rewrite insert_insert_eq. reflexivity.
Qed.

Lemma Ok_after {A} (m : M A) s a :
  match m s with Ok a' _ => a' = a | Stop _ => False end ->
  m s = Ok a (after m s).
Proof. unfold after. destruct (m s); [intros ->; reflexivity | contradiction]. Qed.

Section Rejection.

Context (P : platform).

(** ** Rejected connections *)

(** X18: an interrupt object whose request level exceeds HIGH_LEVEL, or whose
    processor number is not below the number of processors, or whose
    synchronize level is below its request level, or that asks for a
    floating save, is refused by KeConnectInterrupt: the call returns FALSE
    and the machine (objects, chains, vector tables, HAL lines, kernel
    calls) is exactly the one before the call. *)
Theorem KeConnectInterrupt_rejects_invalid s Interrupt o :
  Objects s !! Interrupt = Some o ->
  HIGH_LEVEL P < Irql o \/ KeNumberProcessors P <= Number o
  \/ SynchronizeIrql o < Irql o \/ FloatingSave o = true ->
  KeConnectInterrupt P Interrupt s = Ok false s.
Proof.
  intros Ho Hbad.
  unfold KeConnectInterrupt.
  rewrite !(bind_Ok _ _ _ _ _ (load_Ok _ _ _ _ Ho)).
  assert ((HIGH_LEVEL P <? Irql o) || (KeNumberProcessors P <=? Number o)
          || (SynchronizeIrql o <? Irql o) || FloatingSave o = true) as ->.
  { rewrite !orb_true_iff, !Z.ltb_lt, Z.leb_le. tauto. }
  reflexivity.
Qed.

End Rejection.

(** Witness of X18 on the PC: an object asking for a floating save. *)
Lemma KeConnectInterrupt_rejects_invalid_witness :
  KeConnectInterrupt (pc true 0 quiet_isr) 0x1000
    (set_Objects (insert 0x1000 (set_FloatingSave true raw_object))
                 (pc_boot (pc true 0 quiet_isr) 0))
  = Ok false
      (set_Objects (insert 0x1000 (set_FloatingSave true raw_object))
                   (pc_boot (pc true 0 quiet_isr) 0)).
Proof.
  apply (KeConnectInterrupt_rejects_invalid (pc true 0 quiet_isr) _ 0x1000
           (set_FloatingSave true raw_object)).
  - reflexivity.
  - right; right; right; reflexivity.
Defined.

(** C1: KeConnectInterrupt at a processor number below zero.  The
    interrupt object of the example is registered for processor -1 on the
    uniprocessor PC, where only processor 0 exists.  The test
    [Number >= KeNumberProcessors] compares a signed CCHAR and lets it
    pass: KeConnectInterrupt sets the affinity to [1 << -1], connects the
    object to vector 0x41, has the HAL enable the line and returns TRUE,
    where the comment of the source has an invalid processor number among
    the reasons not to connect. *)
Lemma KeConnectInterrupt_negative_processor :
  Number <$> Objects (pc_on_processor (pc true 0 quiet_isr) (-1)) !! 0x1000
  = Some (-1)
  /\ KeNumberProcessors (pc true 0 quiet_isr) = 1
  /\ exists s',
       KeConnectInterrupt (pc true 0 quiet_isr) 0x1000
         (pc_on_processor (pc true 0 quiet_isr) (-1)) = Ok true s'
       /\ Connected <$> Objects s' !! 0x1000 = Some true
       /\ IDT s' 0x41 = 0x103C
       /\ HalLines s' = [HalEnable 0x41 5 LevelSensitive true]
       /\ KernelLog s'
          = [KeRevertToUserAffinityThread; KiUnlockDispatcherDatabase;
             KiLockDispatcherDatabase; KeSetSystemAffinityThread 0x80000000;
             KeSweepDcache false].
Proof.
  split; [vm_compute; reflexivity|]. split; [reflexivity|].
  eexists. split; [apply Ok_after; vm_compute; reflexivity|].
  split; [vm_compute; reflexivity|].
  split; [vm_compute; reflexivity|].
  split; vm_compute; reflexivity.
Qed.

(** ** Initialization *)

Section Initialize.

Context (P : platform).

(** C10: KeInitializeInterrupt on the storage of an interrupt object always
    completes; it writes no vector-table slot and calls neither
    HalEnableSystemInterrupt nor HalDisableSystemInterrupt; no other object
    changes; every field is set from the arguments; the ULONG in front of
    KiInterruptTemplateObject in the copied template holds the address of
    the object; and the object is left unconnected. *)
Theorem KeInitializeInterrupt_initializes
    s Interrupt old ServiceRoutine' ServiceContext' SpinLock' Vector' Irql'
    SynchronizeIrql' InterruptMode ShareVector' ProcessorNumber FloatingSave' :
  Objects s !! Interrupt = Some old ->
  exists s' new,
    KeInitializeInterrupt P Interrupt ServiceRoutine' ServiceContext' SpinLock'
      Vector' Irql' SynchronizeIrql' InterruptMode ShareVector' ProcessorNumber
      FloatingSave' s = Ok tt s'
    /\ Objects s' = <[Interrupt := new]> (Objects s)
    /\ IDT s' = IDT s /\ FlatTable s' = FlatTable s /\ HalLines s' = HalLines s
    /\ KernelLog s' = KeSweepDcache false :: KernelLog s
    /\ Type_ new = InterruptObject P /\ Size_ new = sizeof_KINTERRUPT P
    /\ ServiceRoutine new = ServiceRoutine'
    /\ ServiceContext new = ServiceContext'
    /\ ActualLock new =
         (if SpinLock' =? 0 then ptr_add Interrupt (off_SpinLock P) else SpinLock')
    /\ Vector new = Vector' /\ Irql new = Irql'
    /\ SynchronizeIrql new = SynchronizeIrql'
    /\ Mode new = InterruptMode /\ ShareVector new = ShareVector'
    /\ Number new = ProcessorNumber /\ FloatingSave new = FloatingSave'
    /\ TickCount new = 2 ^ 32 - 1 /\ DispatchCount new = 2 ^ 32 - 1
    /\ DispatchCode new =
         store32 (copy_code P (DispatchCode old) 0 (NORMAL_DISPATCH_LENGTH P))
                 (KiInterruptTemplateObject P - KiInterruptTemplate P - 4)
                 (wrap32 Interrupt)
    /\ load32 (DispatchCode new)
               (KiInterruptTemplateObject P - KiInterruptTemplate P - 4)
         = wrap32 Interrupt
    /\ InterruptListEntry new = InterruptListEntry old
    /\ Connected new = false.
Proof.
  intros Ho.
  destruct s as [objs idt flat hal log lim us tinit tsc isrt calls].
  cbn in Ho. unfold KeInitializeInterrupt.
  destruct (SpinLock' =? 0) eqn:Elock.
  - eexists. eexists. split.
    + repeat kstep.
      erewrite (bind_Ok (copy_template _ _ _ _))
        by (apply copy_template_Ok; lookup_solve).
      rewrite ?insert_insert_eq. repeat kstep. reflexivity.
    + cbn. repeat (split; [reflexivity|]).
      split; [cbn; rewrite load32_store32; apply wrap32_idem|]. split; reflexivity.
  - eexists. eexists. split.
    + repeat kstep.
      erewrite (bind_Ok (copy_template _ _ _ _))
        by (apply copy_template_Ok; lookup_solve).
      rewrite ?insert_insert_eq. repeat kstep. reflexivity.
    + cbn. repeat (split; [reflexivity|]).
      split; [cbn; rewrite load32_store32; apply wrap32_idem|]. split; reflexivity.
Qed.

End Initialize.

(** Witness of C10: initializing the raw object at 0x1000 on the PC. *)
Lemma KeInitializeInterrupt_initializes_witness :
  exists s' new,
    KeInitializeInterrupt (pc true 0 quiet_isr) 0x1000 7 8 0 0x41 5 5
      LevelSensitive false 0 false (pc_boot (pc true 0 quiet_isr) 0) = Ok tt s'
    /\ Objects s' = <[0x1000 := new]> (Objects (pc_boot (pc true 0 quiet_isr) 0))
    /\ Vector new = 0x41 /\ Connected new = false
    /\ load32 (DispatchCode new) 0x60 = 0x1000.
Proof.
  destruct (KeInitializeInterrupt_initializes (pc true 0 quiet_isr)
              (pc_boot (pc true 0 quiet_isr) 0) 0x1000 raw_object
              7 8 0 0x41 5 5 LevelSensitive false 0 false eq_refl)
    as (s' & new & H).
  exists s', new. intuition.
Defined.

(** ** The vector inspector *)

Section Inspector.

Context (P : platform).

Lemma KiGetVectorInfo_pure s Vector_ info s' :
  KiGetVectorInfo P Vector_ s = Ok info s' -> s' = s.
Proof.
  unfold KiGetVectorInfo.
  destruct (HalSystemVectorDispatchEntry P Vector_) as [[ty fl] nd].
  destruct ty as [|[q|q|]|q]; cbv beta iota;
    try (unfold bind, KeBugCheck; discriminate).
  - unfold KiReturnHandlerAddressFromIDT. rewrite bind_assoc, bind_gets, bind_ret. cbv beta iota.
    cbn [NoDispatch InfoInterrupt ChainedDispatch InterruptDispatch FloatingDispatch].
    destruct (_ =? _); [intros [= _ H]; now subst|].
    unfold bind at 1.
    destruct (load_DispatchAddress P _ s) as [d s1|] eqn:E; [|discriminate].
    apply load_DispatchAddress_pure in E as ->.
    repeat destruct (_ =? _); cbn; intros [= _ H]; now subst.
  - unfold read_flat. destruct (fl =? 0); [discriminate|].
    rewrite bind_assoc, bind_gets, bind_ret. cbv beta iota.
    cbn [NoDispatch InfoInterrupt ChainedDispatch InterruptDispatch FloatingDispatch].
    destruct (_ =? _); [intros [= _ H]; now subst|].
    unfold bind at 1.
    destruct (load_DispatchAddress P _ s) as [d s1|] eqn:E; [|discriminate].
    apply load_DispatchAddress_pure in E as ->.
    repeat destruct (_ =? _); cbn; intros [= _ H]; now subst.
Qed.

(** X17: on a vector dispatched through the IDT, the inspector returns
    without changing the machine; it reports NoConnect exactly when the slot
    holds the unexpected-interrupt stub of the vector; otherwise it reads the
    dispatch address of the occupant, the object whose dispatch code the
    slot points at, and reports ChainConnect when that is KiChainedDispatch,
    else NormalConnect when it is KiInterruptDispatch or KiFloatingDispatch,
    else UnknownConnect. *)
Theorem KiGetVectorInfo_classifies s Vector_ :
  vector_shape P Vector_ = 0 ->
  (installed_target P s Vector_ <> unexpected_stub P Vector_ ->
   is_Some (Objects s !! occupant_of P Vector_ (installed_target P s Vector_))) ->
  exists info,
    KiGetVectorInfo P Vector_ s = Ok info s
    /\ NoDispatch info = unexpected_stub P Vector_
    /\ ChainedDispatch info = chained_entry P Vector_
    /\ InterruptDispatch info = normal_entry P Vector_
    /\ FloatingDispatch info = floating_entry P Vector_
    /\ InfoInterrupt info = occupant_of P Vector_ (installed_target P s Vector_)
    /\ (InfoType info = NoConnect <->
         installed_target P s Vector_ = unexpected_stub P Vector_)
    /\ (installed_target P s Vector_ <> unexpected_stub P Vector_ ->
         exists occupant,
           Objects s !! InfoInterrupt info = Some occupant
           /\ InfoType info = classification P Vector_ occupant).
Proof.
  unfold classification, installed_target, unexpected_stub,
    occupant_of, chained_entry, normal_entry, floating_entry,
    vector_shape, flat_slot, KiGetVectorInfo.
  destruct (HalSystemVectorDispatchEntry P Vector_) as [[ty fl] nd].
  cbn [fst snd].
  intros Hty Hocc; subst ty.
  change (0 =? 0) with true in *. cbv beta iota in *.
  unfold KiReturnHandlerAddressFromIDT.
  rewrite bind_assoc, bind_gets, bind_ret. cbv beta iota.
  cbn [NoDispatch InfoInterrupt ChainedDispatch InterruptDispatch FloatingDispatch].
  destruct (IDT s _ =? _) eqn:E.
  - apply Z.eqb_eq in E. eexists. split; [reflexivity|].
    cbn. repeat (split; [reflexivity|]).
    split; [split; [intros _; exact E | reflexivity]|].
    intros H. now destruct H.
  - apply Z.eqb_neq in E. destruct (Hocc E) as [o Ho].
    erewrite bind_load_DispatchAddress by exact Ho.
    destruct (DispatchAddress o =? KiChainedDispatch P) eqn:E1;
      [|destruct ((DispatchAddress o =? KiInterruptDispatch P)
                  || (DispatchAddress o =? KiFloatingDispatch P)) eqn:E2];
      (eexists; split; [reflexivity|]; cbn;
       repeat (split; [reflexivity|]);
       split; [split; [discriminate | intros H; now destruct E]|];
       intros _; exists o; split; [exact Ho | rewrite ?E1, ?E2; reflexivity]).
Qed.

End Inspector.

(** ** Calibration of the ISR time limit *)

Section Calibration.

Context (P : platform).

Lemma KiInitializeInterruptTimers_skips s :
  KiTimeLimitIsrMicroseconds s = 0
  \/ Z.land (KeFeatureBits P) (KF_RDTSC P) = 0 ->
  KiInitializeInterruptTimers P s = Ok tt s.
Proof.
  intros H. unfold KiInitializeInterruptTimers. rewrite bind_gets.
  destruct (KiTimeLimitIsrMicroseconds s =? 0) eqn:E; [reflexivity|].
  destruct H as [H|H]; [apply Z.eqb_neq in E; contradiction|].
  rewrite H. reflexivity.
Qed.

(** C8, as the code has it: the limit starts at the largest ULONGLONG; a
    calibration with a counter delta [D] between the two runs of the DPC and
    a limit of [L] microseconds leaves the ULONGLONG product of [D] and [L],
    reduced modulo 2^64, divided by 10,000,000, which is [D * L / 10000000]
    whenever [D * L] is below 2^64; the timer block is released; and when
    [L] is zero or the processor has no RDTSC, no block is allocated, no
    timer is set and the limit keeps its starting value. *)
Theorem calibration_sets_limit s t1 t2 :
  KiIsrTscLimit s = MAXULONGLONG ->
  0 <= KiTimeLimitIsrMicroseconds s < 2 ^ 32 ->
  (KiTimeLimitIsrMicroseconds s = 0
   \/ Z.land (KeFeatureBits P) (KF_RDTSC P) = 0 ->
   KiInitializeInterruptTimers P s = Ok tt s)
  /\ (KiTimeLimitIsrMicroseconds s <> 0 ->
      Z.land (KeFeatureBits P) (KF_RDTSC P) <> 0 ->
      PoolAvailable P = true ->
      exists s0 s',
        KiInitializeInterruptTimers P s = Ok tt s0
        /\ (exists b, KiIsrTimerInit s0 = Some b
                      /\ SampleTimer b = Some (- 100000000, 10000))
        /\ KiIsrTscLimit s0 = MAXULONGLONG
        /\ calibration P t1 t2 s = Ok tt s'
        /\ KiIsrTscLimit s' =
             wrap64 (wrap64 (t2 - t1) * KiTimeLimitIsrMicroseconds s) / 10000000
        /\ (wrap64 (t2 - t1) * KiTimeLimitIsrMicroseconds s < 2 ^ 64 ->
            KiIsrTscLimit s' =
              wrap64 (t2 - t1) * KiTimeLimitIsrMicroseconds s / 10000000)
        /\ KiIsrTimerInit s' = None).
Proof.
  intros Hlim HL. split; [apply KiInitializeInterruptTimers_skips|].
  intros HL0 Hrdtsc Hpool.
  destruct s as [objs idt flat hal log lim us tinit tsc isrt calls].
  cbn in *. subst lim.
  apply Z.eqb_neq in HL0, Hrdtsc.
  assert (Hrun : KiInitializeInterruptTimers P
            (Build_machine objs idt flat hal log MAXULONGLONG us tinit tsc isrt calls)
          = Ok tt (Build_machine objs idt flat hal log MAXULONGLONG us
                     (Some {| SampleTimer := Some (- 100000000, 10000);
                              InitialTime := 0 |}) tsc isrt calls)).
  { unfold KiInitializeInterruptTimers. rewrite bind_gets.
    cbn [KiTimeLimitIsrMicroseconds]. rewrite HL0, Hrdtsc, Hpool.
    cbn [negb]. reflexivity. }
  eexists. eexists. split; [exact Hrun|].
  split; [eexists; split; reflexivity|].
  split; [reflexivity|].
  assert (Hcal : calibration P t1 t2
            (Build_machine objs idt flat hal log MAXULONGLONG us tinit tsc isrt calls)
          = Ok tt (Build_machine objs idt flat hal log
                     (wrap64 (wrap64 (t2 - t1) * us) / 10000000) us
                     None t2 isrt calls)).
  { unfold calibration. rewrite (bind_Ok _ _ _ _ _ Hrun).
    rewrite bind_modify. proj_simpl.
    unfold KiInitializeInterruptTimersDpc at 1. reflexivity. }
  split; [exact Hcal|].
  cbn [KiIsrTscLimit KiIsrTimerInit].
  split; [reflexivity|]. split; [|reflexivity].
  intros Hsmall. f_equal. unfold wrap64 at 1. apply Z.mod_small.
  split; [|exact Hsmall].
  apply Z.mul_nonneg_nonneg; [|lia].
  unfold wrap64. apply Z.mod_pos_bound. lia.
Qed.

End Calibration.

(** Witness of C8: ten seconds at 3 GHz and a limit of 500 microseconds. *)
Lemma calibration_sets_limit_witness :
  KiIsrTscLimit
    (after (calibration (pc true 0 quiet_isr) 1000 30000001000)
           (pc_boot (pc true 0 quiet_isr) 500))
  = 30000000000 * 500 / 10000000.
Proof.
  destruct (calibration_sets_limit (pc true 0 quiet_isr)
              (pc_boot (pc true 0 quiet_isr) 500) 1000 30000001000
              eq_refl ltac:(change (0 <= 500 < 2 ^ 32); lia)) as [_ H].
  destruct H as (s0 & s' & _ & _ & _ & Hcal & _ & Hexact & _).
  - change (500 <> 0). lia.
  - change (2 <> 0). lia.
  - reflexivity.
  - unfold after. rewrite Hcal. apply Hexact. reflexivity.
Defined.

(** Counterexample to C8 as stated: with a delta of 2^40 cycles and a limit
    of 2^30 microseconds the product does not fit in a ULONGLONG; the limit
    that results is 0, which is not [D * L / 10000000]. *)
Lemma calibration_exact_counterexample :
  KiIsrTscLimit
    (after (calibration (pc true 0 quiet_isr) 0 (2 ^ 40))
           (pc_boot (pc true 0 quiet_isr) (2 ^ 30)))
  = 0
  /\ 2 ^ 40 * 2 ^ 30 / 10000000 <> 0.
Proof. split; [vm_compute; reflexivity | vm_compute; discriminate]. Qed.

(** ** The chained dispatch *)

Section Dispatch.

Context (P : platform).

Lemma chained_dispatch_turn_spec ListEnd Interrupt Handled s o :
  Objects s !! Interrupt = Some o ->
  let Result :=
    isr_handled (CallServiceRoutine P (length (IsrLog s)) (ServiceRoutine o)
                   Interrupt (ServiceContext o)) in
  exists s',
    chained_dispatch_turn P ListEnd Interrupt Handled s
    = Ok (turn_outcome P ListEnd o Handled Result) s'
    /\ Objects s' = Objects s
    /\ IsrLog s' = (Interrupt, Result) :: IsrLog s
    /\ IDT s' = IDT s /\ FlatTable s' = FlatTable s /\ HalLines s' = HalLines s.
Proof.
  intros Ho Result.
  destruct s as [objs idt flat hal log lim us tinit tsc isrt calls].
  cbn in Ho, Result.
  unfold chained_dispatch_turn, call_ServiceRoutine, RDTSC, turn_outcome.
  repeat kstep.
  destruct (negb (Irql o =? SynchronizeIrql o)) eqn:Eraise;
    repeat kstep;
    match goal with
    | |- context [if ?a <? ?b then _ else _] => destruct (a <? b)
    end;
    destruct (KdDebuggerEnabled P);
    repeat (first [kstep | rewrite Eraise]);
    fold Result;
    (destruct ((Handled || Result) && bool_decide (Mode o = LevelSensitive));
     [ eexists; split; [reflexivity | repeat split]
     | repeat kstep;
       destruct ((Flink (InterruptListEntry o) =? ListEnd)
                 && negb (Handled || Result));
       eexists; (split; [reflexivity | repeat split]) ]).
Qed.

Lemma flink_of_Some m x e :
  flink_of m x = Some e <->
  exists o, m !! x = Some o /\ Flink (InterruptListEntry o) = e.
Proof.
  unfold flink_of. rewrite fmap_Some. split; intros (o & H1 & H2); eauto.
Qed.

Lemma blink_of_Some m x e :
  blink_of m x = Some e <->
  exists o, m !! x = Some o /\ Blink (InterruptListEntry o) = e.
Proof.
  unfold blink_of. rewrite fmap_Some. split; intros (o & H1 & H2); eauto.
Qed.

Lemma object_of_entry_of x : valid_ptr x -> object_of P (entry_of P x) = x.
Proof. apply CONTAINING_RECORD_ptr_add. Qed.

Lemma entry_of_inj x y :
  valid_ptr x -> valid_ptr y -> entry_of P x = entry_of P y -> x = y.
Proof. apply ptr_add_inj. Qed.

Lemma fwd_seg_elem m l next x :
  fwd_seg P m l next -> x ∈ l ->
  exists y, flink_of m x = Some (entry_of P y) /\ (y ∈ l \/ y = next).
Proof.
  induction l as [|a t IH]; intros Hf Hx; [by apply elem_of_nil in Hx|].
  destruct Hf as [Ha Ht]. apply elem_of_cons in Hx as [->|Hx].
  - exists (hd next t). split; [exact Ha|].
    destruct t as [|b t]; [by right|]. left. cbn.
    apply elem_of_cons; right. apply elem_of_cons; by left.
  - destruct (IH Ht Hx) as (y & Hy & Hin). exists y. split; [exact Hy|].
    destruct Hin; [left; apply elem_of_cons; by right | by right].
Qed.

(** Every member of a chain points forward to a member of the chain. *)
Lemma chain_next m l x :
  chain P m l -> x ∈ l ->
  exists o y, m !! x = Some o
              /\ Flink (InterruptListEntry o) = entry_of P y
              /\ object_of P (Flink (InterruptListEntry o)) = y /\ y ∈ l.
Proof.
  intros (Hnd & Hv & Hl) Hx.
  destruct l as [|h t]; [contradiction|]. destruct Hl as [Hf _].
  destruct (fwd_seg_elem _ _ _ _ Hf Hx) as (y & Hy & Hin).
  apply flink_of_Some in Hy as (o & Ho & Hfl).
  assert (y ∈ h :: t) as Hy
    by (destruct Hin; [done | subst; apply elem_of_cons; by left]).
  exists o, y. repeat split; try done.
  rewrite Hfl. apply object_of_entry_of.
  rewrite Forall_forall in Hv. by apply Hv.
Qed.

Lemma all_mode_elem m l md x o :
  Forall (fun x => mode_of m x = Some md) l ->
  x ∈ l -> m !! x = Some o -> Mode o = md.
Proof.
  rewrite Forall_forall. intros H Hx Ho. specialize (H x Hx).
  unfold mode_of in H. rewrite Ho in H. by injection H.
Qed.

Lemma loop_handled_runs_on m l :
  chain P m l ->
  (forall x o, x ∈ l -> m !! x = Some o -> Mode o = Latched) ->
  forall fuel ListEnd x s,
    Objects s = m -> x ∈ l ->
    exists s', chained_dispatch_loop P fuel ListEnd x true s = Ok OutOfFuel s'
               /\ Objects s' = m.
Proof.
  intros Hc Hmode. induction fuel as [|fuel IH]; intros ListEnd x s Hs Hx.
  - eexists. split; [reflexivity | exact Hs].
  - destruct (chain_next m l x Hc Hx) as (o & y & Ho & Hfl & Hobj & Hy).
    rewrite <- Hs in Ho.
    destruct (chained_dispatch_turn_spec ListEnd x true s o Ho)
      as (s1 & Hturn & Hobjs & _).
    cbn [chained_dispatch_loop]. rewrite (bind_Ok _ _ _ _ _ Hturn).
    unfold turn_outcome.
    rewrite (Hmode x o Hx ltac:(by rewrite <- Hs)).
    cbn [orb andb negb]. rewrite bool_decide_eq_false_2 by discriminate.
    rewrite andb_false_r. rewrite Hobj.
    apply IH; [congruence | exact Hy].
Qed.

Lemma loop_returned_unhandled m l :
  chain P m l ->
  (forall x o, x ∈ l -> m !! x = Some o -> Mode o = Latched) ->
  forall fuel ListEnd x s s',
    Objects s = m -> x ∈ l ->
    chained_dispatch_loop P fuel ListEnd x false s = Ok Returned s' ->
    exists calls, IsrLog s' = calls ++ IsrLog s
                  /\ Forall (fun c => c.2 = false) calls.
Proof.
  intros Hc Hmode. induction fuel as [|fuel IH]; intros ListEnd x s s' Hs Hx Hrun.
  - discriminate.
  - destruct (chain_next m l x Hc Hx) as (o & y & Ho & Hfl & Hobj & Hy).
    rewrite <- Hs in Ho.
    destruct (chained_dispatch_turn_spec ListEnd x false s o Ho)
      as (s1 & Hturn & Hobjs & Hlog & _).
    cbn [chained_dispatch_loop] in Hrun. rewrite (bind_Ok _ _ _ _ _ Hturn) in Hrun.
    unfold turn_outcome in Hrun.
    rewrite (Hmode x o Hx ltac:(by rewrite <- Hs)) in Hrun.
    rewrite bool_decide_eq_false_2, andb_false_r in Hrun by discriminate.
    cbn [orb] in Hrun.
    destruct (isr_handled _) eqn:Eres.
    + rewrite andb_false_r, Hobj in Hrun.
      destruct (loop_handled_runs_on m l Hc Hmode fuel ListEnd y s1
                  ltac:(congruence) Hy) as (s2 & Hrun2 & _).
      rewrite Hrun2 in Hrun. discriminate.
    + cbn [negb] in Hrun. rewrite andb_true_r in Hrun.
      destruct (_ =? ListEnd).
      * injection Hrun as <-. exists [(x, false)]. split; [exact Hlog|].
        by constructor.
      * rewrite Hobj in Hrun.
        destruct (IH ListEnd y s1 s' ltac:(congruence) Hy Hrun)
          as (calls & Hcalls & Hall).
        exists (calls ++ [(x, false)]). split.
        -- rewrite Hcalls, Hlog, <- app_assoc. reflexivity.
        -- apply Forall_app. split; [exact Hall | by constructor].
Qed.

(** C7: on a chain of edge-triggered interrupt objects the handled flag,
    once set, is never cleared: from any member with the flag set the loop
    runs for as long as it is given fuel, whatever the service routines
    answer from then on; and the dispatch returns only if every call of a
    service routine made since it began answered FALSE. *)
Theorem chained_dispatch_never_returns_once_handled s l :
  chain P (Objects s) l ->
  Forall (fun x => mode_of (Objects s) x = Some Latched) l ->
  (forall fuel ListEnd x s0,
     Objects s0 = Objects s -> x ∈ l ->
     exists s', chained_dispatch_loop P fuel ListEnd x true s0 = Ok OutOfFuel s')
  /\ (forall fuel s',
        KiTimedChainedDispatch2ndLvl P fuel (hd 0 l) s = Ok Returned s' ->
        exists calls, IsrLog s' = calls ++ IsrLog s
                      /\ Forall (fun c => c.2 = false) calls).
Proof.
  intros Hc Hall.
  assert (Hmode : forall x o, x ∈ l -> Objects s !! x = Some o -> Mode o = Latched)
    by (intros x o; apply all_mode_elem, Hall).
  split.
  - intros fuel ListEnd x s0 Hs0 Hx.
    destruct (loop_handled_runs_on _ l Hc Hmode fuel ListEnd x s0 Hs0 Hx)
      as (s' & Hrun & _).
    by exists s'.
  - intros fuel s' Hrun.
    apply (loop_returned_unhandled _ l Hc Hmode fuel (entry_of P (hd 0 l))
             (hd 0 l) s s' eq_refl);
      [|exact Hrun].
    destruct Hc as (_ & _ & Hl).
    destruct l; [contradiction | apply elem_of_cons; by left].
Qed.

Lemma pass_unhandled h :
  valid_ptr h ->
  forall rest s fuel,
    rest <> [] ->
    fwd_seg P (Objects s) rest h ->
    Forall valid_ptr rest ->
    h ∉ tl rest ->
    (forall j x, rest !! j = Some x -> next_answer P s j x = Some false) ->
    (length rest <= fuel)%nat ->
    exists s',
      chained_dispatch_loop P fuel (entry_of P h) (hd 0 rest) false s
      = Ok Returned s'
      /\ IsrLog s' = rev (map (fun x => (x, false)) rest) ++ IsrLog s.
Proof.
  intros Hh. induction rest as [|x rest IH]; intros s fuel Hne Hf Hv Hnh Hisr Hfuel;
    [done|].
  destruct fuel as [|fuel]; [cbn in Hfuel; lia|].
  destruct Hf as [Hx Hf]. apply flink_of_Some in Hx as (o & Ho & Hfl).
  destruct (chained_dispatch_turn_spec (entry_of P h) x false s o Ho)
    as (s1 & Hturn & Hobjs & Hlog & _).
  cbn [chained_dispatch_loop hd]. rewrite (bind_Ok _ _ _ _ _ Hturn).
  pose proof (Hisr 0%nat x eq_refl) as H0.
  unfold next_answer in H0. rewrite Ho in H0. cbn in H0.
  rewrite Nat.add_0_r in H0. injection H0 as H0.
  rewrite H0 in Hlog.
  unfold turn_outcome. rewrite H0. cbn [orb andb negb]. rewrite andb_true_r.
  rewrite Hfl.
  destruct rest as [|y rest].
  - cbn [hd]. rewrite Z.eqb_refl. eexists. split; [reflexivity|].
    rewrite Hlog. reflexivity.
  - cbn [hd]. inversion Hv as [|? ? Hvx Hv']; subst.
    assert (valid_ptr y) as Hvy by (by inversion Hv').
    assert (y <> h) as Hyh.
    { intros ->. apply Hnh. cbn. apply elem_of_cons; by left. }
    assert ((entry_of P y =? entry_of P h) = false) as ->.
    { apply Z.eqb_neq. intros E. apply Hyh. by apply entry_of_inj. }
    rewrite object_of_entry_of by exact Hvy.
    destruct (IH s1 fuel) as (s' & Hrun & Hlog'); try done.
    + by rewrite Hobjs.
    + intros Hin. apply Hnh. cbn in *. apply elem_of_cons; by right.
    + intros j z Hz. specialize (Hisr (S j) z Hz).
      unfold next_answer in *. rewrite Hobjs, Hlog. cbn [length].
      by rewrite Nat.add_succ_r in Hisr.
    + cbn in Hfuel |- *. lia.
    + exists s'. split; [exact Hrun|].
      rewrite Hlog', Hlog. cbn [map rev]. by rewrite <- !app_assoc.
Qed.

(** C6, as the code has it: on a chain of edge-triggered objects none of
    which reports handled, the dispatch polls every member once, in chain
    order, and returns when the walk is back at its start; an
    edge-triggered walk goes round again only when the handled flag is set
    at the end of the list; and a level-triggered member that leaves the
    handled flag set ends the dispatch at once.  Nothing is stated about a
    pass over a level-triggered chain in which no member reports handled:
    the source asserts that the end of the list is not reached in that
    mode. *)
Theorem chained_dispatch_end_of_list s l :
  chain P (Objects s) l ->
  (Forall (fun x => mode_of (Objects s) x = Some Latched) l ->
   (forall j x, l !! j = Some x -> next_answer P s j x = Some false) ->
   forall fuel, (length l <= fuel)%nat ->
   exists s',
     KiTimedChainedDispatch2ndLvl P fuel (hd 0 l) s = Ok Returned s'
     /\ IsrLog s' = rev (map (fun x => (x, false)) l) ++ IsrLog s)
  /\ (forall x o Handled Result,
        Objects s !! x = Some o -> Mode o = Latched ->
        next_answer P s 0 x = Some Result -> Handled || Result = true ->
        Flink (InterruptListEntry o) = entry_of P (hd 0 l) ->
        exists s',
          chained_dispatch_turn P (entry_of P (hd 0 l)) x Handled s
          = Ok (Some (hd 0 l, true)) s')
  /\ (forall ListEnd x o Handled Result fuel,
        Objects s !! x = Some o -> Mode o = LevelSensitive ->
        next_answer P s 0 x = Some Result -> Handled || Result = true ->
        exists s',
          chained_dispatch_loop P (S fuel) ListEnd x Handled s = Ok Returned s'
          /\ IsrLog s' = (x, Result) :: IsrLog s).
Proof.
  intros Hc. split; [|split].
  - intros _ Hisr fuel Hfuel.
    destruct Hc as (Hnd & Hv & Hl). destruct l as [|h t]; [contradiction|].
    destruct Hl as [Hf _].
    unfold KiTimedChainedDispatch2ndLvl.
    apply (pass_unhandled h); try done.
    + by inversion Hv.
    + cbn. by inversion Hnd.
  - intros x o Handled Result Ho Hmode Hres Hset Hfl.
    destruct (chained_dispatch_turn_spec (entry_of P (hd 0 l)) x Handled s o Ho)
      as (s1 & Hturn & _).
    unfold next_answer in Hres. rewrite Ho in Hres. cbn in Hres.
    rewrite Nat.add_0_r in Hres. injection Hres as Hres.
    exists s1. rewrite Hturn. unfold turn_outcome.
    rewrite Hres, Hset, Hmode, Hfl.
    rewrite bool_decide_eq_false_2 by discriminate.
    cbn [andb negb]. rewrite andb_false_r.
    rewrite object_of_entry_of; [reflexivity|].
    destruct Hc as (_ & Hv & Hl). destruct l; [contradiction|]. by inversion Hv.
  - intros ListEnd x o Handled Result fuel Ho Hmode Hres Hset.
    destruct (chained_dispatch_turn_spec ListEnd x Handled s o Ho)
      as (s1 & Hturn & _ & Hlog & _).
    unfold next_answer in Hres. rewrite Ho in Hres. cbn in Hres.
    rewrite Nat.add_0_r in Hres. injection Hres as Hres.
    exists s1. cbn [chained_dispatch_loop]. rewrite (bind_Ok _ _ _ _ _ Hturn).
    unfold turn_outcome. rewrite Hres, Hset, Hmode.
    rewrite bool_decide_eq_true_2 by reflexivity. cbn [andb].
    split; [reflexivity|]. by rewrite Hlog, Hres.
Qed.

End Dispatch.

Ltac concrete_chain :=
  unfold chain; split;
  [ apply (bool_decide_unpack _); vm_compute; exact I
  | split;
    [ repeat constructor; unfold valid_ptr; lia
    | repeat split; vm_compute; reflexivity ] ].

(** Witness of C6: the three edge-triggered objects of the PC, none of
    which reports handled, are polled once each and the dispatch returns. *)
Lemma chained_dispatch_end_of_list_witness :
  exists s',
    KiTimedChainedDispatch2ndLvl (pc true 0 quiet_isr) 3 0x1000
      (pc_shared (pc true 0 quiet_isr) Latched) = Ok Returned s'
    /\ IsrLog s' = [(0x3000, false); (0x2000, false); (0x1000, false)].
Proof.
  destruct (chained_dispatch_end_of_list (pc true 0 quiet_isr)
              (pc_shared (pc true 0 quiet_isr) Latched)
              [0x1000; 0x2000; 0x3000] ltac:(concrete_chain)) as [H _].
  apply (H ltac:(repeat constructor)).
  - intros j x Hj.
    destruct j as [|[|[|j]]]; cbn in Hj; simplify_eq; vm_compute; reflexivity.
  - cbn. lia.
Defined.

(** Counterexample to C6 as stated: on the edge-triggered chain of the PC
    a dispatch with room for five turns returns after three, having called
    each service routine once with none reporting handled; the chain is not
    walked again. *)
Lemma chained_dispatch_restart_counterexample :
  (exists s',
     KiTimedChainedDispatch2ndLvl (pc true 0 quiet_isr) 5 0x1000
       (pc_shared (pc true 0 quiet_isr) Latched) = Ok Returned s'
     /\ IsrLog s' = [(0x3000, false); (0x2000, false); (0x1000, false)])
  /\ ~ restarts_until_handled (pc true 0 quiet_isr)
        (pc_shared (pc true 0 quiet_isr) Latched) 0x1000.
Proof.
  assert (Hrun := Ok_after
    (KiTimedChainedDispatch2ndLvl (pc true 0 quiet_isr) 5 0x1000)
    (pc_shared (pc true 0 quiet_isr) Latched) Returned).
  specialize (Hrun ltac:(vm_compute; reflexivity)).
  split.
  - eexists. split; [exact Hrun|]. vm_compute. reflexivity.
  - intros H.
    specialize (H 5%nat _ Hrun). vm_compute in H.
    repeat match goal with
           | H : Exists _ _ |- _ => inversion H; clear H; subst
           end; discriminate.
Qed.

(** Witness of C7: on the edge-triggered chain of the PC, with the handled
    flag set, a hundred turns of the loop do not end the dispatch. *)
Lemma chained_dispatch_never_returns_once_handled_witness :
  exists s',
    chained_dispatch_loop (pc true 0 quiet_isr) 100 (entry_of (pc true 0 quiet_isr) 0x1000)
      0x2000 true (pc_shared (pc true 0 quiet_isr) Latched) = Ok OutOfFuel s'.
Proof.
  destruct (chained_dispatch_never_returns_once_handled (pc true 0 quiet_isr)
              (pc_shared (pc true 0 quiet_isr) Latched)
              [0x1000; 0x2000; 0x3000] ltac:(concrete_chain)
              ltac:(repeat constructor)) as [H _].
  apply H; [reflexivity|].
  apply elem_of_cons; right. apply elem_of_cons; by left.
Defined.

(** Witness of X17: vector 0x41 of the PC once the three objects share it. *)
Lemma KiGetVectorInfo_classifies_witness :
  exists info,
    KiGetVectorInfo (pc true 0 quiet_isr) 0x41
      (pc_shared (pc true 0 quiet_isr) Latched)
    = Ok info (pc_shared (pc true 0 quiet_isr) Latched)
    /\ InfoType info = ChainConnect /\ InfoInterrupt info = 0x1000.
Proof.
  assert (Hocc : occupant_of (pc true 0 quiet_isr) 0x41
                   (installed_target (pc true 0 quiet_isr)
                      (pc_shared (pc true 0 quiet_isr) Latched) 0x41) = 0x1000)
    by (vm_compute; reflexivity).
  assert (HDA : DispatchAddress
                  <$> Objects (pc_shared (pc true 0 quiet_isr) Latched) !! 0x1000
                = Some 0x80542200) by (vm_compute; reflexivity).
  destruct (KiGetVectorInfo_classifies (pc true 0 quiet_isr)
              (pc_shared (pc true 0 quiet_isr) Latched) 0x41)
    as (info & Hrun & _ & _ & _ & _ & Hi & _ & Hcls).
  - reflexivity.
  - intros _. rewrite Hocc. apply (fmap_is_Some DispatchAddress).
    rewrite HDA. by eexists.
  - exists info. split; [exact Hrun|].
    destruct Hcls as (occ & Ho & Hty); [vm_compute; discriminate|].
    rewrite Hi, Hocc in Ho. rewrite Ho in HDA. injection HDA as HDA.
    split; [|by rewrite Hi].
    rewrite Hty. unfold classification. rewrite HDA. reflexivity.
Defined.

(** ** Chains of interrupt objects *)

Section ChainLemmas.
Context (P : platform).

Lemma fwd_seg_ext m m' l next :
  (forall x, x ∈ l -> flink_of m' x = flink_of m x) ->
  fwd_seg P m l next -> fwd_seg P m' l next.
Proof.
  induction l as [|a t IH]; intros Hext Hf; [exact I|].
  destruct Hf as [Ha Ht]. split.
  - rewrite Hext; [exact Ha | apply elem_of_cons; by left].
  - apply IH; [|exact Ht]. intros x Hx. apply Hext. apply elem_of_cons; by right.
Qed.

Lemma bwd_seg_ext m m' l prev :
  (forall x, x ∈ l -> blink_of m' x = blink_of m x) ->
  bwd_seg P m prev l -> bwd_seg P m' prev l.
Proof.
  revert prev. induction l as [|a t IH]; intros prev Hext Hb; [exact I|].
  destruct Hb as [Ha Ht]. split.
  - rewrite Hext; [exact Ha | apply elem_of_cons; by left].
  - apply IH; [|exact Ht]. intros x Hx. apply Hext. apply elem_of_cons; by right.
Qed.

Lemma hd_app_hd (l1 l2 : list Z) d : hd d (l1 ++ l2) = hd (hd d l2) l1.
Proof. by destruct l1. Qed.

Lemma last_cons_last (t : list Z) a d : List.last (a :: t) d = List.last t a.
Proof.
  revert a d. induction t as [|b t IH]; intros a d; [reflexivity|].
  change (List.last (b :: t) d = List.last (b :: t) a).
  rewrite !IH. reflexivity.
Qed.

Lemma fwd_seg_app m l1 l2 next :
  fwd_seg P m (l1 ++ l2) next <->
  fwd_seg P m l1 (hd next l2) /\ fwd_seg P m l2 next.
Proof.
  induction l1 as [|a t IH]; [cbn; tauto|].
  cbn [app fwd_seg]. rewrite IH, hd_app_hd. tauto.
Qed.

Lemma bwd_seg_app m l1 l2 prev :
  bwd_seg P m prev (l1 ++ l2) <->
  bwd_seg P m prev l1 /\ bwd_seg P m (List.last l1 prev) l2.
Proof.
  revert prev. induction l1 as [|a t IH]; intros prev; [cbn; tauto|].
  cbn [app bwd_seg]. rewrite IH, last_cons_last. tauto.
Qed.

Lemma last_snoc (l : list Z) a d : List.last (l ++ [a]) d = a.
Proof. apply last_last. Qed.

(** Appending [N] at the tail. *)
Lemma chain_insert_tail m m' h t N :
  chain P m (h :: t) -> N ∉ h :: t -> valid_ptr N ->
  (forall x, flink_of m' x =
             if decide (x = List.last t h) then Some (entry_of P N)
             else if decide (x = N) then Some (entry_of P h)
             else flink_of m x) ->
  (forall x, blink_of m' x =
             if decide (x = h) then Some (entry_of P N)
             else if decide (x = N) then Some (entry_of P (List.last t h))
             else blink_of m x) ->
  chain P m' ((h :: t) ++ [N]).
Proof.
  intros (Hnd & Hv & Hf & Hb) HN HvN HF HB.
  assert (Hsplit : exists pre, h :: t = pre ++ [List.last t h]).
  { exists (removelast (h :: t)).
    rewrite <- (last_cons_last t h 0). apply app_removelast_last. discriminate. }
  destruct Hsplit as [pre Hpre].
  set (z := List.last t h) in *.
  split; [|split].
  - apply NoDup_app. repeat split; [exact Hnd| |apply NoDup_singleton].
    intros x Hx Hx'. apply list_elem_of_singleton in Hx'. subst. contradiction.
  - apply Forall_app. split; [exact Hv | by constructor].
  - cbn [app]. split.
    + change (fwd_seg P m' ((h :: t) ++ [N]) h).
      rewrite Hpre, <- app_assoc. rewrite Hpre in Hf, Hnd, HN.
      apply fwd_seg_app in Hf as [Hf1 Hf2].
      apply fwd_seg_app. split.
      * cbn [hd app] in *. eapply fwd_seg_ext; [|exact Hf1].
        intros x Hx. rewrite HF.
        apply NoDup_app in Hnd as (_ & Hdis & _).
        destruct (decide (x = z)) as [->|_].
        { exfalso. apply (Hdis z Hx). apply list_elem_of_singleton. reflexivity. }
        destruct (decide (x = N)) as [->|_]; [|reflexivity].
        exfalso. apply HN. apply elem_of_app. by left.
      * cbn. rewrite !HF.
        rewrite decide_True by reflexivity.
        destruct (decide (N = z)) as [E|_].
        { exfalso. apply HN. rewrite E. apply elem_of_app. right.
          apply list_elem_of_singleton. reflexivity. }
        rewrite decide_True by reflexivity. done.
    + rewrite last_snoc. destruct Hb as [Hbh Hbt]. split.
      * rewrite HB. by rewrite decide_True.
      * apply bwd_seg_app. split.
        -- eapply bwd_seg_ext; [|exact Hbt].
           intros x Hx. rewrite HB.
           destruct (decide (x = h)) as [->|_].
           { exfalso. by inversion Hnd. }
           destruct (decide (x = N)) as [->|_]; [|reflexivity].
           exfalso. apply HN. apply elem_of_cons. by right.
        -- cbn. rewrite HB.
           destruct (decide (N = h)) as [->|_].
           { exfalso. apply HN. apply elem_of_cons. by left. }
           rewrite decide_True by reflexivity. done.
Qed.

Lemma chain_alt m l :
  chain P m l <->
  NoDup l /\ Forall valid_ptr l /\ l <> []
  /\ fwd_seg P m l (hd 0 l) /\ bwd_seg P m (List.last l 0) l.
Proof.
  unfold chain. destruct l as [|h t].
  - split; [intros (_ & _ & []) | intros (_ & _ & H & _); by destruct H].
  - rewrite last_cons_last. cbn [hd]. split.
    + intros (H1 & H2 & H3 & H4).
      split; [done|]. split; [done|]. split; [discriminate|]. split; done.
    + intros (H1 & H2 & _ & H3 & H4).
      split; [done|]. split; [done|]. split; done.
Qed.

Lemma last_app_cons (l1 l2 : list Z) x d :
  List.last (l1 ++ x :: l2) d = List.last l2 x.
Proof.
  revert d. induction l1 as [|a t IH]; intros d; [apply last_cons_last|].
  cbn [app]. rewrite last_cons_last. apply IH.
Qed.

Lemma snoc_last (l : list Z) d : l <> [] -> exists pre, l = pre ++ [List.last l d].
Proof. intros H. exists (removelast l). by apply app_removelast_last. Qed.

Lemma NoDup_snoc_ne (pre : list Z) p x : NoDup (pre ++ [p]) -> x ∈ pre -> x <> p.
Proof.
  intros Hnd Hx ->. apply NoDup_app in Hnd as (_ & Hdis & _).
  apply (Hdis p Hx). apply list_elem_of_singleton. reflexivity.
Qed.

(** The links of a member of a chain. *)
Lemma chain_links m l1 X l2 :
  chain P m (l1 ++ X :: l2) ->
  flink_of m X = Some (entry_of P (hd (hd X l1) l2))
  /\ blink_of m X = Some (entry_of P (List.last l1 (List.last l2 X))).
Proof.
  intros Hc. apply chain_alt in Hc as (_ & _ & _ & Hf & Hb).
  rewrite hd_app_hd in Hf. cbn [hd] in Hf.
  rewrite last_app_cons in Hb.
  apply fwd_seg_app in Hf as [_ [Hf _]].
  apply bwd_seg_app in Hb as [_ [Hb _]].
  split; assumption.
Qed.

(** Unlinking [X]. *)
Lemma chain_remove m m' l1 X l2 :
  chain P m (l1 ++ X :: l2) -> l1 ++ l2 <> [] ->
  (forall x, flink_of m' x =
             if decide (x = List.last l1 (List.last l2 X))
             then Some (entry_of P (hd (hd X l1) l2))
             else flink_of m x) ->
  (forall x, blink_of m' x =
             if decide (x = hd (hd X l1) l2)
             then Some (entry_of P (List.last l1 (List.last l2 X)))
             else blink_of m x) ->
  chain P m' (l1 ++ l2).
Proof.
  intros Hc Hne HF HB.
  apply chain_alt in Hc as (Hnd & Hv & _ & Hf & Hb).
  rewrite hd_app_hd in Hf. cbn [hd] in Hf. rewrite last_app_cons in Hb.
  apply fwd_seg_app in Hf as [Hf1 [HfX Hf2]]. cbn [hd] in Hf1.
  apply bwd_seg_app in Hb as [Hb1 [HbX Hb2]].
  assert (Hnd' : NoDup (l1 ++ l2)).
  { apply NoDup_app in Hnd as (H1 & H2 & H3). apply NoDup_app.
    repeat split; [done| |by inversion H3].
    intros x Hx Hx'. apply (H2 x Hx). apply elem_of_cons. by right. }
  assert (HX1 : X ∉ l1).
  { intros Hx. apply NoDup_app in Hnd as (_ & H2 & _). apply (H2 X Hx).
    apply elem_of_cons. by left. }
  assert (HX2 : X ∉ l2).
  { apply NoDup_app in Hnd as (_ & _ & H3). by inversion H3. }
  assert (Hdis : forall x, x ∈ l1 -> x ∉ l2).
  { intros x Hx Hx'. apply NoDup_app in Hnd' as (_ & H2 & _). by apply (H2 x). }
  apply chain_alt. split; [exact Hnd'|]. split.
  { apply Forall_app in Hv as [Hv1 Hv2]. apply Forall_app. split; [done|].
    by inversion Hv2. }
  split; [exact Hne|]. split.
  - (* forward links *)
    rewrite hd_app_hd. apply fwd_seg_app.
    destruct l1 as [|h r].
    + cbn [hd List.last app] in *. split; [exact I|].
      destruct (snoc_last l2 X Hne) as [pre Hpre].
      revert Hpre HF. generalize (List.last l2 X). intros p Hpre HF.
      subst l2. rewrite !hd_app_hd in *. cbn [hd] in *.
      apply fwd_seg_app in Hf2 as [Hf2 _]. apply fwd_seg_app. split.
      * eapply fwd_seg_ext; [|exact Hf2]. intros x Hx. rewrite HF.
        rewrite decide_False; [reflexivity|]. by eapply NoDup_snoc_ne.
      * cbn. rewrite HF. rewrite decide_True by reflexivity. done.
    + cbn [hd] in *.
      destruct (snoc_last (h :: r) (List.last l2 X) ltac:(discriminate))
        as [pre Hpre].
      revert Hpre HF. generalize (List.last (h :: r) (List.last l2 X)).
      intros p Hpre HF.
      assert (Hp : p ∈ h :: r).
      { rewrite Hpre. apply elem_of_app. right.
        apply list_elem_of_singleton. reflexivity. }
      split.
      * rewrite Hpre in Hf1 |- *.
        apply fwd_seg_app in Hf1 as [Hf1 _]. apply fwd_seg_app. split.
        -- eapply fwd_seg_ext; [|exact Hf1]. intros x Hx. rewrite HF.
           rewrite decide_False; [reflexivity|].
           apply NoDup_app in Hnd' as (Hnd1 & _). rewrite Hpre in Hnd1.
           by eapply NoDup_snoc_ne.
        -- cbn. rewrite HF. rewrite decide_True by reflexivity. done.
      * eapply fwd_seg_ext; [|exact Hf2]. intros x Hx. rewrite HF.
        rewrite decide_False; [reflexivity|].
        intros ->. by apply (Hdis p).
  - (* backward links *)
    apply bwd_seg_app.
    destruct l2 as [|n r].
    + rewrite app_nil_r in *. cbn [hd List.last] in *.
      destruct l1 as [|h r1]; [done|]. cbn [hd] in *.
      split; [|exact I].
      destruct Hb1 as [Hbh Hbr]. split.
      * rewrite HB. rewrite decide_True by reflexivity.
        by rewrite !last_cons_last.
      * eapply bwd_seg_ext; [|exact Hbr]. intros x Hx. rewrite HB.
        rewrite decide_False; [reflexivity|]. intros ->. by inversion Hnd'.
    + cbn [hd] in *.
      assert (HZ : List.last (l1 ++ n :: r) 0 = List.last (n :: r) X).
      { rewrite last_app_cons. symmetry. apply last_cons_last. }
      rewrite HZ. split.
      * eapply bwd_seg_ext; [|exact Hb1]. intros x Hx. rewrite HB.
        rewrite decide_False; [reflexivity|]. intros ->.
        apply (Hdis n Hx). apply elem_of_cons. by left.
      * destruct Hb2 as [Hbn Hbr]. split.
        -- rewrite HB. rewrite decide_True by reflexivity. reflexivity.
        -- eapply bwd_seg_ext; [|exact Hbr]. intros x Hx. rewrite HB.
           rewrite decide_False; [reflexivity|]. intros ->.
           apply NoDup_app in Hnd' as (_ & _ & H3). by inversion H3.
Qed.

Lemma flink_of_insert m a o x :
  flink_of (<[a := o]> m) x =
  if decide (x = a) then Some (Flink (InterruptListEntry o)) else flink_of m x.
Proof.
  unfold flink_of. rewrite lookup_insert.
  destruct (decide (a = x)), (decide (x = a)); try congruence; reflexivity.
Qed.

Lemma blink_of_insert m a o x :
  blink_of (<[a := o]> m) x =
  if decide (x = a) then Some (Blink (InterruptListEntry o)) else blink_of m x.
Proof.
  unfold blink_of. rewrite lookup_insert.
  destruct (decide (a = x)), (decide (x = a)); try congruence; reflexivity.
Qed.

Lemma links_only_refl m : links_only m m.
Proof.
  intros x. destruct (m !! x) as [o|] eqn:E; [|reflexivity].
  exists (InterruptListEntry o). by destruct o.
Qed.

Lemma links_only_insert m m' a o o' e :
  links_only m m' -> m' !! a = Some o -> o' = set_InterruptListEntry e o ->
  links_only m (<[a := o']> m').
Proof.
  intros H Ha -> x. specialize (H x).
  destruct (decide (a = x)) as [->|Hne].
  - rewrite lookup_insert_eq. destruct (m !! x) as [o0|].
    + destruct H as [e0 H]. rewrite H in Ha. injection Ha as <-. by exists e.
    + congruence.
  - rewrite lookup_insert_ne by done. exact H.
Qed.

Lemma chain_mapped m l x :
  chain P m l -> x ∈ l -> valid_ptr x /\ exists o, m !! x = Some o.
Proof.
  intros Hc Hx. split.
  - destruct Hc as (_ & Hv & _). rewrite Forall_forall in Hv. by apply Hv.
  - destruct (chain_next P m l x Hc Hx) as (o & _ & Ho & _). by exists o.
Qed.

(** RemoveEntryList on an entry whose neighbours are the entries of [p]
    and [n]. *)
Lemma RemoveEntryList_spec s X oX p n :
  valid_ptr X -> valid_ptr p -> valid_ptr n ->
  Objects s !! X = Some oX ->
  Flink (InterruptListEntry oX) = entry_of P n ->
  Blink (InterruptListEntry oX) = entry_of P p ->
  is_Some (Objects s !! p) -> is_Some (Objects s !! n) ->
  exists m',
    RemoveEntryList P (entry_of P X) s = Ok tt (set_Objects (fun _ => m') s)
    /\ links_only (Objects s) m'
    /\ (forall x, flink_of m' x =
                  if decide (x = p) then Some (entry_of P n)
                  else flink_of (Objects s) x)
    /\ (forall x, blink_of m' x =
                  if decide (x = n) then Some (entry_of P p)
                  else blink_of (Objects s) x).
Proof.
  intros HvX Hvp Hvn HX HF HB [op Hp] [on Hn].
  destruct s as [objs idt flat hal log lim us tinit tsc isrt calls].
  cbn [Objects] in *.
  unfold RemoveEntryList, entry_load, entry_store.
  rewrite !object_of_entry_of by assumption.
  repeat kstep. rewrite HF, HB. rewrite !object_of_entry_of by assumption.
  destruct (decide (p = n)) as [->|Hpn].
  - repeat kstep. eexists. split; [reflexivity|]. split; [|split].
    + eapply (links_only_insert _ _ _ on); [apply links_only_refl | exact Hn | reflexivity].
    + intros x. rewrite flink_of_insert. cbn. reflexivity.
    + intros x. rewrite blink_of_insert. cbn. reflexivity.
  - repeat kstep. eexists. split; [reflexivity|]. split; [|split].
    + eapply links_only_insert; [|by rewrite lookup_insert_ne|reflexivity].
      eapply links_only_insert; [apply links_only_refl | exact Hp | reflexivity].
    + intros x. rewrite !flink_of_insert. cbn.
      destruct (decide (x = n)) as [->|_].
      * rewrite decide_False by congruence.
        unfold flink_of. by rewrite Hn.
      * reflexivity.
    + intros x. rewrite !blink_of_insert. cbn.
      destruct (decide (x = n)) as [->|_]; [reflexivity|].
      destruct (decide (x = p)) as [->|_]; [|reflexivity].
      unfold blink_of. by rewrite Hp.
Qed.

(** InsertTailList of the entry of [N] into the list whose head entry is
    that of [h] and whose last entry is that of [z]. *)
Lemma InsertTailList_spec s h oh z N :
  valid_ptr h -> valid_ptr z -> valid_ptr N ->
  N <> h -> N <> z ->
  Objects s !! h = Some oh ->
  Blink (InterruptListEntry oh) = entry_of P z ->
  is_Some (Objects s !! z) -> is_Some (Objects s !! N) ->
  exists m',
    InsertTailList P (entry_of P h) (entry_of P N) s
    = Ok tt (set_Objects (fun _ => m') s)
    /\ links_only (Objects s) m'
    /\ (forall x, flink_of m' x =
                  if decide (x = z) then Some (entry_of P N)
                  else if decide (x = N) then Some (entry_of P h)
                  else flink_of (Objects s) x)
    /\ (forall x, blink_of m' x =
                  if decide (x = h) then Some (entry_of P N)
                  else if decide (x = N) then Some (entry_of P z)
                  else blink_of (Objects s) x).
Proof.
  intros Hvh Hvz HvN HNh HNz Hh HB [oz Hz] [oN HN].
  destruct s as [objs idt flat hal log lim us tinit tsc isrt calls].
  cbn [Objects] in *.
  unfold InsertTailList, entry_load, entry_store.
  rewrite !object_of_entry_of by assumption.
  repeat kstep. rewrite HB. rewrite !object_of_entry_of by assumption.
  destruct (decide (z = h)) as [->|Hzh].
  - repeat kstep. eexists. split; [reflexivity|]. split; [|split].
    + eapply links_only_insert; [|by rewrite lookup_insert_ne|reflexivity].
      eapply (links_only_insert _ _ _ oN); [apply links_only_refl | exact HN | reflexivity].
    + intros x. rewrite !flink_of_insert. cbn.
      destruct (decide (x = h)) as [->|_]; reflexivity.
    + intros x. rewrite !blink_of_insert. cbn.
      destruct (decide (x = h)) as [->|_]; reflexivity.
  - repeat kstep. eexists. split; [reflexivity|]. split; [|split].
    + eapply links_only_insert; [|by rewrite !lookup_insert_ne|reflexivity].
      eapply links_only_insert; [|by rewrite lookup_insert_ne|reflexivity].
      eapply (links_only_insert _ _ _ oN); [apply links_only_refl | exact HN | reflexivity].
    + intros x. rewrite !flink_of_insert. cbn.
      destruct (decide (x = h)) as [->|_].
      * rewrite !decide_False by congruence. unfold flink_of. by rewrite Hh.
      * reflexivity.
    + intros x. rewrite !blink_of_insert. cbn.
      destruct (decide (x = h)) as [->|_]; [reflexivity|].
      destruct (decide (x = z)) as [->|_]; [|reflexivity].
      rewrite decide_False by congruence. unfold blink_of. by rewrite Hz.
Qed.

Lemma InitializeListHead_spec s N oN :
  valid_ptr N -> Objects s !! N = Some oN ->
  InitializeListHead P (entry_of P N) s
  = Ok tt (set_Objects
             (insert N (set_InterruptListEntry
                          {| Flink := entry_of P N; Blink := entry_of P N |} oN))
             s).
Proof.
  intros HvN HN.
  destruct s as [objs idt flat hal log lim us tinit tsc isrt calls].
  cbn [Objects] in *.
  unfold InitializeListHead, entry_store.
  rewrite !object_of_entry_of by assumption.
  repeat kstep. reflexivity.
Qed.

Lemma chain_ext m m' l :
  (forall x, flink_of m' x = flink_of m x) ->
  (forall x, blink_of m' x = blink_of m x) ->
  chain P m l -> chain P m' l.
Proof.
  intros HF HB (Hnd & Hv & Hl). split; [done|]. split; [done|].
  destruct l as [|h t]; [done|]. destruct Hl as [Hf Hb]. split.
  - eapply fwd_seg_ext; [|exact Hf]. intros; apply HF.
  - eapply bwd_seg_ext; [|exact Hb]. intros; apply HB.
Qed.

Lemma flink_of_insert_same m a o o' x :
  m !! a = Some o -> InterruptListEntry o' = InterruptListEntry o ->
  flink_of (<[a := o']> m) x = flink_of m x.
Proof.
  intros Ha He. rewrite flink_of_insert.
  destruct (decide (x = a)) as [->|_]; [|reflexivity].
  unfold flink_of. by rewrite Ha, He.
Qed.

Lemma blink_of_insert_same m a o o' x :
  m !! a = Some o -> InterruptListEntry o' = InterruptListEntry o ->
  blink_of (<[a := o']> m) x = blink_of m x.
Proof.
  intros Ha He. rewrite blink_of_insert.
  destruct (decide (x = a)) as [->|_]; [|reflexivity].
  unfold blink_of. by rewrite Ha, He.
Qed.

Lemma links_only_fields m m' x o :
  links_only m m' -> m !! x = Some o ->
  exists o', m' !! x = Some o'
             /\ registration o' = registration o
             /\ Connected o' = Connected o
             /\ DispatchAddress o' = DispatchAddress o.
Proof.
  intros H Hx. specialize (H x). rewrite Hx in H. destruct H as [e He].
  eexists. split; [exact He|]. done.
Qed.

Lemma links_only_unchanged m m' x :
  links_only m m' ->
  flink_of m' x = flink_of m x -> blink_of m' x = blink_of m x ->
  m' !! x = m !! x.
Proof.
  intros H HF HB. specialize (H x). unfold flink_of, blink_of in *.
  destruct (m !! x) as [o|]; [|exact H].
  destruct H as [e He]. rewrite He in *. cbn in HF, HB.
  injection HF as HF. injection HB as HB.
  f_equal. destruct o as [? ? [f b] ? ? ? ? ? ? ? ? ? ? ? ? ? ? ? ?], e as [f' b'].
  cbn in *. by subst.
Qed.

End ChainLemmas.

(** ** The vector binder on the IDT *)

Section Binder.
Context (P : platform).

Lemma unexpected_stub_direct v :
  vector_shape P v = 0 ->
  unexpected_stub P v =
  wrap32 (KiStartUnexpectedRange P
          + (HalVectorToIDTEntry P v mod 256 - PRIMARY_VECTOR_BASE P)
            * KiUnexpectedEntrySize P).
Proof. intros H. unfold unexpected_stub. by rewrite H. Qed.

Lemma classification_direct v o :
  vector_shape P v = 0 ->
  classification P v o =
  if DispatchAddress o =? KiChainedDispatch P then ChainConnect
  else if (DispatchAddress o =? KiInterruptDispatch P)
          || (DispatchAddress o =? KiFloatingDispatch P) then NormalConnect
  else UnknownConnect.
Proof.
  intros H. unfold classification, chained_entry, normal_entry, floating_entry.
  by rewrite H.
Qed.

Lemma KiGetVectorInfo_direct_free s v :
  vector_shape P v = 0 ->
  IDT s (HalVectorToIDTEntry P v) = unexpected_stub P v ->
  KiGetVectorInfo P v s
  = Ok (direct_info P v (IDT s (HalVectorToIDTEntry P v)) NoConnect) s.
Proof.
  intros Hshape Hfree. unfold KiGetVectorInfo, direct_info.
  rewrite (unexpected_stub_direct v Hshape) in *.
  unfold vector_shape in Hshape.
  destruct (HalSystemVectorDispatchEntry P v) as [[ty fl] nd].
  cbn [fst snd] in Hshape. subst ty. cbv beta iota.
  unfold KiReturnHandlerAddressFromIDT.
  rewrite bind_assoc, bind_gets, bind_ret. cbv beta iota.
  cbn [NoDispatch InfoInterrupt ChainedDispatch InterruptDispatch FloatingDispatch].
  rewrite Hfree, Z.eqb_refl. reflexivity.
Qed.

Lemma KiGetVectorInfo_direct_occupied s v o :
  vector_shape P v = 0 ->
  IDT s (HalVectorToIDTEntry P v) <> unexpected_stub P v ->
  Objects s !! CONTAINING_RECORD (IDT s (HalVectorToIDTEntry P v))
                 (off_DispatchCode P) = Some o ->
  KiGetVectorInfo P v s
  = Ok (direct_info P v (IDT s (HalVectorToIDTEntry P v))
          (classification P v o)) s.
Proof.
  intros Hshape Hocc Ho. unfold KiGetVectorInfo, direct_info.
  rewrite (classification_direct v o Hshape).
  rewrite (unexpected_stub_direct v Hshape) in *.
  unfold vector_shape in Hshape.
  destruct (HalSystemVectorDispatchEntry P v) as [[ty fl] nd].
  cbn [fst snd] in Hshape. subst ty. cbv beta iota.
  unfold KiReturnHandlerAddressFromIDT.
  rewrite bind_assoc, bind_gets, bind_ret. cbv beta iota.
  cbn [NoDispatch InfoInterrupt ChainedDispatch InterruptDispatch FloatingDispatch].
  apply Z.eqb_neq in Hocc. rewrite Hocc.
  erewrite bind_load_DispatchAddress by exact Ho.
  destruct (DispatchAddress o =? KiChainedDispatch P); [reflexivity|].
  destruct ((DispatchAddress o =? KiInterruptDispatch P)
            || (DispatchAddress o =? KiFloatingDispatch P)); reflexivity.
Qed.

(** The inspector on an inspectable vector of the IDT: it returns, the
    machine is unchanged, and the entry points are those of the IDT. *)
Lemma KiGetVectorInfo_direct s v :
  vector_shape P v = 0 -> inspectable P s v ->
  exists T, KiGetVectorInfo P v s
            = Ok (direct_info P v (IDT s (HalVectorToIDTEntry P v)) T) s.
Proof.
  intros Hshape Hins.
  destruct (decide (IDT s (HalVectorToIDTEntry P v) = unexpected_stub P v))
    as [Hfree|Hocc].
  - eexists. by apply KiGetVectorInfo_direct_free.
  - destruct (Hins Hocc) as [o Ho]. eexists.
    by apply KiGetVectorInfo_direct_occupied.
Qed.

Lemma binder_none s p o :
  Objects s !! p = Some o ->
  vector_shape P (Vector o) = 0 -> inspectable P s (Vector o) ->
  KiConnectVectorAndInterruptObject P p NoConnect s
  = Ok tt (set_IDT (idt_write P (Vector o) (unexpected_stub P (Vector o))) s).
Proof.
  intros Ho Hshape Hins.
  destruct (KiGetVectorInfo_direct s (Vector o) Hshape Hins) as [T HT].
  unfold KiConnectVectorAndInterruptObject.
  erewrite bind_load by exact Ho.
  rewrite (bind_Ok _ _ _ _ _ HT).
  rewrite decide_True by reflexivity. rewrite bind_ret.
  cbn [FlatDispatch direct_info NoDispatch]. rewrite Z.eqb_refl.
  erewrite bind_load by exact Ho. reflexivity.
Qed.

Lemma binder_connect s p o T :
  T <> NoConnect ->
  Objects s !! p = Some o ->
  vector_shape P (Vector o) = 0 -> inspectable P s (Vector o) ->
  KiConnectVectorAndInterruptObject P p T s
  = Ok tt (set_IDT (idt_write P (Vector o) (ptr_add p (off_DispatchCode P)))
             (set_Objects (insert p (rebound P p (dispatch_entry P T o) o)) s)).
Proof.
  intros HT0 Ho Hshape Hins.
  destruct (KiGetVectorInfo_direct s (Vector o) Hshape Hins) as [T' HT].
  unfold KiConnectVectorAndInterruptObject.
  erewrite bind_load by exact Ho.
  rewrite (bind_Ok _ _ _ _ _ HT).
  rewrite decide_False by exact HT0.
  cbn [FlatDispatch direct_info NoDispatch InterruptDispatch FloatingDispatch
       ChainedDispatch].
  rewrite Z.eqb_refl.
  destruct s as [objs idt flat hal log lim us tinit tsc isrt calls].
  cbn [Objects] in Ho.
  repeat kstep. reflexivity.
Qed.

End Binder.

(** ** Connecting and disconnecting *)

Section Transitions.
Context (P : platform).
Hypothesis entries_differ : KiInterruptDispatch P <> KiChainedDispatch P.

Lemma connectable_guard o :
  connectable P o ->
  (HIGH_LEVEL P <? Irql o) || (KeNumberProcessors P <=? Number o)
  || (SynchronizeIrql o <? Irql o) || FloatingSave o = false.
Proof.
  intros (H1 & H2 & H3 & H4). rewrite H4.
  rewrite !orb_false_iff, !Z.ltb_ge, Z.leb_gt. auto.
Qed.

Lemma connect_connected s N n :
  Objects s !! N = Some n -> connectable P n -> Connected n = true ->
  KeConnectInterrupt P N s = Ok false (set_KernelLog (pinned (Number n)) s).
Proof.
  intros Hn Hc Hconn. unfold KeConnectInterrupt.
  repeat (erewrite bind_load by exact Hn).
  rewrite (connectable_guard n Hc). cbn [negb].
  destruct s as [objs idt flat hal log lim us tinit tsc isrt calls].
  cbn [Objects] in Hn.
  repeat kstep. rewrite Hconn. cbn [negb]. repeat kstep. reflexivity.
Qed.

Lemma disconnect_unconnected s N n :
  Objects s !! N = Some n -> Connected n = false ->
  KeDisconnectInterrupt P N s = Ok false (set_KernelLog (pinned (Number n)) s).
Proof.
  intros Hn Hconn. unfold KeDisconnectInterrupt.
  destruct s as [objs idt flat hal log lim us tinit tsc isrt calls].
  cbn [Objects] in Hn.
  repeat kstep. rewrite Hconn. repeat kstep. reflexivity.
Qed.

Lemma vector_held_ext s s' v l :
  Objects s' = Objects s -> IDT s' = IDT s ->
  vector_held P s v l -> vector_held P s' v l.
Proof.
  intros Ho Hi (H1 & H2 & H3 & H4 & H5).
  unfold vector_held, member_of in *. rewrite Ho, Hi. done.
Qed.

Lemma vector_held_head s v h t :
  vector_held P s v (h :: t) ->
  valid_ptr h
  /\ IDT s (HalVectorToIDTEntry P v) = ptr_add h (off_DispatchCode P)
  /\ ptr_add h (off_DispatchCode P) <> unexpected_stub P v
  /\ exists o, Objects s !! h = Some o
               /\ Vector o = v /\ Connected o = true /\ FloatingSave o = false
               /\ DispatchAddress o = match t with
                                      | [] => KiInterruptDispatch P
                                      | _ => KiChainedDispatch P
                                      end.
Proof.
  intros (Hshape & Hc & Hidt & Hmem & Hda). cbn [hd] in *.
  destruct Hc as (_ & Hv & _).
  inversion Hv as [|? ? Hvh _]; subst. inversion Hmem as [|? ? Hh _]; subst.
  destruct Hh as (Hstub & o & Ho & Hvec & Hconn & Hfs).
  split; [exact Hvh|]. split; [exact Hidt|]. split; [exact Hstub|].
  exists o. split; [exact Ho|]. split; [exact Hvec|]. split; [exact Hconn|].
  split; [exact Hfs|].
  rewrite Ho in Hda. cbn in Hda. injection Hda as ->. by destruct t.
Qed.

Lemma vector_held_inspect s v h t :
  vector_held P s v (h :: t) ->
  KiGetVectorInfo P v s
  = Ok (direct_info P v (ptr_add h (off_DispatchCode P))
          (match t with [] => NormalConnect | _ => ChainConnect end)) s
  /\ CONTAINING_RECORD (ptr_add h (off_DispatchCode P)) (off_DispatchCode P) = h.
Proof.
  intros Hheld.
  destruct (vector_held_head s v h t Hheld)
    as (Hvh & Hidt & Hstub & o & Ho & Hvec & Hconn & Hfs & Hda).
  pose proof (CONTAINING_RECORD_ptr_add h (off_DispatchCode P) Hvh) as Hrec.
  split; [|exact Hrec].
  destruct Hheld as (Hshape & _).
  rewrite <- Hidt.
  rewrite (KiGetVectorInfo_direct_occupied P s v o Hshape).
  - f_equal. f_equal. rewrite (classification_direct P v o Hshape), Hda.
    destruct t.
    + apply Z.eqb_neq in entries_differ. rewrite entries_differ.
      by rewrite Z.eqb_refl.
    + by rewrite Z.eqb_refl.
  - by rewrite Hidt.
  - by rewrite Hidt, Hrec.
Qed.

Lemma idt_write_same v a idt :
  idt_write P v a idt (HalVectorToIDTEntry P v) = wrap32 a.
Proof. unfold idt_write. by rewrite Z.eqb_refl. Qed.

Lemma idt_write_other v a idt i :
  i <> HalVectorToIDTEntry P v -> idt_write P v a idt i = idt i.
Proof. intros H. unfold idt_write. apply Z.eqb_neq in H. by rewrite H. Qed.

Lemma wrap32_ptr_add p d : wrap32 (ptr_add p d) = ptr_add p d.
Proof. apply wrap32_idem. Qed.

Lemma unexpected_stub_wrapped v :
  vector_shape P v = 0 -> wrap32 (unexpected_stub P v) = unexpected_stub P v.
Proof.
  intros H. rewrite (unexpected_stub_direct P v H). apply wrap32_idem.
Qed.

(** Disconnecting the sole owner of a vector. *)
Lemma disconnect_exclusive s v X :
  vector_held P s v [X] ->
  exists s' x,
    Objects s !! X = Some x
    /\ KeDisconnectInterrupt P X s = Ok true s'
    /\ vector_free P s' v
    /\ Objects s' = <[X := set_Connected false x]> (Objects s)
    /\ HalLines s' = HalDisable v (Irql x) :: HalLines s
    /\ preserves P v [X] s s'.
Proof.
  intros Hheld.
  destruct (vector_held_inspect s v X [] Hheld) as [_ Hrec].
  destruct (vector_held_head s v X [] Hheld)
    as (HvX & Hidt & Hstub & x & Hx & Hvec & Hconn & Hfs & Hda).
  pose proof Hheld as (Hshape & _).
  destruct s as [objs idt flat hal log lim us tinit tsc isrt calls].
  cbn [Objects IDT HalLines] in *.
  eexists. exists x. split; [exact Hx|]. split; [|split; [|split; [|split]]].
  - unfold KeDisconnectInterrupt.
    repeat kstep. rewrite Hconn. repeat kstep.
    rewrite Hvec.
    match goal with
    | |- context [bind (KiGetVectorInfo P v) _ ?st] =>
        destruct (vector_held_inspect st v X [])
          as [Hinfo' _];
        [ eapply vector_held_ext; [| |exact Hheld]; reflexivity
        | rewrite (bind_Ok _ _ _ _ _ Hinfo') ]
    end.
    cbn [InfoType direct_info]. rewrite decide_False by discriminate.
    repeat kstep. unfold HalDisableSystemInterrupt. repeat kstep.
    rewrite Hvec.
    match goal with
    | |- context [bind (KiConnectVectorAndInterruptObject P X NoConnect) _ ?st] =>
        assert (Hb : KiConnectVectorAndInterruptObject P X NoConnect st
                     = Ok tt (set_IDT (idt_write P (Vector x)
                                         (unexpected_stub P (Vector x))) st))
    end.
    { apply binder_none; [exact Hx | by rewrite Hvec |].
      rewrite Hvec. intros _. cbn [IDT Objects]. rewrite Hidt, Hrec. by exists x. }
    rewrite (bind_Ok _ _ _ _ _ Hb). rewrite Hvec.
    repeat kstep. reflexivity.
  - split; [exact Hshape|]. proj_simpl.
    rewrite idt_write_same. by apply unexpected_stub_wrapped.
  - reflexivity.
  - reflexivity.
  - split; [|split; [|split]].
    + intros y Hy. proj_simpl. rewrite lookup_insert_ne; [reflexivity|].
      intros ->. apply Hy. apply elem_of_cons. by left.
    + intros y o Hy. cbn [Objects] in Hy. proj_simpl.
      destruct (decide (X = y)) as [->|Hne].
      * rewrite lookup_insert_eq. rewrite Hx in Hy. injection Hy as <-.
        by eexists.
      * rewrite lookup_insert_ne by done. by eexists.
    + intros i Hi. proj_simpl. by apply idt_write_other.
    + reflexivity.
Qed.

Lemma preserves_trans v S s1 s2 s3 :
  preserves P v S s1 s2 -> preserves P v S s2 s3 -> preserves P v S s1 s3.
Proof.
  intros (A1 & A2 & A3 & A4) (B1 & B2 & B3 & B4). split; [|split; [|split]].
  - intros x Hx. rewrite B1, A1; done.
  - intros x o Ho. destruct (A2 x o Ho) as (o' & Ho' & Hr).
    destruct (B2 x o' Ho') as (o'' & Ho'' & Hr'). exists o''. split; [done|].
    congruence.
  - intros i Hi. rewrite B3, A3; done.
  - congruence.
Qed.

Lemma connect_free_run s N n :
  Objects s !! N = Some n -> valid_ptr N -> connectable P n ->
  Connected n = false -> vector_free P s (Vector n) ->
  ptr_add N (off_DispatchCode P) <> unexpected_stub P (Vector n) ->
  let Enabled := HalEnableResult P (Vector n) (Irql n) (Mode n) in
  let s1 :=
    set_KernelLog (pinned (Number n))
      (set_HalLines (cons (HalEnable (Vector n) (Irql n) (Mode n) Enabled))
         (set_IDT (idt_write P (Vector n) (ptr_add N (off_DispatchCode P)))
            (set_Objects (insert N (first_owner P N n)) s))) in
  KeConnectInterrupt P N s
  = (if Enabled then Ok true s1
     else bind (KeDisconnectInterrupt P N) (fun _ => ret false) s1)
  /\ vector_held P s1 (Vector n) [N]
  /\ preserves P (Vector n) [N] s s1.
Proof.
  intros Hn HvN Hc Hconn [Hshape Hfree] Hstub Enabled s1.
  pose proof Hc as (_ & _ & _ & Hfs).
  split; [|split].
  - unfold KeConnectInterrupt.
    repeat (erewrite bind_load by exact Hn).
    rewrite (connectable_guard n Hc). cbn [negb].
    subst s1.
    destruct s as [objs idt flat hal log lim us tinit tsc isrt calls].
    cbn [Objects IDT] in *.
    repeat kstep. rewrite Hconn. cbn [negb]. repeat kstep.
    match goal with
    | |- context [bind (KiGetVectorInfo P (Vector n)) _ ?st] =>
        rewrite (bind_Ok _ _ _ _ _
                   (KiGetVectorInfo_direct_free P st (Vector n) Hshape Hfree))
    end.
    cbn [InfoType direct_info]. rewrite decide_True by reflexivity.
    repeat kstep.
    match goal with
    | |- context [bind (InitializeListHead P (entry_of P N)) _ ?st] =>
        let H := fresh in
        assert (H : Objects st !! N = Some (set_Connected true n))
          by lookup_solve;
        rewrite (bind_Ok _ _ _ _ _ (InitializeListHead_spec P st N _ HvN H));
        clear H
    end.
    proj_simpl. rewrite ?insert_insert_eq. rewrite ?bind_assoc.
    match goal with
    | |- context [bind (KiConnectVectorAndInterruptObject P N NormalConnect) _ ?st] =>
        let H := fresh in
        assert (H : Objects st !! N
                    = Some (set_InterruptListEntry
                              {| Flink := entry_of P N; Blink := entry_of P N |}
                              (set_Connected true n)))
          by lookup_solve;
        rewrite (bind_Ok _ _ _ _ _
                   (binder_connect P st N _ NormalConnect
                      ltac:(discriminate) H Hshape
                      ltac:(intros Hocc; exfalso; apply Hocc; exact Hfree)));
        clear H
    end.
    proj_simpl. rewrite ?insert_insert_eq. cbn [Vector set_InterruptListEntry set_Connected].
    repeat kstep. unfold HalEnableSystemInterrupt. repeat kstep.
    cbn [Mode rebound set_DispatchCode set_DispatchAddress
         set_InterruptListEntry set_Connected].
    fold Enabled. destruct Enabled; cbn [negb andb]; reflexivity.
  - subst s1. split; [exact Hshape|]. proj_simpl. split; [|split; [|split]].
    + split; [apply NoDup_singleton|]. split; [by constructor|].
      cbn. unfold flink_of, blink_of. rewrite lookup_insert_eq. cbn. done.
    + cbn [hd]. rewrite idt_write_same. apply wrap32_ptr_add.
    + constructor; [|constructor]. split; [exact Hstub|].
      eexists. split; [apply lookup_insert_eq|]. cbn. by rewrite Hfs.
    + cbn [hd]. rewrite lookup_insert_eq. cbn. unfold dispatch_entry.
      rewrite decide_True by reflexivity. cbn. by rewrite Hfs.
  - subst s1. split; [|split; [|split]].
    + intros y Hy. proj_simpl. rewrite lookup_insert_ne; [reflexivity|].
      intros ->. apply Hy. apply elem_of_cons. by left.
    + intros y o Hy. proj_simpl.
      destruct (decide (N = y)) as [->|Hne].
      * rewrite lookup_insert_eq. rewrite Hn in Hy. injection Hy as <-.
        by eexists.
      * rewrite lookup_insert_ne by done. by eexists.
    + intros i Hi. proj_simpl. by apply idt_write_other.
    + reflexivity.
Qed.

(** The occupant of a vector is put on the chained dispatch unless it is
    there already. *)
Lemma make_chained st v h (t : list Z) o :
  vector_shape P v = 0 -> valid_ptr h ->
  Objects st !! h = Some o -> Vector o = v ->
  IDT st (HalVectorToIDTEntry P v) = ptr_add h (off_DispatchCode P) ->
  DispatchAddress o = match t with
                      | [] => KiInterruptDispatch P
                      | _ => KiChainedDispatch P
                      end ->
  exists o' idt',
    (if decide (match t with [] => NormalConnect | _ => ChainConnect end
                = ChainConnect)
     then ret tt
     else KiConnectVectorAndInterruptObject P h ChainConnect) st
    = Ok tt (set_IDT (fun _ => idt') (set_Objects (insert h o') st))
    /\ InterruptListEntry o' = InterruptListEntry o
    /\ registration o' = registration o
    /\ Connected o' = Connected o
    /\ DispatchAddress o' = KiChainedDispatch P
    /\ idt' (HalVectorToIDTEntry P v) = ptr_add h (off_DispatchCode P)
    /\ (forall i, i <> HalVectorToIDTEntry P v -> idt' i = IDT st i).
Proof.
  intros Hshape Hvh Ho Hvec Hidt Hda.
  pose proof (CONTAINING_RECORD_ptr_add h (off_DispatchCode P) Hvh) as Hrec.
  destruct t as [|b t].
  - rewrite decide_False by discriminate.
    exists (rebound P h (dispatch_entry P ChainConnect o) o).
    exists (idt_write P v (ptr_add h (off_DispatchCode P)) (IDT st)).
    split; [|split; [|split; [|split; [|split; [|split]]]]]; try reflexivity.
    + rewrite (binder_connect P st h o ChainConnect); [by rewrite Hvec|discriminate|done| |].
      * by rewrite Hvec.
      * rewrite Hvec. intros _. rewrite Hidt, Hrec. by exists o.
    + rewrite idt_write_same. apply wrap32_ptr_add.
    + intros i Hi. by apply idt_write_other.
  - rewrite decide_True by reflexivity.
    exists o, (IDT st).
    split; [|split; [|split; [|split; [|split; [|split]]]]]; try done.
    destruct st as [objs idt flat hal log lim us tinit tsc isrt calls].
    cbn [Objects] in Ho. proj_simpl. rewrite insert_id by exact Ho. reflexivity.
Qed.

Lemma member_of_transfer s s' v x :
  (forall o, Objects s !! x = Some o ->
     exists o', Objects s' !! x = Some o'
                /\ registration o' = registration o
                /\ Connected o' = Connected o) ->
  member_of P s v x -> member_of P s' v x.
Proof.
  intros H (Hstub & o & Ho & Hvec & Hconn & Hfs). split; [exact Hstub|].
  destruct (H o Ho) as (o' & Ho' & Hreg & Hc'). exists o'.
  split; [exact Ho'|]. unfold registration in Hreg.
  injection Hreg as _ _ _ Hv _ _ Hf _ _ _. repeat split; congruence.
Qed.

(** Joining the chain of a vector that is held. *)
Lemma connect_join s v l N n h oh :
  vector_held P s v l -> N ∉ l ->
  Objects s !! N = Some n -> valid_ptr N -> connectable P n ->
  Connected n = false -> Vector n = v -> ShareVector n = true ->
  ptr_add N (off_DispatchCode P) <> unexpected_stub P v ->
  hd_error l = Some h -> Objects s !! h = Some oh ->
  ShareVector oh = true -> Mode oh = Mode n ->
  exists s',
    KeConnectInterrupt P N s = Ok true s'
    /\ vector_held P s' v (l ++ [N])
    /\ HalLines s' = HalLines s
    /\ preserves P v (N :: l) s s'.
Proof.
  intros Hheld HNl Hn HvN Hc Hconn Hvec Hshare Hstub Hhd Hoh Hhshare Hmode.
  destruct l as [|h' t]; [discriminate|]. injection Hhd as ->.
  destruct (vector_held_head s v h t Hheld)
    as (Hvh & Hidt & Hstubh & o & Ho & Hvo & Hco & Hfo & Hda).
  rewrite Hoh in Ho. injection Ho as <-.
  pose proof Hheld as (Hshape & Hchain & _ & Hmem & _).
  pose proof (CONTAINING_RECORD_ptr_add h (off_DispatchCode P) Hvh) as Hrec.
  destruct (chain_links P _ [] h t Hchain) as [_ Hbl].
  cbn [List.last app] in Hbl.
  apply blink_of_Some in Hbl as (oh' & Hoh' & Hbl).
  rewrite Hoh in Hoh'. injection Hoh' as <-.
  set (z := List.last t h) in *.
  assert (Hz : z ∈ h :: t).
  { unfold z. rewrite <- (last_cons_last t h 0).
    destruct (snoc_last (h :: t) 0 ltac:(discriminate)) as [pre Hpre].
    rewrite Hpre at 2. apply elem_of_app. right.
    apply list_elem_of_singleton. reflexivity. }
  destruct (chain_mapped P _ _ z Hchain Hz) as (Hvz & oz & Hoz).
  assert (HNh : N <> h) by (intros ->; apply HNl, elem_of_cons; by left).
  assert (HNz : N <> z) by (intros ->; by apply HNl).
  destruct s as [objs idt flat hal log lim us tinit tsc isrt calls].
  cbn [Objects IDT HalLines] in *.
  (* the occupant goes on the chained dispatch *)
  set (st1 := Build_machine (<[N := set_Connected true n]> objs) idt flat hal
                (KiLockDispatcherDatabase
                 :: KeSetSystemAffinityThread (affinity_of (Number n))
                 :: log) lim us tinit tsc isrt calls).
  destruct (make_chained st1 v h t oh Hshape Hvh
              ltac:(cbn; by rewrite lookup_insert_ne) Hvo Hidt Hda)
    as (oh1 & idt1 & Hmk & Hile & Hreg & Hconn1 & Hda1 & Hidt1 & Hidt1').
  (* the new object goes at the tail *)
  set (st2 := set_IDT (fun _ => idt1) (set_Objects (insert h oh1) st1)) in *.
  destruct (InsertTailList_spec P st2 h oh1 z N Hvh Hvz HvN HNh HNz)
    as (m' & Hins & Hlo & HF & HB).
  { cbn. apply lookup_insert_eq. }
  { by rewrite Hile. }
  { cbn. destruct (decide (h = z)) as [<-|Hhz].
    - rewrite lookup_insert_eq. by eexists.
    - rewrite !lookup_insert_ne by congruence. by exists oz. }
  { cbn. rewrite lookup_insert_ne by congruence. rewrite lookup_insert_eq.
    by eexists. }
  eexists. split; [|split; [|split]].
  - unfold KeConnectInterrupt.
    repeat kstep. rewrite (connectable_guard n Hc). cbn [negb].
    repeat kstep. rewrite Hconn. cbn [negb]. rewrite ?bind_assoc.
    rewrite Hvec.
    match goal with
    | |- context [bind (KiGetVectorInfo P v) _ ?st] =>
        destruct (vector_held_inspect st v h t) as [Hinfo' _];
        [ eapply vector_held_ext; [| |exact Hheld]; reflexivity
        | rewrite (bind_Ok _ _ _ _ _ Hinfo') ]
    end.
    cbn [InfoType InfoInterrupt direct_info]. rewrite Hrec.
    rewrite decide_False by (destruct t; discriminate).
    rewrite ?bind_assoc.
    rewrite decide_False by (destruct t; discriminate).
    repeat kstep. rewrite Hshare. repeat kstep. rewrite Hhshare.
    repeat kstep. rewrite bool_decide_eq_true_2 by exact Hmode.
    repeat kstep. rewrite ?bind_assoc.
    fold st1. rewrite (bind_Ok _ _ _ _ _ Hmk). rewrite ?bind_assoc.
    rewrite (bind_Ok _ _ _ _ _ Hins).
    subst st2 st1. repeat kstep. reflexivity.
  - (* the vector is held by the longer chain *)
    subst st2 st1. cbn [Objects set_Objects set_IDT] in *.
    assert (Hchain1 : chain P (<[h := oh1]> (<[N := set_Connected true n]> objs))
                        (h :: t)).
    { eapply chain_ext; [| |exact Hchain].
      - intros x. rewrite (flink_of_insert_same _ h oh oh1);
          [|by rewrite lookup_insert_ne|done].
        by apply (flink_of_insert_same _ N n).
      - intros x. rewrite (blink_of_insert_same _ h oh oh1);
          [|by rewrite lookup_insert_ne|done].
        by apply (blink_of_insert_same _ N n). }
    split; [exact Hshape|]. proj_simpl. split; [|split; [|split]].
    + by apply (chain_insert_tail P _ m' h t N Hchain1 HNl HvN).
    + exact Hidt1.
    + apply Forall_app. split.
      * rewrite Forall_forall in Hmem |- *. intros x Hx.
        eapply member_of_transfer; [|exact (Hmem x Hx)].
        cbn [Objects]. intros ox Hox.
        assert (x <> N) by (intros ->; contradiction).
        destruct (decide (x = h)) as [->|Hxh].
        -- rewrite Hoh in Hox. injection Hox as <-.
           destruct (links_only_fields _ _ h oh1 Hlo (lookup_insert_eq _ _ _))
             as (o' & Ho' & Hr' & Hc' & _).
           exists o'. split; [exact Ho'|]. split; congruence.
        -- destruct (links_only_fields _ _ x ox Hlo) as (o' & Ho' & Hr' & Hc' & _).
           { by rewrite !lookup_insert_ne. }
           exists o'. done.
      * constructor; [|constructor]. split; [exact Hstub|].
        destruct (links_only_fields _ _ N (set_Connected true n) Hlo)
          as (o' & Ho' & Hr' & Hc' & _).
        { rewrite lookup_insert_ne by congruence. apply lookup_insert_eq. }
        exists o'. split; [exact Ho'|]. unfold registration in Hr'. cbn in Hr', Hc'.
        destruct Hc as (_ & _ & _ & Hfs).
        injection Hr' as _ _ _ Hv' _ _ Hf' _ _ _. repeat split; congruence.
    + cbn [hd app].
      destruct (links_only_fields _ _ h oh1 Hlo (lookup_insert_eq _ _ _))
        as (o' & Ho' & _ & _ & Hd').
      rewrite Ho'. cbn. rewrite Hd', Hda1. by destruct t.
  - reflexivity.
  - subst st2 st1. cbn [Objects set_Objects set_IDT] in *.
    split; [|split; [|split]]; proj_simpl.
    + intros x Hx.
      assert (x <> N) by (intros ->; apply Hx, elem_of_cons; by left).
      assert (x <> h).
      { intros ->. apply Hx. apply elem_of_cons; right. apply elem_of_cons; by left. }
      assert (x <> z).
      { intros ->. apply Hx. apply elem_of_cons; by right. }
      rewrite (links_only_unchanged _ _ x Hlo).
      * by rewrite !lookup_insert_ne.
      * rewrite HF. by rewrite !decide_False.
      * rewrite HB. by rewrite !decide_False.
    + intros x ox Hox.
      destruct (decide (x = h)) as [->|Hxh].
      * rewrite Hoh in Hox. injection Hox as <-.
        destruct (links_only_fields _ _ h oh1 Hlo (lookup_insert_eq _ _ _))
          as (o' & Ho' & Hr' & _).
        exists o'. split; [exact Ho'|]. congruence.
      * destruct (decide (x = N)) as [->|HxN].
        -- rewrite Hn in Hox. injection Hox as <-.
           destruct (links_only_fields _ _ N (set_Connected true n) Hlo)
             as (o' & Ho' & Hr' & _).
           { rewrite lookup_insert_ne by congruence. apply lookup_insert_eq. }
           exists o'. split; [exact Ho'|]. exact Hr'.
        -- destruct (links_only_fields _ _ x ox Hlo) as (o' & Ho' & Hr' & _).
           { by rewrite !lookup_insert_ne. }
           exists o'. done.
    + exact Hidt1'.
    + reflexivity.
Qed.

(** Removing the head of a chain promotes the next member; removing
    another member leaves the head. *)
Lemma promote_head st v X l1 l2 :
  vector_held P st v (l1 ++ X :: l2) -> l1 ++ l2 <> [] ->
  exists oH oA idtA,
    Objects st !! hd 0 (l1 ++ l2) = Some oH
    /\ (if X =? hd X l1 then
          bind (load (hd X l1) (fun o => Flink (InterruptListEntry o)))
            (fun Next =>
               bind (KiConnectVectorAndInterruptObject P (object_of P Next)
                       ChainConnect)
                 (fun _ => ret (object_of P Next)))
        else ret (hd X l1)) st
       = Ok (hd 0 (l1 ++ l2))
            (set_IDT (fun _ => idtA)
               (set_Objects (insert (hd 0 (l1 ++ l2)) oA) st))
    /\ InterruptListEntry oA = InterruptListEntry oH
    /\ registration oA = registration oH
    /\ Connected oA = Connected oH
    /\ DispatchAddress oA = KiChainedDispatch P
    /\ idtA (HalVectorToIDTEntry P v)
       = ptr_add (hd 0 (l1 ++ l2)) (off_DispatchCode P)
    /\ (forall i, i <> HalVectorToIDTEntry P v -> idtA i = IDT st i).
Proof.
  intros Hheld Hne.
  pose proof Hheld as (Hshape & Hchain & Hidt & Hmem & Hda).
  destruct l1 as [|h r1].
  - (* the head goes *)
    cbn [app hd] in *. destruct l2 as [|n r]; [done|]. cbn [hd] in *.
    rewrite Z.eqb_refl.
    destruct (chain_links P _ [] X (n :: r) Hchain) as [Hfl _].
    cbn [hd] in Hfl. apply flink_of_Some in Hfl as (x & Hx & Hfl).
    destruct (chain_mapped P _ _ n Hchain) as (Hvn & on & Hon).
    { apply elem_of_cons; right. apply elem_of_cons; by left. }
    destruct (chain_mapped P _ _ X Hchain) as (HvX & _).
    { apply elem_of_cons; by left. }
    pose proof (CONTAINING_RECORD_ptr_add X (off_DispatchCode P) HvX) as Hrec.
    rewrite Forall_forall in Hmem.
    destruct (Hmem n) as (Hstubn & on' & Hon' & Hvecn & Hconn & Hfsn).
    { apply elem_of_cons; right. apply elem_of_cons; by left. }
    rewrite Hon in Hon'. injection Hon' as <-.
    destruct (Hmem X) as (HstubX & _).
    { apply elem_of_cons; by left. }
    exists on, (rebound P n (dispatch_entry P ChainConnect on) on),
      (idt_write P v (ptr_add n (off_DispatchCode P)) (IDT st)).
    split; [exact Hon|].
    split; [|split; [|split; [|split; [|split; [|split]]]]]; try reflexivity.
    + erewrite bind_load by exact Hx. rewrite Hfl.
      rewrite (object_of_entry_of P n Hvn).
      rewrite (bind_Ok _ _ _ _ _
                 (binder_connect P st n on ChainConnect ltac:(discriminate) Hon
                    ltac:(by rewrite Hvecn)
                    ltac:(rewrite Hvecn; intros _; rewrite Hidt, Hrec; by exists x))).
      rewrite Hvecn. reflexivity.
    + rewrite idt_write_same. apply wrap32_ptr_add.
    + intros i Hi. by apply idt_write_other.
  - (* another member goes *)
    cbn [app hd] in *.
    assert (HXh : X <> h).
    { intros ->. destruct Hchain as (Hnd & _). inversion Hnd as [|? ? Hnot _]; subst.
      apply Hnot. apply elem_of_app. right. apply elem_of_cons. by left. }
    apply Z.eqb_neq in HXh. rewrite HXh.
    destruct (vector_held_head st v h _ Hheld)
      as (Hvh & _ & _ & oh & Hoh & _ & _ & _ & Hdah).
    exists oh, oh, (IDT st). split; [exact Hoh|].
    split; [|split; [|split; [|split; [|split; [|split]]]]]; try done.
    + destruct st as [objs idt flat hal log lim us tinit tsc isrt calls].
      cbn [Objects] in Hoh. proj_simpl. rewrite insert_id by exact Hoh.
      reflexivity.
    + rewrite Hdah. destruct r1; reflexivity.
Qed.

(** When one member remains on the chain it goes back to the normal
    dispatch. *)
Lemma collapse_single st v H' (new : list Z) oH :
  vector_shape P v = 0 -> chain P (Objects st) new -> hd_error new = Some H' ->
  Objects st !! H' = Some oH -> Vector oH = v -> FloatingSave oH = false ->
  DispatchAddress oH = KiChainedDispatch P ->
  IDT st (HalVectorToIDTEntry P v) = ptr_add H' (off_DispatchCode P) ->
  exists oC idtC,
    bind (load H' (fun o => Flink (InterruptListEntry o)))
      (fun Next =>
         if H' =? object_of P Next
         then KiConnectVectorAndInterruptObject P (object_of P Next) NormalConnect
         else ret tt) st
    = Ok tt (set_IDT (fun _ => idtC) (set_Objects (insert H' oC) st))
    /\ InterruptListEntry oC = InterruptListEntry oH
    /\ registration oC = registration oH
    /\ Connected oC = Connected oH
    /\ DispatchAddress oC = match new with
                            | [_] => KiInterruptDispatch P
                            | _ => KiChainedDispatch P
                            end
    /\ idtC (HalVectorToIDTEntry P v) = ptr_add H' (off_DispatchCode P)
    /\ (forall i, i <> HalVectorToIDTEntry P v -> idtC i = IDT st i).
Proof.
  intros Hshape Hchain Hhd HoH Hvec Hfs Hda Hidt.
  destruct new as [|h t]; [discriminate|]. injection Hhd as ->.
  destruct (chain_links P _ [] H' t Hchain) as [Hfl _]. cbn [hd] in Hfl.
  apply flink_of_Some in Hfl as (o & Ho & Hfl).
  rewrite HoH in Ho. injection Ho as <-.
  destruct (chain_mapped P _ _ H' Hchain) as (HvH & _).
  { apply elem_of_cons; by left. }
  pose proof (CONTAINING_RECORD_ptr_add H' (off_DispatchCode P) HvH) as Hrec.
  erewrite bind_load by exact HoH. rewrite Hfl.
  destruct t as [|b t].
  - cbn [hd]. rewrite (object_of_entry_of P H' HvH), Z.eqb_refl.
    exists (rebound P H' (dispatch_entry P NormalConnect oH) oH),
      (idt_write P v (ptr_add H' (off_DispatchCode P)) (IDT st)).
    split; [|split; [|split; [|split; [|split; [|split]]]]]; try reflexivity.
    + rewrite (binder_connect P st H' oH NormalConnect); [by rewrite Hvec|discriminate|done| |].
      * by rewrite Hvec.
      * rewrite Hvec. intros _. rewrite Hidt, Hrec. by exists oH.
    + cbn. unfold dispatch_entry. rewrite decide_True by reflexivity.
      by rewrite Hfs.
    + rewrite idt_write_same. apply wrap32_ptr_add.
    + intros i Hi. by apply idt_write_other.
  - cbn [hd].
    destruct (chain_mapped P _ _ b Hchain) as (Hvb & _).
    { apply elem_of_cons; right. apply elem_of_cons; by left. }
    rewrite (object_of_entry_of P b Hvb).
    assert (HHb : H' <> b).
    { intros ->. destruct Hchain as (Hnd & _). inversion Hnd as [|? ? Hnot _]; subst.
      apply Hnot. apply elem_of_cons. by left. }
    apply Z.eqb_neq in HHb. rewrite HHb.
    exists oH, (IDT st).
    split; [|split; [|split; [|split; [|split; [|split]]]]]; try done.
    destruct st as [objs idt flat hal log lim us tinit tsc isrt calls].
    cbn [Objects] in HoH. proj_simpl. rewrite insert_id by exact HoH.
    reflexivity.
Qed.

Lemma vector_held_inspect_chain s v l1 X l2 :
  vector_held P s v (l1 ++ X :: l2) -> l1 ++ l2 <> [] ->
  KiGetVectorInfo P v s
  = Ok (direct_info P v (ptr_add (hd X l1) (off_DispatchCode P)) ChainConnect) s
  /\ CONTAINING_RECORD (ptr_add (hd X l1) (off_DispatchCode P))
                        (off_DispatchCode P) = hd X l1.
Proof.
  intros Hheld Hne. destruct l1 as [|h r1]; cbn [app hd] in *.
  - destruct l2 as [|n r]; [done|].
    exact (vector_held_inspect s v X (n :: r) Hheld).
  - destruct (vector_held_inspect s v h (r1 ++ X :: l2) Hheld) as [H1 H2].
    split; [|exact H2]. rewrite H1. by destruct r1.
Qed.

Lemma hd_error_hd (l : list Z) d : l <> [] -> hd_error l = Some (hd d l).
Proof. by destruct l. Qed.

Lemma last_elem (l : list Z) d : l <> [] -> List.last l d ∈ l.
Proof.
  intros H. destruct (snoc_last l d H) as [pre Hpre].
  rewrite Hpre at 2. apply elem_of_app. right.
  apply list_elem_of_singleton. reflexivity.
Qed.

Lemma hd_elem (l : list Z) d : l <> [] -> hd d l ∈ l.
Proof. destruct l; [done|]. intros _. apply elem_of_cons. by left. Qed.

(** Disconnecting a member of a chain of two or more. *)
Lemma disconnect_chain s v l1 X l2 :
  vector_held P s v (l1 ++ X :: l2) -> l1 ++ l2 <> [] ->
  exists s',
    KeDisconnectInterrupt P X s = Ok true s'
    /\ vector_held P s' v (l1 ++ l2)
    /\ Connected <$> Objects s' !! X = Some false
    /\ HalLines s' = HalLines s
    /\ preserves P v (l1 ++ X :: l2) s s'.
Proof.
  intros Hheld Hne.
  pose proof Hheld as (Hshape & Hchain & Hidt & Hmem & Hda).
  rewrite Forall_forall in Hmem.
  assert (HX : X ∈ l1 ++ X :: l2).
  { apply elem_of_app. right. apply elem_of_cons. by left. }
  destruct (Hmem X HX) as (_ & x & Hx & Hvec & Hconn & _).
  destruct (chain_mapped P _ _ X Hchain HX) as (HvX & _).
  assert (Hnd : NoDup (l1 ++ X :: l2)) by (by destruct Hchain).
  assert (HXnew : X ∉ l1 ++ l2).
  { intros Hin. apply NoDup_app in Hnd as (_ & H2 & H3).
    apply elem_of_app in Hin as [Hin|Hin].
    - apply (H2 X Hin). apply elem_of_cons. by left.
    - by inversion H3. }
  assert (Hsub : forall y, y ∈ l1 ++ l2 -> y ∈ l1 ++ X :: l2).
  { intros y Hy. apply elem_of_app in Hy as [Hy|Hy]; apply elem_of_app;
      [by left | right; apply elem_of_cons; by right]. }
  set (H' := hd 0 (l1 ++ l2)) in *.
  assert (HH' : H' ∈ l1 ++ l2) by (by apply hd_elem).
  assert (HXH : X <> H') by (intros E; apply HXnew; by rewrite E).
  destruct s as [objs idt flat hal log lim us tinit tsc isrt calls].
  cbn [Objects IDT HalLines] in *.
  set (st1 := Build_machine objs idt flat hal
                (KiLockDispatcherDatabase
                 :: KeSetSystemAffinityThread (affinity_of (Number x))
                 :: log) lim us tinit tsc isrt calls).
  assert (Hheld1 : vector_held P st1 v (l1 ++ X :: l2)).
  { eapply vector_held_ext; [| |exact Hheld]; reflexivity. }
  destruct (vector_held_inspect_chain st1 v l1 X l2 Hheld1 Hne) as [Hinfo Hrec].
  (* the head *)
  destruct (promote_head st1 v X l1 l2 Hheld1 Hne)
    as (oH & oA & idtA & HoH & Hpro & HileA & HregA & HconnA & HdaA & HidtA & HidtA').
  fold H' in HoH, Hpro, HidtA. cbn [Objects] in HoH.
  set (stA := set_IDT (fun _ => idtA) (set_Objects (insert H' oA) st1)) in *.
  assert (HchainA : chain P (Objects stA) (l1 ++ X :: l2)).
  { cbn. eapply chain_ext; [| |exact Hchain].
    - intros y. by apply (flink_of_insert_same _ H' oH).
    - intros y. by apply (blink_of_insert_same _ H' oH). }
  (* the removal *)
  destruct (chain_links P _ l1 X l2 HchainA) as [Hfl Hbl].
  set (n := hd (hd X l1) l2) in *. set (p := List.last l1 (List.last l2 X)) in *.
  apply flink_of_Some in Hfl as (xA & HxA & Hfl).
  apply blink_of_Some in Hbl as (xA' & HxA' & Hbl).
  rewrite HxA in HxA'. injection HxA' as <-.
  destruct (chain_next P _ _ X HchainA HX) as (xA' & n' & HxA' & Hfl' & _ & Hn).
  rewrite HxA in HxA'. injection HxA' as <-.
  assert (n' = n) as ->.
  { destruct (chain_mapped P _ _ n' HchainA Hn) as (Hvn' & _).
    rewrite Hfl in Hfl'. unfold n in *.
    assert (Hvn : valid_ptr (hd (hd X l1) l2)).
    { destruct l2 as [|b r]; cbn [hd].
      - destruct l1 as [|a r1]; cbn [hd]; [done|].
        destruct HchainA as (_ & Hv & _). rewrite Forall_forall in Hv.
        apply Hv. apply elem_of_cons. by left.
      - destruct HchainA as (_ & Hv & _). rewrite Forall_forall in Hv.
        apply Hv. apply elem_of_app. right. apply elem_of_cons. right.
        apply elem_of_cons. by left. }
    symmetry. by apply (entry_of_inj P). }
  assert (Hp : p ∈ l1 ++ X :: l2).
  { unfold p. destruct l1 as [|a r1].
    - cbn [List.last app]. rewrite <- (last_cons_last l2 X 0).
      apply last_elem. discriminate.
    - apply elem_of_app. left. apply last_elem. discriminate. }
  destruct (chain_mapped P _ _ n HchainA Hn) as (Hvn & on & Hon).
  destruct (chain_mapped P _ _ p HchainA Hp) as (Hvp & op & Hop).
  destruct (RemoveEntryList_spec P stA X xA p n HvX Hvp Hvn HxA Hfl Hbl
              ltac:(by eexists) ltac:(by eexists))
    as (m2 & Hrem & Hlo & HF & HB).
  pose proof (chain_remove P _ m2 l1 X l2 HchainA Hne HF HB) as Hchain2.
  set (stB := set_Objects (fun _ => m2) stA) in *.
  (* the collapse *)
  destruct (links_only_fields _ _ H' oA Hlo) as (oB & HoB & HregB & HconnB & HdaB).
  { cbn. apply lookup_insert_eq. }
  destruct (Hmem H' (Hsub _ HH')) as (HstubH & oH' & HoH' & HvecH & HconnH & HfsH).
  assert (oH' = oH) as ->
    by (unfold st1 in HoH; cbn [Objects] in HoH, HoH'; congruence).
  assert (HregBH : registration oB = registration oH) by congruence.
  destruct (collapse_single stB v H' (l1 ++ l2) oB Hshape Hchain2
              (hd_error_hd _ 0 Hne) HoB)
    as (oC & idtC & Hcol & HileC & HregC & HconnC & HdaC & HidtC & HidtC').
  { unfold registration in HregBH. injection HregBH as _ _ _ Hv _ _ _ _ _ _.
    congruence. }
  { unfold registration in HregBH. injection HregBH as _ _ _ _ _ _ Hf _ _ _.
    congruence. }
  { congruence. }
  { exact HidtA. }
  set (stC := set_IDT (fun _ => idtC) (set_Objects (insert H' oC) stB)) in *.
  destruct (links_only_fields _ _ X xA Hlo HxA) as (xB & HxB & HregX & HconnX & _).
  assert (HxA0 : xA = x).
  { cbn in HxA. rewrite lookup_insert_ne in HxA by congruence. congruence. }
  subst xA.
  eexists. split; [|split; [|split; [|split]]].
  - unfold KeDisconnectInterrupt.
    repeat kstep. rewrite Hconn. repeat kstep. rewrite Hvec. rewrite ?bind_assoc.
    fold st1. rewrite (bind_Ok _ _ _ _ _ Hinfo).
    cbn [InfoType InfoInterrupt direct_info]. rewrite Hrec.
    rewrite decide_True by reflexivity. rewrite ?bind_assoc.
    rewrite (bind_Ok _ _ _ _ _ Hpro). fold stA. rewrite ?bind_assoc.
    rewrite (bind_Ok _ _ _ _ _ Hrem). fold stB. rewrite ?bind_assoc.
    cbv zeta.
    rewrite <- (bind_assoc
                  (load H' (fun o => Flink (InterruptListEntry o)))
                  (fun Next =>
                     if H' =? object_of P Next
                     then KiConnectVectorAndInterruptObject P (object_of P Next)
                            NormalConnect
                     else ret tt)).
    rewrite (bind_Ok _ _ _ _ _ Hcol). fold stC. rewrite ?bind_assoc.
    subst stC stB stA st1. proj_simpl.
    repeat kstep. reflexivity.
  - (* the vector is held by the shorter chain *)
    subst stC stB stA st1. cbn [Objects IDT set_Objects set_IDT] in *.
    split; [exact Hshape|]. proj_simpl. fold H'. split; [|split; [|split]].
    + eapply chain_ext; [| |exact Hchain2].
      * intros y. rewrite (flink_of_insert_same _ X xB (set_Connected false xB));
          [|by rewrite lookup_insert_ne|done].
        by apply (flink_of_insert_same _ H' oB).
      * intros y. rewrite (blink_of_insert_same _ X xB (set_Connected false xB));
          [|by rewrite lookup_insert_ne|done].
        by apply (blink_of_insert_same _ H' oB).
    + exact HidtC.
    + rewrite Forall_forall. intros y Hy.
      assert (y <> X) by (intros ->; contradiction).
      eapply member_of_transfer; [|exact (Hmem y (Hsub y Hy))].
      cbn [Objects]. intros oy Hoy.
      rewrite lookup_insert_ne by congruence.
      destruct (decide (y = H')) as [->|HyH].
      * rewrite lookup_insert_eq. exists oC. split; [done|].
        rewrite HoH in Hoy. injection Hoy as <-. split; congruence.
      * rewrite lookup_insert_ne by congruence.
        destruct (links_only_fields _ _ y oy Hlo) as (o' & Ho' & Hr' & Hc' & _).
        { by rewrite lookup_insert_ne. }
        exists o'. done.
    + rewrite lookup_insert_ne by congruence. rewrite lookup_insert_eq. cbn.
      by rewrite HdaC.
  - subst stC stB stA st1. proj_simpl. rewrite lookup_insert_eq. reflexivity.
  - reflexivity.
  - subst stC stB stA st1. cbn [Objects IDT set_Objects set_IDT] in *.
    split; [|split; [|split]]; proj_simpl.
    + intros y Hy.
      assert (y <> X) by (intros ->; contradiction).
      assert (y <> H') by (intros ->; apply Hy, Hsub, HH').
      assert (y <> p) by (intros ->; contradiction).
      assert (y <> n) by (intros ->; contradiction).
      rewrite !lookup_insert_ne by congruence.
      rewrite (links_only_unchanged _ _ y Hlo).
      * by rewrite lookup_insert_ne.
      * rewrite HF. by rewrite decide_False.
      * rewrite HB. by rewrite decide_False.
    + intros y oy Hoy.
      destruct (decide (y = X)) as [->|HyX].
      * rewrite lookup_insert_eq. eexists. split; [reflexivity|].
        rewrite Hx in Hoy. injection Hoy as <-. exact HregX.
      * rewrite lookup_insert_ne by congruence.
        destruct (decide (y = H')) as [->|HyH].
        -- rewrite lookup_insert_eq. exists oC. split; [done|].
           rewrite HoH in Hoy. injection Hoy as <-. congruence.
        -- rewrite lookup_insert_ne by congruence.
           destruct (links_only_fields _ _ y oy Hlo) as (o' & Ho' & Hr' & _).
           { by rewrite lookup_insert_ne. }
           exists o'. done.
    + intros i Hi. rewrite HidtC' by done. cbn. by apply HidtA'.
    + reflexivity.
Qed.

(** ** The connection state machine *)

Lemma registration_fields o o' :
  registration o' = registration o ->
  Vector o' = Vector o /\ Irql o' = Irql o
  /\ SynchronizeIrql o' = SynchronizeIrql o /\ FloatingSave o' = FloatingSave o
  /\ Number o' = Number o /\ ShareVector o' = ShareVector o /\ Mode o' = Mode o.
Proof. unfold registration. intros H. inversion H. tauto. Qed.

(** C2: a first connection whose hardware enable fails is undone.  On a
    free vector of the IDT, KeConnectInterrupt binds the object as the sole
    owner with the normal dispatch (the state [s1]) and asks the HAL to
    enable the line; when the HAL answers FALSE the call continues with
    KeDisconnectInterrupt on [s1], which succeeds, and returns FALSE.  In
    the final state the object is not connected, the slot of the vector
    holds the unexpected-interrupt stub again, the inspector classifies the
    vector NoConnect, the HAL has seen the failed enable followed by a
    disable, and the IDT, the flat table and every other object are as
    before the call. *)
Theorem KeConnectInterrupt_enable_failure_rolls_back s N n :
  Objects s !! N = Some n -> valid_ptr N -> connectable P n ->
  Connected n = false -> vector_free P s (Vector n) ->
  ptr_add N (off_DispatchCode P) <> unexpected_stub P (Vector n) ->
  HalEnableResult P (Vector n) (Irql n) (Mode n) = false ->
  exists s1 s',
    KeConnectInterrupt P N s
    = bind (KeDisconnectInterrupt P N) (fun _ => ret false) s1
    /\ vector_held P s1 (Vector n) [N]
    /\ HalLines s1 = HalEnable (Vector n) (Irql n) (Mode n) false :: HalLines s
    /\ KeDisconnectInterrupt P N s1 = Ok true s'
    /\ KeConnectInterrupt P N s = Ok false s'
    /\ Connected <$> Objects s' !! N = Some false
    /\ IDT s' (HalVectorToIDTEntry P (Vector n)) = unexpected_stub P (Vector n)
    /\ KiGetVectorInfo P (Vector n) s'
       = Ok (direct_info P (Vector n) (unexpected_stub P (Vector n)) NoConnect) s'
    /\ HalLines s'
       = HalDisable (Vector n) (Irql n)
         :: HalEnable (Vector n) (Irql n) (Mode n) false :: HalLines s
    /\ (forall i, IDT s' i = IDT s i)
    /\ FlatTable s' = FlatTable s
    /\ forall x, x <> N -> Objects s' !! x = Objects s !! x.
Proof.
  intros Hn HN Hc Hu Hfree Hstub Hen.
  destruct (connect_free_run s N n Hn HN Hc Hu Hfree Hstub)
    as (Hrun & Hheld & Hpres).
  cbv zeta in Hrun, Hheld, Hpres. rewrite Hen in Hrun, Hheld, Hpres.
  destruct (disconnect_exclusive _ _ _ Hheld)
    as (s' & x & Hx & Hdis & Hfree' & Hobj & Hhal & Hpres').
  eexists; exists s'.
  split; [exact Hrun|]. split; [exact Hheld|]. split; [reflexivity|].
  split; [exact Hdis|].
  split. { rewrite Hrun. rewrite (bind_Ok _ _ _ _ _ Hdis). reflexivity. }
  split. { rewrite Hobj, lookup_insert_eq. reflexivity. }
  destruct Hfree' as (Hshape & Hidt).
  split; [exact Hidt|].
  split. { rewrite (KiGetVectorInfo_direct_free P s' _ Hshape Hidt), Hidt. reflexivity. }
  assert (Hirql : Irql x = Irql n).
  { revert Hx. cbn [Objects set_KernelLog set_HalLines set_IDT set_Objects].
    unfold set_KernelLog, set_HalLines, set_IDT, set_Objects. cbn [Objects].
    rewrite lookup_insert_eq. intros [= <-]. reflexivity. }
  split. { rewrite Hhal, Hirql. reflexivity. }
  destruct Hpres as (Ho1 & _ & Hi1 & Hf1), Hpres' as (Ho2 & _ & Hi2 & Hf2).
  split.
  { intros i.
    destruct (Z.eq_dec i (HalVectorToIDTEntry P (Vector n))) as [->|Hne].
    - rewrite Hidt. symmetry. apply Hfree.
    - rewrite Hi2, Hi1 by assumption. reflexivity. }
  split; [congruence|].
  intros y Hy. rewrite Ho2, Ho1; [reflexivity| |];
    intros Hin; apply list_elem_of_singleton in Hin; contradiction.
Qed.


(** C9: the round trip of an object with valid parameters on a free vector
    of the IDT whose hardware enable succeeds.  The first KeConnectInterrupt
    returns TRUE and leaves the object the sole owner of the vector; the
    second returns FALSE and leaves the binding and the HAL alone; the first
    KeDisconnectInterrupt returns TRUE, frees the vector and clears the
    connected flag; the second returns FALSE and changes neither the
    objects, nor the IDT, nor the flat table, nor the lines of the HAL. *)
Theorem connect_disconnect_round_trip s N n :
  Objects s !! N = Some n -> valid_ptr N -> connectable P n ->
  Connected n = false -> vector_free P s (Vector n) ->
  ptr_add N (off_DispatchCode P) <> unexpected_stub P (Vector n) ->
  HalEnableResult P (Vector n) (Irql n) (Mode n) = true ->
  exists s1 s2 s3 s4,
    KeConnectInterrupt P N s = Ok true s1
    /\ vector_held P s1 (Vector n) [N]
    /\ KeConnectInterrupt P N s1 = Ok false s2
    /\ vector_held P s2 (Vector n) [N]
    /\ HalLines s2 = HalLines s1
    /\ KeDisconnectInterrupt P N s2 = Ok true s3
    /\ vector_free P s3 (Vector n)
    /\ Connected <$> Objects s3 !! N = Some false
    /\ KeDisconnectInterrupt P N s3 = Ok false s4
    /\ Objects s4 = Objects s3 /\ IDT s4 = IDT s3
    /\ FlatTable s4 = FlatTable s3 /\ HalLines s4 = HalLines s3.
Proof.
  intros Hn HN Hc Hu Hfree Hstub Hen.
  destruct (connect_free_run s N n Hn HN Hc Hu Hfree Hstub)
    as (Hrun & Hheld & Hpres).
  cbv zeta in Hrun, Hheld, Hpres. rewrite Hen in Hrun, Hheld, Hpres.
  match type of Hrun with _ = Ok true ?st => set (s1 := st) in * end.
  assert (H1 : Objects s1 !! N = Some (first_owner P N n))
    by (unfold s1; lookup_solve).
  assert (Hc1 : connectable P (first_owner P N n)).
  { destruct Hc as (Ha & Hb & Hd & He). unfold connectable, first_owner, rebound.
    cbn. rewrite He. cbn. tauto. }
  assert (Hrun2 := connect_connected s1 N _ H1 Hc1 eq_refl).
  match type of Hrun2 with _ = Ok false ?st => set (s2 := st) in * end.
  assert (Hheld2 : vector_held P s2 (Vector n) [N]).
  { apply (vector_held_ext s1); [reflexivity | reflexivity | exact Hheld]. }
  destruct (disconnect_exclusive _ _ _ Hheld2)
    as (s3 & x & Hx & Hdis & Hfree3 & Hobj & Hhal & Hpres3).
  assert (H3 : Objects s3 !! N = Some (set_Connected false x))
    by (rewrite Hobj; apply lookup_insert_eq).
  assert (Hrun4 := disconnect_unconnected s3 N _ H3 eq_refl).
  exists s1, s2, s3. eexists.
  repeat (split; [first [eassumption | reflexivity]|]).
  split. { rewrite H3. reflexivity. }
  split; [exact Hrun4|]. repeat split.
Qed.

(** C3: joining an occupied vector.  First part: when the vector is held
    by the chain [l] with head [h] (the inspector classifies it
    NormalConnect for a sole owner, ChainConnect for a longer chain), the
    head and the new object both allow sharing and their modes agree,
    KeConnectInterrupt returns TRUE; afterwards the head dispatches through
    KiChainedDispatch, the chain of the vector is [l ++ [N]], the new object
    is connected and the HAL has not been called.  Second part: connecting
    three such objects A, B, C in this order to a free vector gives the
    chains [A], [A; B] and [A; B; C]. *)
Theorem KeConnectInterrupt_joins_chain :
  (forall s v l N n h oh,
     vector_held P s v l -> N ∉ l ->
     Objects s !! N = Some n -> valid_ptr N -> connectable P n ->
     Connected n = false -> Vector n = v ->
     ptr_add N (off_DispatchCode P) <> unexpected_stub P v ->
     hd_error l = Some h -> Objects s !! h = Some oh ->
     ShareVector oh = true -> ShareVector n = true -> Mode oh = Mode n ->
     exists s',
       KiGetVectorInfo P v s
       = Ok (direct_info P v (ptr_add h (off_DispatchCode P))
               (match l with [_] => NormalConnect | _ => ChainConnect end)) s
       /\ KeConnectInterrupt P N s = Ok true s'
       /\ DispatchAddress <$> Objects s' !! h = Some (KiChainedDispatch P)
       /\ vector_held P s' v (l ++ [N])
       /\ Connected <$> Objects s' !! N = Some true
       /\ HalLines s' = HalLines s
       /\ preserves P v (N :: l) s s')
  /\ (forall s v A B C a b c,
        Objects s !! A = Some a -> Objects s !! B = Some b ->
        Objects s !! C = Some c ->
        A <> B -> A <> C -> B <> C ->
        Forall (fun x => valid_ptr x.1 /\ connectable P x.2
                         /\ Connected x.2 = false /\ Vector x.2 = v
                         /\ ShareVector x.2 = true /\ Mode x.2 = Mode a
                         /\ ptr_add x.1 (off_DispatchCode P) <> unexpected_stub P v)
               [(A, a); (B, b); (C, c)] ->
        vector_free P s v ->
        HalEnableResult P v (Irql a) (Mode a) = true ->
        exists s1 s2 s3,
          KeConnectInterrupt P A s = Ok true s1
          /\ KeConnectInterrupt P B s1 = Ok true s2
          /\ KeConnectInterrupt P C s2 = Ok true s3
          /\ vector_held P s1 v [A]
          /\ vector_held P s2 v [A; B]
          /\ vector_held P s3 v [A; B; C]).
Proof.
  assert (Hstep : forall s v l N n h oh,
     vector_held P s v l -> N ∉ l ->
     Objects s !! N = Some n -> valid_ptr N -> connectable P n ->
     Connected n = false -> Vector n = v ->
     ptr_add N (off_DispatchCode P) <> unexpected_stub P v ->
     hd_error l = Some h -> Objects s !! h = Some oh ->
     ShareVector oh = true -> ShareVector n = true -> Mode oh = Mode n ->
     exists s',
       KiGetVectorInfo P v s
       = Ok (direct_info P v (ptr_add h (off_DispatchCode P))
               (match l with [_] => NormalConnect | _ => ChainConnect end)) s
       /\ KeConnectInterrupt P N s = Ok true s'
       /\ DispatchAddress <$> Objects s' !! h = Some (KiChainedDispatch P)
       /\ vector_held P s' v (l ++ [N])
       /\ Connected <$> Objects s' !! N = Some true
       /\ HalLines s' = HalLines s
       /\ preserves P v (N :: l) s s').
  { intros s v l N n h oh Hheld Hnin Hn HN Hc Hu Hv Hstub Hh Hoh Hsh Hsn Hm.
    destruct (connect_join s v l N n h oh Hheld Hnin Hn HN Hc Hu Hv Hsn Hstub
                Hh Hoh Hsh Hm) as (s' & Hrun & Hheld' & Hhal & Hpres).
    exists s'. destruct l as [|h' t]; [discriminate|].
    injection Hh as ->.
    split.
    { destruct (vector_held_inspect s v h t Hheld) as [Hi _].
      rewrite Hi. destruct t; reflexivity. }
    split; [exact Hrun|].
    split.
    { destruct Hheld' as (_ & _ & _ & _ & Hd). cbn [app hd] in Hd.
      rewrite Hd. destruct t; reflexivity. }
    split; [exact Hheld'|].
    split.
    { destruct Hheld' as (_ & _ & _ & Hmem & _).
      rewrite Forall_forall in Hmem.
      destruct (Hmem N) as (_ & o & Ho & _ & Hco & _).
      - apply elem_of_app. right. apply list_elem_of_singleton. reflexivity.
      - rewrite Ho. cbn. rewrite Hco. reflexivity. }
    split; assumption. }
  split; [exact Hstep|].
  intros s v A B C a b c Ha Hb Hc HAB HAC HBC Hall Hfree Hen.
  apply Forall_cons in Hall as [HA Hall]. apply Forall_cons in Hall as [HB Hall].
  apply Forall_cons in Hall as [HC _]. cbn [fst snd] in HA, HB, HC.
  destruct HA as (HvA & HcA & HuA & HwA & HsA & _ & HstA).
  destruct HB as (HvB & HcB & HuB & HwB & HsB & HmB & HstB).
  destruct HC as (HvC & HcC & HuC & HwC & HsC & HmC & HstC).
  subst v.
  destruct (connect_free_run s A a Ha HvA HcA HuA Hfree HstA)
    as (Hrun1 & Hheld1 & Hpres1).
  cbv zeta in Hrun1, Hheld1, Hpres1. rewrite Hen in Hrun1, Hheld1, Hpres1.
  match type of Hrun1 with _ = Ok true ?st => set (s1 := st) in * end.
  assert (HnotA : forall x, x <> A -> x ∉ [A]).
  { intros x Hx Hin. apply list_elem_of_singleton in Hin. contradiction. }
  destruct Hpres1 as (Ho1 & Hr1 & _).
  destruct (Hr1 A a Ha) as (a1 & Ha1 & Hreg1).
  apply registration_fields in Hreg1 as (_ & _ & _ & _ & _ & Hsa1 & Hma1).
  assert (Hb1 : Objects s1 !! B = Some b) by (rewrite Ho1; auto).
  assert (Hc1 : Objects s1 !! C = Some c) by (rewrite Ho1; auto).
  destruct (Hstep s1 (Vector a) [A] B b A a1) as
    (s2 & _ & Hrun2 & _ & Hheld2 & _ & _ & Hpres2); auto; try congruence.
  destruct Hpres2 as (Ho2 & Hr2 & _).
  destruct (Hr2 A a1 Ha1) as (a2 & Ha2 & Hreg2).
  apply registration_fields in Hreg2 as (_ & _ & _ & _ & _ & Hsa2 & Hma2).
  assert (Hc2 : Objects s2 !! C = Some c).
  { rewrite Ho2; [exact Hc1|]. intros Hin.
    apply elem_of_cons in Hin as [?|Hin]; [congruence|].
    apply list_elem_of_singleton in Hin. congruence. }
  destruct (Hstep s2 (Vector a) [A; B] C c A a2) as
    (s3 & _ & Hrun3 & _ & Hheld3 & _); auto; try congruence.
  { intros Hin. apply elem_of_cons in Hin as [?|Hin]; [congruence|].
    apply list_elem_of_singleton in Hin. congruence. }
  exists s1, s2, s3.
  split; [exact Hrun1|]. split; [exact Hrun2|]. split; [exact Hrun3|].
  split; [exact Hheld1|]. split; [exact Hheld2|]. exact Hheld3.
Qed.

(** C4: disconnecting a member [X] of a chain of two or more objects.
    KeDisconnectInterrupt returns TRUE and clears the connected flag of
    [X]; the remaining objects form the chain [l1 ++ l2] in their old order;
    the slot of the vector points at the dispatch code of the head of that
    chain, which is the former second member when [X] was the head
    ([l1 = []]); when a single member remains it dispatches through
    KiInterruptDispatch and the inspector classifies the vector
    NormalConnect, otherwise the head dispatches through KiChainedDispatch
    and the vector is classified ChainConnect; the HAL is not called. *)
Theorem KeDisconnectInterrupt_leaves_chain s v l1 X l2 :
  vector_held P s v (l1 ++ X :: l2) -> l1 ++ l2 <> [] ->
  exists s',
    KeDisconnectInterrupt P X s = Ok true s'
    /\ Connected <$> Objects s' !! X = Some false
    /\ chain P (Objects s') (l1 ++ l2)
    /\ IDT s' (HalVectorToIDTEntry P v)
       = ptr_add (hd 0 (l1 ++ l2)) (off_DispatchCode P)
    /\ DispatchAddress <$> Objects s' !! hd 0 (l1 ++ l2)
       = Some (match l1 ++ l2 with
               | [_] => KiInterruptDispatch P
               | _ => KiChainedDispatch P
               end)
    /\ KiGetVectorInfo P v s'
       = Ok (direct_info P v (ptr_add (hd 0 (l1 ++ l2)) (off_DispatchCode P))
               (match l1 ++ l2 with
                | [_] => NormalConnect
                | _ => ChainConnect
                end)) s'
    /\ vector_held P s' v (l1 ++ l2)
    /\ HalLines s' = HalLines s
    /\ preserves P v (l1 ++ X :: l2) s s'.
Proof.
  intros Hheld Hne.
  destruct (disconnect_chain s v l1 X l2 Hheld Hne)
    as (s' & Hrun & Hheld' & Hcon & Hhal & Hpres).
  exists s'. split; [exact Hrun|]. split; [exact Hcon|].
  pose proof Hheld' as (_ & Hchain & Hidt & _ & Hda).
  split; [exact Hchain|]. split; [exact Hidt|]. split; [exact Hda|].
  split.
  { destruct (l1 ++ l2) as [|h t] eqn:E; [contradiction|].
    destruct (vector_held_inspect s' v h t Hheld') as [Hi _].
    rewrite Hi. destruct t; reflexivity. }
  split; [exact Hheld'|]. split; [exact Hhal|]. exact Hpres.
Qed.

End Transitions.

(** ** The state machine on the concrete platform *)

Lemma object_at_lookup s x :
  is_Some (Connected <$> Objects s !! x) ->
  Objects s !! x = Some (object_at s x).
Proof.
  intros H. apply fmap_is_Some in H as [o Ho]. unfold object_at.
  rewrite Ho. reflexivity.
Qed.

Lemma pc_entries_differ enable shape isr :
  KiInterruptDispatch (pc enable shape isr) <> KiChainedDispatch (pc enable shape isr).
Proof. discriminate. Qed.

Ltac concrete_object := apply object_at_lookup; vm_compute; eexists; reflexivity.

Ltac concrete_connectable :=
  unfold connectable; repeat split; vm_compute; congruence.

(** Witness of C2: the example object on a PC whose HAL refuses to enable
    the line. *)
Lemma KeConnectInterrupt_enable_failure_rolls_back_witness :
  exists s',
    KeConnectInterrupt (pc false 0 quiet_isr) 0x1000
      (pc_single (pc false 0 quiet_isr)) = Ok false s'
    /\ Connected <$> Objects s' !! 0x1000 = Some false
    /\ IDT s' 0x41 = 0x80540077
    /\ HalLines s' = [HalDisable 0x41 5; HalEnable 0x41 5 LevelSensitive false].
Proof.
  destruct (KeConnectInterrupt_enable_failure_rolls_back (pc false 0 quiet_isr)
              (pc_entries_differ _ _ _)
              (pc_single (pc false 0 quiet_isr)) 0x1000
              (object_at (pc_single (pc false 0 quiet_isr)) 0x1000))
    as (s1 & s' & _ & _ & _ & _ & Hrun & Hcon & Hidt & _ & Hhal & _).
  - concrete_object.
  - unfold valid_ptr; lia.
  - concrete_connectable.
  - vm_compute; reflexivity.
  - split; vm_compute; reflexivity.
  - vm_compute; discriminate.
  - reflexivity.
  - exists s'. split; [exact Hrun|]. split; [exact Hcon|].
    split.
    + exact Hidt.
    + rewrite Hhal. vm_compute. reflexivity.
Defined.

(** Witness of C9: the end-to-end example on a PC whose HAL enables the
    line. *)
Lemma connect_disconnect_round_trip_witness :
  exists s1 s2 s3 s4,
    KeConnectInterrupt (pc true 0 quiet_isr) 0x1000
      (pc_single (pc true 0 quiet_isr)) = Ok true s1
    /\ KeConnectInterrupt (pc true 0 quiet_isr) 0x1000 s1 = Ok false s2
    /\ KeDisconnectInterrupt (pc true 0 quiet_isr) 0x1000 s2 = Ok true s3
    /\ KeDisconnectInterrupt (pc true 0 quiet_isr) 0x1000 s3 = Ok false s4
    /\ Objects s4 = Objects s3 /\ IDT s4 = IDT s3
    /\ FlatTable s4 = FlatTable s3 /\ HalLines s4 = HalLines s3.
Proof.
  destruct (connect_disconnect_round_trip (pc true 0 quiet_isr)
              (pc_entries_differ _ _ _)
              (pc_single (pc true 0 quiet_isr)) 0x1000
              (object_at (pc_single (pc true 0 quiet_isr)) 0x1000))
    as (s1 & s2 & s3 & s4 & H1 & _ & H2 & _ & _ & H3 & _ & _ & H4 & Hsame).
  - concrete_object.
  - unfold valid_ptr; lia.
  - concrete_connectable.
  - vm_compute; reflexivity.
  - split; vm_compute; reflexivity.
  - vm_compute; discriminate.
  - reflexivity.
  - exists s1, s2, s3, s4.
    split; [exact H1|]. split; [exact H2|]. split; [exact H3|].
    split; [exact H4|]. exact Hsame.
Defined.

Ltac concrete_member :=
  cbn [fst snd];
  split; [unfold valid_ptr; lia|];
  split; [concrete_connectable|];
  split; [vm_compute; reflexivity|];
  split; [vm_compute; reflexivity|];
  split; [vm_compute; reflexivity|];
  split; [vm_compute; reflexivity|];
  vm_compute; discriminate.

(** Witness of C3: the three shareable objects of the PC connected in the
    order 0x1000, 0x2000, 0x3000. *)
Lemma KeConnectInterrupt_joins_chain_witness :
  exists s1 s2 s3,
    KeConnectInterrupt (pc true 0 quiet_isr) 0x1000
      (pc_ready (pc true 0 quiet_isr) Latched) = Ok true s1
    /\ KeConnectInterrupt (pc true 0 quiet_isr) 0x2000 s1 = Ok true s2
    /\ KeConnectInterrupt (pc true 0 quiet_isr) 0x3000 s2 = Ok true s3
    /\ chain (pc true 0 quiet_isr) (Objects s3) [0x1000; 0x2000; 0x3000]
    /\ DispatchAddress <$> Objects s3 !! 0x1000 = Some 0x80542200.
Proof.
  destruct (proj2 (KeConnectInterrupt_joins_chain (pc true 0 quiet_isr)
                     (pc_entries_differ _ _ _))
              (pc_ready (pc true 0 quiet_isr) Latched) 0x41
              0x1000 0x2000 0x3000
              (object_at (pc_ready (pc true 0 quiet_isr) Latched) 0x1000)
              (object_at (pc_ready (pc true 0 quiet_isr) Latched) 0x2000)
              (object_at (pc_ready (pc true 0 quiet_isr) Latched) 0x3000))
    as (s1 & s2 & s3 & H1 & H2 & H3 & _ & _ & Hheld).
  - concrete_object.
  - concrete_object.
  - concrete_object.
  - discriminate.
  - discriminate.
  - discriminate.
  - repeat (apply List.Forall_cons; [concrete_member|]). apply List.Forall_nil.
  - split; vm_compute; reflexivity.
  - reflexivity.
  - exists s1, s2, s3.
    split; [exact H1|]. split; [exact H2|]. split; [exact H3|].
    destruct Hheld as (_ & Hchain & _ & _ & Hda).
    split; [exact Hchain | exact Hda].
Defined.

Ltac concrete_held :=
  unfold vector_held; cbn [app];
  split; [reflexivity|];
  split; [concrete_chain|];
  split; [vm_compute; reflexivity|];
  split;
  [ repeat (apply List.Forall_cons;
            [ split;
              [ vm_compute; discriminate
              | eexists; split; [concrete_object|];
                split; [vm_compute; reflexivity|];
                split; vm_compute; reflexivity ]
            | ]);
    apply List.Forall_nil
  | vm_compute; reflexivity ].

(** Witness of C4: the head of a chain of two leaves; the other object
    becomes the sole owner of the vector. *)
Lemma KeDisconnectInterrupt_leaves_chain_witness :
  exists s',
    KeDisconnectInterrupt (pc true 0 quiet_isr) 0x1000
      (pc_pair (pc true 0 quiet_isr) Latched) = Ok true s'
    /\ Connected <$> Objects s' !! 0x1000 = Some false
    /\ IDT s' 0x41 = 0x203C
    /\ DispatchAddress <$> Objects s' !! 0x2000 = Some 0x80542000
    /\ chain (pc true 0 quiet_isr) (Objects s') [0x2000].
Proof.
  destruct (KeDisconnectInterrupt_leaves_chain (pc true 0 quiet_isr)
              (pc_entries_differ _ _ _)
              (pc_pair (pc true 0 quiet_isr) Latched) 0x41 [] 0x1000 [0x2000])
    as (s' & Hrun & Hcon & Hchain & Hidt & Hda & _).
  - concrete_held.
  - discriminate.
  - exists s'. split; [exact Hrun|]. split; [exact Hcon|].
    split; [exact Hidt|]. split; [exact Hda | exact Hchain].
Defined.

(** ** More machine arithmetic *)

Lemma wrap32_spec z : exists q, wrap32 z = z + q * 2 ^ 32.
Proof.
  exists (- (z / 2 ^ 32)). unfold wrap32.
  pose proof (Z.div_mod z (2 ^ 32) ltac:(lia)). lia.
Qed.

Lemma wrap32_shift a b q : a = b + q * 2 ^ 32 -> wrap32 a = wrap32 b.
Proof. intros ->. unfold wrap32. apply Z_mod_plus_full. Qed.

Lemma wrap64_spec z : exists q, wrap64 z = z + q * 2 ^ 64.
Proof.
  exists (- (z / 2 ^ 64)). unfold wrap64.
  pose proof (Z.div_mod z (2 ^ 64) ltac:(lia)). lia.
Qed.

Lemma wrap64_shift a b q : a = b + q * 2 ^ 64 -> wrap64 a = wrap64 b.
Proof. intros ->. unfold wrap64. apply Z_mod_plus_full. Qed.

Lemma wrap64_unshift a b : wrap64 a = wrap64 b -> exists q, a = b + q * 2 ^ 64.
Proof.
  intros E. destruct (wrap64_spec a) as [q1 H1], (wrap64_spec b) as [q2 H2].
  exists (q2 - q1). lia.
Qed.

(** C5: KiGetVectorInfo on a vector of a flat table.  On a PC whose HAL
    dispatches vector 0x41 through a flat table, the object at 0x1000 has
    been connected by KeConnectInterrupt: the slot holds 0x109B, the address
    installed for that object, not the unexpected-interrupt stub; the
    object is bound to the normal entry point, so that the classification
    rule gives NormalConnect.  The inspector takes 0x10FA for the occupant,
    reads the dispatch address out of the dispatch code of the object and
    reports UnknownConnect. *)
Lemma KiGetVectorInfo_flat_vector_misclassified :
  installed_target (pc true 1 quiet_isr) (pc_flat quiet_isr) 0x41 = 0x109B
  /\ unexpected_stub (pc true 1 quiet_isr) 0x41 = 0x80543000
  /\ occupant_of (pc true 1 quiet_isr) 0x41 0x109B = 0x1000
  /\ (exists occupant,
        Objects (pc_flat quiet_isr) !! 0x1000 = Some occupant
        /\ Connected occupant = true
        /\ DispatchAddress occupant = normal_entry (pc true 1 quiet_isr) 0x41
        /\ classification (pc true 1 quiet_isr) 0x41 occupant = NormalConnect)
  /\ exists info,
       KiGetVectorInfo (pc true 1 quiet_isr) 0x41 (pc_flat quiet_isr)
       = Ok info (pc_flat quiet_isr)
       /\ InfoType info = UnknownConnect
       /\ InfoInterrupt info = 0x10FA.
Proof.
  split; [vm_compute; reflexivity|].
  split; [vm_compute; reflexivity|].
  split; [vm_compute; reflexivity|].
  split.
  { exists (object_at (pc_flat quiet_isr) 0x1000).
    split; [concrete_object|].
    split; [vm_compute; reflexivity|].
    split; vm_compute; reflexivity. }
  assert (E : match KiGetVectorInfo (pc true 1 quiet_isr) 0x41 (pc_flat quiet_isr) with
              | Ok info _ => InfoType info = UnknownConnect
                             /\ InfoInterrupt info = 0x10FA
              | Stop _ => False
              end) by (vm_compute; split; reflexivity).
  destruct (KiGetVectorInfo (pc true 1 quiet_isr) 0x41 (pc_flat quiet_isr))
    as [info s'|] eqn:R; [|contradiction].
  apply KiGetVectorInfo_pure in R. subst s'.
  exists info. split; [reflexivity | exact E].
Qed.

(** ** Connections that are refused *)

Section Refusals.

Context (P : platform).
Hypothesis entries_differ : KiInterruptDispatch P <> KiChainedDispatch P.

(** X1: sharing refused.  When the vector is held by a chain with head
    [h] and the new object does not allow sharing, or the head does not
    allow sharing, or the two differ in mode, KeConnectInterrupt returns
    FALSE; apart from the affinity and dispatcher-lock calls in the kernel
    log the machine is as before: the object stays unconnected, the chain,
    the IDT and the lines of the HAL are untouched. *)
Theorem KeConnectInterrupt_refuses_to_share s v l N n h oh :
  vector_held P s v l -> hd_error l = Some h -> Objects s !! h = Some oh ->
  Objects s !! N = Some n -> connectable P n ->
  Connected n = false -> Vector n = v ->
  ShareVector n = false \/ ShareVector oh = false \/ Mode oh <> Mode n ->
  KeConnectInterrupt P N s = Ok false (set_KernelLog (pinned (Number n)) s).
Proof.
  intros Hheld Hhd Hoh Hn Hc Hconn Hvec Hwhy.
  destruct l as [|h' t]; [discriminate|]. injection Hhd as ->.
  destruct (vector_held_head P s v h t Hheld) as (Hvh & _).
  pose proof (CONTAINING_RECORD_ptr_add h (off_DispatchCode P) Hvh) as Hrec.
  destruct s as [objs idt flat hal log lim us tinit tsc isrt calls].
  cbn [Objects] in *.
  unfold KeConnectInterrupt.
  repeat kstep. rewrite (connectable_guard P n Hc). cbn [negb].
  repeat kstep. rewrite Hconn. cbn [negb]. rewrite ?bind_assoc.
  rewrite Hvec.
  match goal with
  | |- context [bind (KiGetVectorInfo P v) _ ?st] =>
      destruct (vector_held_inspect P entries_differ st v h t) as [Hinfo' _];
      [ eapply vector_held_ext; [| |exact Hheld]; reflexivity
      | rewrite (bind_Ok _ _ _ _ _ Hinfo') ]
  end.
  cbn [InfoType InfoInterrupt direct_info]. rewrite Hrec.
  rewrite decide_False by (destruct t; discriminate).
  rewrite ?bind_assoc.
  rewrite decide_False by (destruct t; discriminate).
  repeat kstep.
  destruct (ShareVector n) eqn:Esn.
  - repeat kstep. destruct (ShareVector oh) eqn:Esh.
    + repeat kstep. rewrite bool_decide_eq_false_2
        by (destruct Hwhy as [?|[?|?]]; congruence).
      repeat kstep. reflexivity.
    + repeat kstep. reflexivity.
  - repeat kstep. reflexivity.
Qed.


(** X2: an occupant on no known entry point.  When the slot of the vector
    does not hold the unexpected-interrupt stub and the object recovered
    from it dispatches neither through KiChainedDispatch nor
    KiInterruptDispatch nor KiFloatingDispatch, KiGetVectorInfo classifies
    the vector UnknownConnect and KeConnectInterrupt returns FALSE without
    reading the share flags, changing nothing but the kernel log. *)
Theorem KeConnectInterrupt_unknown_occupant s N n occ :
  Objects s !! N = Some n -> connectable P n -> Connected n = false ->
  vector_shape P (Vector n) = 0 ->
  IDT s (HalVectorToIDTEntry P (Vector n)) <> unexpected_stub P (Vector n) ->
  Objects s !! CONTAINING_RECORD (IDT s (HalVectorToIDTEntry P (Vector n)))
                 (off_DispatchCode P) = Some occ ->
  DispatchAddress occ <> KiChainedDispatch P ->
  DispatchAddress occ <> KiInterruptDispatch P ->
  DispatchAddress occ <> KiFloatingDispatch P ->
  KiGetVectorInfo P (Vector n) s
  = Ok (direct_info P (Vector n) (IDT s (HalVectorToIDTEntry P (Vector n)))
          UnknownConnect) s
  /\ KeConnectInterrupt P N s = Ok false (set_KernelLog (pinned (Number n)) s).
Proof.
  intros Hn Hc Hconn Hshape Hidt Hocc Hd1 Hd2 Hd3.
  assert (Hcls : classification P (Vector n) occ = UnknownConnect).
  { rewrite classification_direct by exact Hshape.
    rewrite (proj2 (Z.eqb_neq _ _) Hd1), (proj2 (Z.eqb_neq _ _) Hd2),
      (proj2 (Z.eqb_neq _ _) Hd3). reflexivity. }
  split.
  { rewrite (KiGetVectorInfo_direct_occupied P s _ occ Hshape Hidt Hocc), Hcls.
    reflexivity. }
  destruct s as [objs idt flat hal log lim us tinit tsc isrt calls].
  cbn [Objects IDT] in *.
  unfold KeConnectInterrupt.
  repeat kstep. rewrite (connectable_guard P n Hc). cbn [negb].
  repeat kstep. rewrite Hconn. cbn [negb]. rewrite ?bind_assoc.
  match goal with
  | |- context [bind (KiGetVectorInfo P ?v) _ ?st] =>
      pose proof (KiGetVectorInfo_direct_occupied P st v occ Hshape Hidt Hocc)
        as Hinfo;
      rewrite (bind_Ok _ _ _ _ _ Hinfo)
  end.
  rewrite Hcls. cbn [InfoType direct_info].
  rewrite decide_False by discriminate. rewrite ?bind_assoc.
  rewrite decide_True by reflexivity.
  repeat kstep. reflexivity.
Qed.

(** X3: a dispatch type other than 0 and 1.  When the HAL reports any other
    type for the vector, KiGetVectorInfo ends in
    KeBugCheck(MISMATCHED_HAL), and so do KeConnectInterrupt on an object it
    does not refuse outright and KeDisconnectInterrupt on a connected
    object of that vector. *)
Theorem KiGetVectorInfo_mismatched_hal s v :
  vector_shape P v <> 0 -> vector_shape P v <> 1 ->
  KiGetVectorInfo P v s = Stop MISMATCHED_HAL
  /\ (forall N n,
        Objects s !! N = Some n -> Vector n = v -> connectable P n ->
        Connected n = false ->
        KeConnectInterrupt P N s = Stop MISMATCHED_HAL)
  /\ (forall N n,
        Objects s !! N = Some n -> Vector n = v -> Connected n = true ->
        KeDisconnectInterrupt P N s = Stop MISMATCHED_HAL).
Proof.
  intros H0 H1.
  assert (Hinfo : forall st, KiGetVectorInfo P v st = Stop MISMATCHED_HAL).
  { intros st. unfold KiGetVectorInfo. unfold vector_shape in H0, H1.
    destruct (HalSystemVectorDispatchEntry P v) as [[ty fl] nd].
    cbn [fst snd] in H0, H1.
    destruct ty as [|[p|p|]|]; try contradiction; reflexivity. }
  split; [apply Hinfo|]. split.
  - intros N n Hn Hv Hc Hconn.
    destruct s as [objs idt flat hal log lim us tinit tsc isrt calls].
    cbn [Objects] in Hn. unfold KeConnectInterrupt.
    repeat kstep. rewrite (connectable_guard P n Hc). cbn [negb].
    repeat kstep. rewrite Hconn. cbn [negb]. rewrite ?bind_assoc.
    rewrite Hv. rewrite (bind_Stop _ _ _ _ (Hinfo _)). reflexivity.
  - intros N n Hn Hv Hconn.
    destruct s as [objs idt flat hal log lim us tinit tsc isrt calls].
    cbn [Objects] in Hn. unfold KeDisconnectInterrupt.
    repeat kstep. rewrite Hconn. repeat kstep. rewrite ?bind_assoc.
    rewrite Hv. rewrite (bind_Stop _ _ _ _ (Hinfo _)). reflexivity.
Qed.

End Refusals.

(** ** Sequences of connections and disconnections *)

Section Sequences.

Context (P : platform).
Hypothesis entries_differ : KiInterruptDispatch P <> KiChainedDispatch P.

Lemma preserves_mono v S S' s s' :
  (forall x, x ∈ S -> x ∈ S') -> preserves P v S s s' -> preserves P v S' s s'.
Proof.
  intros Hsub (H1 & H2 & H3 & H4). split; [|split; [|split]]; try assumption.
  intros x Hx. apply H1. intros Hin. apply Hx, Hsub, Hin.
Qed.

Lemma preserves_refl v S s : preserves P v S s s.
Proof.
  split; [|split; [|split]]; try reflexivity.
  intros x o Ho. exists o. split; [exact Ho | reflexivity].
Qed.

Lemma shareable_at_transfer s s' v md x :
  Objects s' !! x = Objects s !! x ->
  shareable_at P s v md x -> shareable_at P s' v md x.
Proof.
  intros E (H1 & H2 & o & Ho & H). split; [exact H1|]. split; [exact H2|].
  exists o. split; [congruence | exact H].
Qed.

Lemma connect_rest v md t :
  forall pre s h,
    vector_held P s v pre -> hd_error pre = Some h ->
    (exists oh, Objects s !! h = Some oh /\ ShareVector oh = true /\ Mode oh = md) ->
    Forall (shareable_at P s v md) t -> NoDup (pre ++ t) ->
    exists s',
      connect_each P t s = Ok (map (fun _ => true) t) s'
      /\ vector_held P s' v (pre ++ t)
      /\ HalLines s' = HalLines s
      /\ preserves P v (pre ++ t) s s'.
Proof.
  induction t as [|x t IH]; intros pre s h Hheld Hhd Hhead Hall Hnd.
  - exists s. rewrite app_nil_r. split; [reflexivity|]. split; [exact Hheld|].
    split; [reflexivity | apply preserves_refl].
  - apply Forall_cons in Hall as [Hx Hall].
    destruct Hx as (Hvx & Hstub & o & Ho & Hc & Hconn & Hvec & Hsh & Hmd).
    destruct Hhead as (oh & Hoh & Hshh & Hmh).
    assert (Hxpre : x ∉ pre).
    { intros Hin. apply NoDup_app in Hnd as (_ & Hdis & _).
      apply (Hdis x Hin). apply elem_of_cons. by left. }
    destruct (connect_join P entries_differ s v pre x o h oh)
      as (s1 & Hrun & Hheld1 & Hhal1 & Hpres1); try assumption; try congruence.
    assert (Hnd1 : NoDup ((pre ++ [x]) ++ t)) by (by rewrite <- app_assoc).
    destruct Hpres1 as (Hp1 & Hp2 & Hp3 & Hp4).
    destruct (IH (pre ++ [x]) s1 h) as (s' & Hrun' & Hheld' & Hhal' & Hpres').
    + exact Hheld1.
    + destruct pre; [discriminate | exact Hhd].
    + destruct (Hp2 h oh Hoh) as (oh1 & Hoh1 & Hreg).
      apply registration_fields in Hreg as (_ & _ & _ & _ & _ & Hs1 & Hm1).
      exists oh1. split; [exact Hoh1|]. split; congruence.
    + rewrite Forall_forall in Hall |- *. intros y Hy.
      apply (shareable_at_transfer s); [|by apply Hall].
      apply Hp1. intros Hin. apply NoDup_app in Hnd as (_ & Hdis & Hndt).
      apply elem_of_cons in Hin as [->|Hin].
      * apply NoDup_cons in Hndt as [Hnx _]. contradiction.
      * apply (Hdis y Hin). apply elem_of_cons. by right.
    + exact Hnd1.
    + exists s'. rewrite <- app_assoc in Hheld', Hpres'. cbn [app] in Hheld', Hpres'.
      split.
      { cbn [connect_each map]. rewrite (bind_Ok _ _ _ _ _ Hrun).
        rewrite (bind_Ok _ _ _ _ _ Hrun'). reflexivity. }
      split; [exact Hheld'|]. split; [congruence|].
      eapply preserves_trans; [|exact Hpres'].
      apply (preserves_mono v (x :: pre)).
      * intros y Hy. apply elem_of_app. apply elem_of_cons in Hy as [->|Hy].
        -- right. apply elem_of_cons. by left.
        -- by left.
      * split; [|split; [|split]]; assumption.
Qed.

Lemma connect_each_chain_aux s v md h t oh :
  NoDup (h :: t) -> vector_free P s v ->
  Forall (shareable_at P s v md) (h :: t) ->
  Objects s !! h = Some oh ->
  HalEnableResult P v (Irql oh) md = true ->
  exists s',
    connect_each P (h :: t) s = Ok (map (fun _ => true) (h :: t)) s'
    /\ vector_held P s' v (h :: t)
    /\ HalLines s' = HalEnable v (Irql oh) md true :: HalLines s
    /\ preserves P v (h :: t) s s'.
Proof.
  intros Hnd Hfree Hall Hoh Hen.
  pose proof Hall as Hall0.
  apply Forall_cons in Hall as [Hh Hall].
  destruct Hh as (Hvh & Hstub & o & Ho & Hc & Hconn & Hvec & Hsh & Hmd).
  rewrite Hoh in Ho. injection Ho as <-. subst v md.
  destruct (connect_free_run P s h oh Hoh Hvh Hc Hconn Hfree Hstub)
    as (Hrun & Hheld & Hpres).
  cbv zeta in Hrun, Hheld, Hpres. rewrite Hen in Hrun, Hheld, Hpres.
  match type of Hrun with _ = Ok true ?st => set (s1 := st) in * end.
  pose proof Hpres as (Hp1 & Hp2 & _).
  destruct (connect_rest (Vector oh) (Mode oh) t [h] s1 h)
    as (s' & Hrun' & Hheld' & Hhal' & Hpres'); try assumption; try reflexivity.
  - destruct (Hp2 h oh Hoh) as (oh1 & Hoh1 & Hreg).
    apply registration_fields in Hreg as (_ & _ & _ & _ & _ & Hs1 & Hm1).
    exists oh1. split; [exact Hoh1|]. split; congruence.
  - rewrite Forall_forall in Hall |- *. intros y Hy.
    apply (shareable_at_transfer s); [|by apply Hall].
    apply Hp1. intros Hin. apply list_elem_of_singleton in Hin as ->.
    apply NoDup_cons in Hnd as [Hnh _]. contradiction.
  - exists s'. cbn [app] in Hheld', Hpres'.
    split.
    { cbn [connect_each map]. rewrite (bind_Ok _ _ _ _ _ Hrun).
      rewrite (bind_Ok _ _ _ _ _ Hrun'). reflexivity. }
    split; [exact Hheld'|]. split; [rewrite Hhal'; reflexivity|].
    eapply preserves_trans; [|exact Hpres'].
    apply (preserves_mono (Vector oh) [h]); [|exact Hpres].
    intros y Hy. apply list_elem_of_singleton in Hy as ->.
    apply elem_of_cons. by left.
Qed.


Lemma vector_held_NoDup s v l : vector_held P s v l -> NoDup l.
Proof. intros (_ & (Hnd & _) & _). exact Hnd. Qed.

Lemma vector_held_mapped s v l x :
  vector_held P s v l -> x ∈ l ->
  exists o, Objects s !! x = Some o /\ Vector o = v /\ Connected o = true.
Proof.
  intros (_ & _ & _ & Hmem & _) Hx. rewrite Forall_forall in Hmem.
  destruct (Hmem x Hx) as (_ & o & Ho & Hv & Hc & _). eauto.
Qed.

Lemma disconnect_all v p :
  forall l s,
    vector_held P s v l -> p ≡ₚ l ->
    exists s' x ox,
      disconnect_each P p s = Ok (map (fun _ => true) p) s'
      /\ vector_free P s' v
      /\ List.last p 0 = x /\ Objects s !! x = Some ox
      /\ HalLines s' = HalDisable v (Irql ox) :: HalLines s
      /\ Forall (fun y => Connected <$> Objects s' !! y = Some false) l
      /\ preserves P v l s s'.
Proof.
  induction p as [|X p IH]; intros l s Hheld Hperm.
  - apply Permutation_nil_l in Hperm. subst l.
    destruct Hheld as (_ & (_ & _ & []) & _).
  - assert (HX : X ∈ l) by (rewrite <- Hperm; apply elem_of_cons; by left).
    apply list_elem_of_split in HX as (l1 & l2 & ->).
    apply Permutation_cons_app_inv in Hperm.
    pose proof (vector_held_NoDup _ _ _ Hheld) as Hnd.
    destruct (decide (l1 ++ l2 = [])) as [E|Hne].
    + apply app_eq_nil in E as [-> ->]. apply Permutation_nil_r in Hperm.
      subst p. cbn [app] in *.
      destruct (disconnect_exclusive P entries_differ s v X Hheld)
        as (s' & x & Hx & Hrun & Hfree & Hobj & Hhal & Hpres).
      exists s', X, x. split.
      { cbn [disconnect_each map]. rewrite (bind_Ok _ _ _ _ _ Hrun). reflexivity. }
      split; [exact Hfree|]. split; [reflexivity|]. split; [exact Hx|].
      split; [exact Hhal|]. split; [|exact Hpres].
      constructor; [|constructor]. rewrite Hobj, lookup_insert_eq. reflexivity.
    + destruct (disconnect_chain P entries_differ s v l1 X l2 Hheld Hne)
        as (s1 & Hrun & Hheld1 & Hcon & Hhal & Hpres).
      destruct (IH (l1 ++ l2) s1 Hheld1 Hperm)
        as (s' & x & ox1 & Hrun' & Hfree & Hlast & Hx1 & Hhal' & Hall & Hpres').
      assert (Hpne : p <> []).
      { intros ->. apply Permutation_nil_l in Hperm. by apply Hne. }
      assert (Hxin : x ∈ l1 ++ X :: l2).
      { assert (x ∈ p).
        { subst x. destruct (snoc_last p 0 Hpne) as [pre Hpre].
          rewrite Hpre at 2. apply elem_of_app. right.
          apply list_elem_of_singleton. reflexivity. }
        assert (Hx' : x ∈ l1 ++ l2) by (by rewrite <- Hperm).
        apply elem_of_app. apply elem_of_app in Hx' as [?|?]; [by left|].
        right. apply elem_of_cons. by right. }
      destruct (vector_held_mapped _ _ _ x Hheld Hxin) as (ox & Hox & _).
      pose proof Hpres as (Hq1 & Hq2 & _).
      destruct (Hq2 x ox Hox) as (ox1' & Hox1' & Hreg).
      rewrite Hx1 in Hox1'. injection Hox1' as <-.
      apply registration_fields in Hreg as (_ & Hirql & _).
      pose proof Hpres' as (Hr1 & _).
      assert (HXn : X ∉ l1 ++ l2).
      { apply NoDup_app in Hnd as (_ & Hdis & Hnd2).
        apply NoDup_cons in Hnd2 as [HX2 _]. intros Hin.
        apply elem_of_app in Hin as [Hin|Hin]; [|contradiction].
        apply (Hdis X Hin). apply elem_of_cons. by left. }
      exists s', x, ox. split.
      { cbn [disconnect_each map]. rewrite (bind_Ok _ _ _ _ _ Hrun).
        rewrite (bind_Ok _ _ _ _ _ Hrun'). reflexivity. }
      split; [exact Hfree|].
      split. { rewrite <- Hlast. destruct p; [contradiction | reflexivity]. }
      split; [exact Hox|].
      split. { rewrite Hhal', Hhal, Hirql. reflexivity. }
      split.
      { apply Forall_app in Hall as [Ha1 Ha2]. apply Forall_app. split; [exact Ha1|].
        constructor; [|exact Ha2]. rewrite (Hr1 X HXn). exact Hcon. }
      eapply preserves_trans; [exact Hpres|].
      apply (preserves_mono v (l1 ++ l2)); [|exact Hpres'].
      intros y Hy. apply elem_of_app. apply elem_of_app in Hy as [?|?]; [by left|].
      right. apply elem_of_cons. by right.
Qed.

(** X4: disconnecting every object of a vector, in any order.  Every call
    of KeDisconnectInterrupt returns TRUE; afterwards the slot of the vector
    holds the unexpected-interrupt stub and every object is unconnected;
    the HAL is called once, to disable the line at the request level of
    the object disconnected last. *)
Theorem disconnect_each_frees_vector s v l p :
  vector_held P s v l -> p ≡ₚ l ->
  exists s' ox,
    disconnect_each P p s = Ok (map (fun _ => true) p) s'
    /\ vector_free P s' v
    /\ Objects s !! List.last p 0 = Some ox
    /\ HalLines s' = HalDisable v (Irql ox) :: HalLines s
    /\ Forall (fun y => Connected <$> Objects s' !! y = Some false) l
    /\ preserves P v l s s'.
Proof.
  intros Hheld Hperm.
  destruct (disconnect_all v p l s Hheld Hperm)
    as (s' & x & ox & Hrun & Hfree & <- & Hox & Hhal & Hall & Hpres).
  exists s', ox. repeat (split; [assumption|]). assumption.
Qed.

(** X5: connecting objects that share a free vector, one after the other,
    and then disconnecting them in any order.  Every call returns TRUE; in
    between the chain of the vector lists the objects in the order of their
    connection; in the end the vector is free again, the IDT and the flat
    table are as they were at the start, every object is unconnected with
    the registration it had, and the HAL has seen one enable (for the first
    object) and one disable (at the level of the last one to leave). *)
Theorem connect_each_disconnect_each s v md h t oh p :
  NoDup (h :: t) -> vector_free P s v ->
  Forall (shareable_at P s v md) (h :: t) ->
  Objects s !! h = Some oh ->
  HalEnableResult P v (Irql oh) md = true ->
  p ≡ₚ h :: t ->
  exists s1 s2 ox,
    connect_each P (h :: t) s = Ok (map (fun _ => true) (h :: t)) s1
    /\ vector_held P s1 v (h :: t)
    /\ disconnect_each P p s1 = Ok (map (fun _ => true) p) s2
    /\ vector_free P s2 v
    /\ Objects s !! List.last p 0 = Some ox
    /\ HalLines s2
       = HalDisable v (Irql ox) :: HalEnable v (Irql oh) md true :: HalLines s
    /\ (forall i, IDT s2 i = IDT s i)
    /\ FlatTable s2 = FlatTable s
    /\ Forall (fun y => Connected <$> Objects s2 !! y = Some false) (h :: t)
    /\ (forall x, x ∉ h :: t -> Objects s2 !! x = Objects s !! x)
    /\ (forall x o, Objects s !! x = Some o ->
          exists o', Objects s2 !! x = Some o' /\ registration o' = registration o).
Proof.
  intros Hnd Hfree Hall Hoh Hen Hperm.
  destruct (connect_each_chain_aux s v md h t oh Hnd Hfree Hall Hoh Hen)
    as (s1 & Hrun1 & Hheld1 & Hhal1 & Hpres1).
  destruct (disconnect_all v p (h :: t) s1 Hheld1 Hperm)
    as (s2 & x & ox1 & Hrun2 & Hfree2 & <- & Hox1 & Hhal2 & Hall2 & Hpres2).
  assert (Hlast : List.last p 0 ∈ h :: t).
  { rewrite <- Hperm. destruct (snoc_last p 0) as [pre Hpre].
    - intros ->. by apply Permutation_nil_l in Hperm.
    - rewrite Hpre at 2. apply elem_of_app. right.
      apply list_elem_of_singleton. reflexivity. }
  rewrite Forall_forall in Hall.
  destruct (Hall _ Hlast) as (_ & _ & ox & Hox & _).
  pose proof Hpres1 as (_ & Hq2 & _).
  destruct (Hq2 _ ox Hox) as (ox1' & Hox1' & Hreg).
  rewrite Hox1 in Hox1'. injection Hox1' as <-.
  apply registration_fields in Hreg as (_ & Hirql & _).
  pose proof (preserves_trans P v _ _ _ _ Hpres1 Hpres2) as (Ht1 & Ht2 & Ht3 & Ht4).
  exists s1, s2, ox.
  split; [exact Hrun1|]. split; [exact Hheld1|]. split; [exact Hrun2|].
  split; [exact Hfree2|]. split; [exact Hox|].
  split. { rewrite Hhal2, Hhal1, Hirql. reflexivity. }
  split.
  { intros i. destruct (Z.eq_dec i (HalVectorToIDTEntry P v)) as [->|Hne].
    - destruct Hfree2 as [_ ->]. destruct Hfree as [_ ->]. reflexivity.
    - by apply Ht3. }
  split; [exact Ht4|]. split; [exact Hall2|]. split; [exact Ht1 | exact Ht2].
Qed.


(** X6: joining a vector and leaving it again.  An object that joins the
    chain [l] of a held vector and is disconnected right away leaves the
    vector held by [l] as before, the head back on KiInterruptDispatch when
    it was the sole owner; the IDT, the flat table and the lines of the HAL
    are as before, and no object outside [N :: l] is written. *)
Theorem join_then_leave_restores_chain s v l N n h oh :
  vector_held P s v l -> N ∉ l ->
  Objects s !! N = Some n -> valid_ptr N -> connectable P n ->
  Connected n = false -> Vector n = v -> ShareVector n = true ->
  ptr_add N (off_DispatchCode P) <> unexpected_stub P v ->
  hd_error l = Some h -> Objects s !! h = Some oh ->
  ShareVector oh = true -> Mode oh = Mode n ->
  exists s1 s2,
    KeConnectInterrupt P N s = Ok true s1
    /\ vector_held P s1 v (l ++ [N])
    /\ KeDisconnectInterrupt P N s1 = Ok true s2
    /\ vector_held P s2 v l
    /\ Connected <$> Objects s2 !! N = Some false
    /\ HalLines s2 = HalLines s
    /\ (forall i, IDT s2 i = IDT s i)
    /\ FlatTable s2 = FlatTable s
    /\ (forall x, x ∉ N :: l -> Objects s2 !! x = Objects s !! x)
    /\ (forall x o, Objects s !! x = Some o ->
          exists o', Objects s2 !! x = Some o' /\ registration o' = registration o).
Proof.
  intros Hheld HNl Hn HvN Hc Hconn Hvec Hshare Hstub Hhd Hoh Hhshare Hmode.
  destruct (connect_join P entries_differ s v l N n h oh)
    as (s1 & Hrun1 & Hheld1 & Hhal1 & Hpres1); try assumption.
  assert (Hne : l ++ [] <> []) by (destruct l; discriminate).
  destruct (disconnect_chain P entries_differ s1 v l N [] Hheld1 Hne)
    as (s2 & Hrun2 & Hheld2 & Hcon2 & Hhal2 & Hpres2).
  rewrite app_nil_r in Hheld2.
  assert (Hpres : preserves P v (N :: l) s s2).
  { eapply preserves_trans; [exact Hpres1|].
    apply (preserves_mono v (l ++ [N])); [|exact Hpres2].
    intros y Hy. apply elem_of_app in Hy as [Hy|Hy].
    - apply elem_of_cons. by right.
    - apply list_elem_of_singleton in Hy as ->. apply elem_of_cons. by left. }
  destruct Hpres as (Ht1 & Ht2 & Ht3 & Ht4).
  exists s1, s2.
  split; [exact Hrun1|]. split; [exact Hheld1|]. split; [exact Hrun2|].
  split; [exact Hheld2|]. split; [exact Hcon2|]. split; [congruence|].
  split.
  { intros i. destruct (Z.eq_dec i (HalVectorToIDTEntry P v)) as [->|Hni].
    - destruct Hheld2 as (_ & _ & -> & _). destruct Hheld as (_ & _ & -> & _).
      reflexivity.
    - by apply Ht3. }
  split; [exact Ht4|]. split; [exact Ht1 | exact Ht2].
Qed.

(** X7: calls that find nothing to do.  In any state of the vector,
    KeConnectInterrupt on an object that is already connected and
    KeDisconnectInterrupt on an object that is not connected return FALSE;
    they set the affinity to [1 << Number], the processor taking the shift
    count modulo 32, take and release the dispatcher lock and revert the
    affinity, and change nothing else. *)
Theorem calls_with_nothing_to_do s N n :
  Objects s !! N = Some n ->
  (connectable P n -> Connected n = true ->
   KeConnectInterrupt P N s = Ok false (set_KernelLog (pinned (Number n)) s))
  /\ (Connected n = false ->
      KeDisconnectInterrupt P N s
      = Ok false (set_KernelLog (pinned (Number n)) s)).
Proof.
  intros Hn. split.
  - intros Hc Hconn. by apply connect_connected.
  - intros Hconn. by apply disconnect_unconnected.
Qed.

End Sequences.

(** ** Timed dispatch *)

Section Timing.

Context (P : platform).

Lemma elapsed_exclusive t a c n :
  wrap64 (wrap64 (wrap64 (t + c) - t) - wrap64 (wrap64 (a + n) - a))
  = wrap64 (c - n).
Proof.
  destruct (wrap64_spec (t + c)) as [q1 ->].
  destruct (wrap64_spec (a + n)) as [q2 ->].
  destruct (wrap64_spec (t + c + q1 * 2 ^ 64 - t)) as [q3 ->].
  destruct (wrap64_spec (a + n + q2 * 2 ^ 64 - a)) as [q4 ->].
  apply (wrap64_shift _ _ (q1 + q3 - q2 - q4)). lia.
Qed.

Lemma isr_time_total a c n :
  wrap64 (wrap64 (a + n) + wrap64 (c - n)) = wrap64 (a + c).
Proof.
  destruct (wrap64_spec (a + n)) as [q1 ->].
  destruct (wrap64_spec (c - n)) as [q2 ->].
  apply (wrap64_shift _ _ (q1 + q2)). lia.
Qed.

Lemma wrap64_le_max x : (MAXULONGLONG <? wrap64 x) = false.
Proof.
  apply Z.ltb_ge. unfold wrap64, MAXULONGLONG.
  pose proof (Z.mod_pos_bound x (2 ^ 64) ltac:(lia)). lia.
Qed.

Lemma KiTimedInterruptDispatch_run s Interrupt o :
  Objects s !! Interrupt = Some o ->
  let effect := CallServiceRoutine P (length (IsrLog s)) (ServiceRoutine o)
                  Interrupt (ServiceContext o) in
  let ElapsedTime := wrap64 (isr_cycles effect - isr_nested effect) in
  exists s',
    KiTimedInterruptDispatch P Interrupt s = Ok tt s'
    /\ IsrLog s' = (Interrupt, isr_handled effect) :: IsrLog s
    /\ KernelLog s'
       = service_calls P Interrupt o false (KiIsrTscLimit s) ElapsedTime ++ KernelLog s
    /\ Tsc s' = wrap64 (Tsc s + isr_cycles effect)
    /\ IsrTime s' = wrap64 (IsrTime s + isr_cycles effect)
    /\ Objects s' = Objects s /\ IDT s' = IDT s /\ FlatTable s' = FlatTable s
    /\ HalLines s' = HalLines s /\ KiIsrTscLimit s' = KiIsrTscLimit s.
Proof.
  intros Ho effect ElapsedTime.
  destruct s as [objs idt flat hal log lim us tinit tsc isrt calls].
  cbn in Ho, effect. cbn [KiIsrTscLimit Tsc IsrTime IsrLog KernelLog Objects
                          IDT FlatTable HalLines].
  unfold KiTimedInterruptDispatch, call_ServiceRoutine, RDTSC, service_calls.
  repeat kstep. fold effect.
  rewrite elapsed_exclusive. fold ElapsedTime.
  cbn [andb app].
  destruct (lim <? ElapsedTime); cbn [andb];
    destruct (KdDebuggerEnabled P);
    repeat kstep; unfold modify;
    (eexists; split; [reflexivity|]);
    cbn [Objects IDT FlatTable HalLines KernelLog KiIsrTscLimit Tsc IsrTime IsrLog];
    unfold ElapsedTime; rewrite isr_time_total; repeat split.
Qed.

(** X8: KiTimedInterruptDispatch.  The calls of the dispatch are, in this
    order, KiAcquireSpinLock on the lock of the object, the service routine
    of the object with the object and its context, and KiReleaseSpinLock on
    the same lock: the routine is called once, with the spin lock held, and
    the request level is not changed; the breakpoint is hit, after the
    release, exactly when the cycles of the
    call, less those spent in interrupts that preempted it, exceed
    KiIsrTscLimit and a debugger is attached; the ISR time of the processor
    advances by the cycles of the call, so that the time of the preempting
    interrupts, which they added themselves, is not counted twice.  The
    objects, the IDT, the flat table, the HAL and the limit are left
    alone. *)
Theorem KiTimedInterruptDispatch_accounts s Interrupt o :
  Objects s !! Interrupt = Some o ->
  let effect := CallServiceRoutine P (length (IsrLog s)) (ServiceRoutine o)
                  Interrupt (ServiceContext o) in
  let ElapsedTime := wrap64 (isr_cycles effect - isr_nested effect) in
  exists s',
    KiTimedInterruptDispatch P Interrupt s = Ok tt s'
    /\ IsrLog s' = (Interrupt, isr_handled effect) :: IsrLog s
    /\ KernelLog s'
       = service_calls P Interrupt o false (KiIsrTscLimit s) ElapsedTime ++ KernelLog s
    /\ Tsc s' = wrap64 (Tsc s + isr_cycles effect)
    /\ IsrTime s' = wrap64 (IsrTime s + isr_cycles effect)
    /\ Objects s' = Objects s /\ IDT s' = IDT s /\ FlatTable s' = FlatTable s
    /\ HalLines s' = HalLines s /\ KiIsrTscLimit s' = KiIsrTscLimit s.
Proof. apply KiTimedInterruptDispatch_run. Qed.



Lemma chained_dispatch_turn_effects ListEnd Interrupt Handled s o :
  Objects s !! Interrupt = Some o ->
  let effect := CallServiceRoutine P (length (IsrLog s)) (ServiceRoutine o)
                  Interrupt (ServiceContext o) in
  let ElapsedTime := wrap64 (isr_cycles effect - isr_nested effect) in
  exists s',
    chained_dispatch_turn P ListEnd Interrupt Handled s
    = Ok (turn_outcome P ListEnd o Handled (isr_handled effect)) s'
    /\ IsrLog s' = (Interrupt, isr_handled effect) :: IsrLog s
    /\ KernelLog s'
       = service_calls P Interrupt o true (KiIsrTscLimit s) ElapsedTime ++ KernelLog s
    /\ Tsc s' = wrap64 (Tsc s + isr_cycles effect)
    /\ IsrTime s' = wrap64 (IsrTime s + isr_cycles effect)
    /\ Objects s' = Objects s /\ IDT s' = IDT s /\ FlatTable s' = FlatTable s
    /\ HalLines s' = HalLines s /\ KiIsrTscLimit s' = KiIsrTscLimit s.
Proof.
  intros Ho effect ElapsedTime.
  destruct s as [objs idt flat hal log lim us tinit tsc isrt calls].
  cbn in Ho, effect. cbn [KiIsrTscLimit Tsc IsrTime IsrLog KernelLog Objects
                          IDT FlatTable HalLines].
  unfold chained_dispatch_turn, call_ServiceRoutine, RDTSC, turn_outcome,
    service_calls.
  repeat kstep. cbn [andb].
  destruct (negb (Irql o =? SynchronizeIrql o)) eqn:Eraise;
    repeat kstep; fold effect; rewrite elapsed_exclusive; fold ElapsedTime;
    destruct (lim <? ElapsedTime); cbn [andb];
    destruct (KdDebuggerEnabled P);
    repeat (first [kstep | rewrite Eraise]);
    unfold ElapsedTime; rewrite isr_time_total;
    (destruct ((Handled || isr_handled effect)
               && bool_decide (Mode o = LevelSensitive));
     [ eexists; split; [reflexivity | repeat split]
     | repeat kstep;
       destruct ((Flink (InterruptListEntry o) =? ListEnd)
                 && negb (Handled || isr_handled effect));
       eexists; (split; [reflexivity | repeat split]) ]).
Qed.

Lemma irql_after_app log1 log2 start :
  irql_after (log1 ++ log2) start = irql_after log1 (irql_after log2 start).
Proof.
  induction log1 as [|c log1 IH]; [reflexivity|].
  destruct c; cbn; auto.
Qed.

Lemma irql_after_service x o Limit ElapsedTime start :
  Irql o = start ->
  irql_after (service_calls P x o true Limit ElapsedTime) start = start.
Proof.
  intros <-. unfold service_calls. cbn [andb].
  destruct (negb (Irql o =? SynchronizeIrql o)); [reflexivity|].
  destruct ((Limit <? ElapsedTime) && KdDebuggerEnabled P); reflexivity.
Qed.

Lemma service_calls_quiet x o raise Limit ElapsedTime :
  (Limit <? ElapsedTime) && KdDebuggerEnabled P = false ->
  DbgBreakPoint ∉ service_calls P x o raise Limit ElapsedTime.
Proof.
  intros E. unfold service_calls. rewrite E.
  destruct (raise && negb (Irql o =? SynchronizeIrql o)); cbn;
    intros Hin; repeat (apply elem_of_cons in Hin as [Hin|Hin]; [discriminate|]);
    by apply elem_of_nil in Hin.
Qed.

Lemma loop_effects m l start :
  chain P m l ->
  forall fuel ListEnd x Handled s,
    Objects s = m -> x ∈ l ->
    exists c s' calls klog,
      chained_dispatch_loop P fuel ListEnd x Handled s = Ok c s'
      /\ Objects s' = m /\ IDT s' = IDT s /\ FlatTable s' = FlatTable s
      /\ HalLines s' = HalLines s /\ KiIsrTscLimit s' = KiIsrTscLimit s
      /\ IsrLog s' = calls ++ IsrLog s
      /\ Forall (fun c => c.1 ∈ l) calls
      /\ KernelLog s' = klog ++ KernelLog s
      /\ (KiIsrTscLimit s = MAXULONGLONG \/ KdDebuggerEnabled P = false ->
          DbgBreakPoint ∉ klog)
      /\ ((forall y o, y ∈ l -> m !! y = Some o -> Irql o = start) ->
          irql_after klog start = start)
      /\ wrap64 (IsrTime s' - IsrTime s) = wrap64 (Tsc s' - Tsc s).
Proof.
  intros Hc. induction fuel as [|fuel IH]; intros ListEnd x Handled s Hs Hx.
  - exists OutOfFuel, s, [], []. cbn [chained_dispatch_loop].
    repeat (split; [first [reflexivity | assumption | constructor]|]).
    split. { intros _ Hin. by apply elem_of_nil in Hin. }
    split; [reflexivity|]. by rewrite !Z.sub_diag.
  - destruct (chain_next P m l x Hc Hx) as (o & y & Ho & Hfl & Hobj & Hy).
    rewrite <- Hs in Ho.
    destruct (chained_dispatch_turn_effects ListEnd x Handled s o Ho)
      as (s1 & Hturn & Hlog & Hklog & Htsc & Hisr & Hobjs & Hidt & Hflat & Hhal & Hlim).
    cbn [chained_dispatch_loop]. rewrite (bind_Ok _ _ _ _ _ Hturn).
    set (effect := CallServiceRoutine P (length (IsrLog s)) (ServiceRoutine o) x
                     (ServiceContext o)) in *.
    set (El := wrap64 (isr_cycles effect - isr_nested effect)) in *.
    assert (Hquiet : KiIsrTscLimit s = MAXULONGLONG \/ KdDebuggerEnabled P = false ->
                     DbgBreakPoint ∉ service_calls P x o true (KiIsrTscLimit s) El).
    { intros Hq. apply service_calls_quiet. destruct Hq as [-> | ->].
      - unfold El. by rewrite wrap64_le_max.
      - apply andb_false_r. }
    assert (Hadv : wrap64 (IsrTime s1 - IsrTime s) = wrap64 (Tsc s1 - Tsc s)).
    { rewrite Hisr, Htsc.
      destruct (wrap64_spec (IsrTime s + isr_cycles effect)) as [q1 ->].
      destruct (wrap64_spec (Tsc s + isr_cycles effect)) as [q2 ->].
      apply (wrap64_shift _ _ (q1 - q2)). lia. }
    destruct (turn_outcome P ListEnd o Handled (isr_handled effect))
      as [[x' Handled']|] eqn:Eout.
    + assert (x' = y) as ->.
      { unfold turn_outcome in Eout.
        destruct (_ && bool_decide _); [discriminate|].
        destruct (_ && negb _); [discriminate|]. injection Eout as <- _.
        exact Hobj. }
      destruct (IH ListEnd y Handled' s1 ltac:(congruence) Hy)
        as (c & s' & calls & klog & Hrun & Ho' & Hi' & Hf' & Hh' & Hl' & Hc'
            & Hall & Hk' & Hq' & Hirql & Hadv').
      exists c, s', (calls ++ [(x, isr_handled effect)]),
        (klog ++ service_calls P x o true (KiIsrTscLimit s) El).
      split; [exact Hrun|]. split; [exact Ho'|].
      split; [congruence|]. split; [congruence|]. split; [congruence|].
      split; [congruence|].
      split. { rewrite Hc', Hlog, <- app_assoc. reflexivity. }
      split. { apply Forall_app. split; [exact Hall|]. by constructor. }
      split. { rewrite Hk', Hklog, <- app_assoc. reflexivity. }
      split.
      { intros Hq Hin. apply elem_of_app in Hin as [Hin|Hin].
        - revert Hin. apply Hq'. by rewrite Hlim.
        - by apply (Hquiet Hq). }
      split.
      { intros Hlev. rewrite irql_after_app.
        rewrite irql_after_service; [by apply Hirql|].
        apply (Hlev x o Hx). by rewrite <- Hs. }
      apply wrap64_unshift in Hadv as [q1 Hq1].
      apply wrap64_unshift in Hadv' as [q2 Hq2].
      apply (wrap64_shift _ _ (q1 + q2)). lia.
    + exists Returned, s1, [(x, isr_handled effect)],
        (service_calls P x o true (KiIsrTscLimit s) El).
      split; [reflexivity|]. split; [congruence|].
      split; [exact Hidt|]. split; [exact Hflat|]. split; [exact Hhal|].
      split; [exact Hlim|]. split; [exact Hlog|].
      split. { by constructor. }
      split; [exact Hklog|]. split; [exact Hquiet|].
      split; [|exact Hadv].
      intros Hlev. apply irql_after_service. apply (Hlev x o Hx).
      by rewrite <- Hs.
Qed.


(** X10: the request level after a chained dispatch.  When every member of
    the chain has the request level [start] at which the interrupt was
    taken, each raise to a synchronize level is followed by a lower to
    [start]: after the kernel calls of the dispatch the level is [start]
    again. *)
Theorem chained_dispatch_restores_irql s l x fuel start :
  chain P (Objects s) l -> x ∈ l ->
  (forall y o, y ∈ l -> Objects s !! y = Some o -> Irql o = start) ->
  exists c s' klog,
    KiTimedChainedDispatch2ndLvl P fuel x s = Ok c s'
    /\ KernelLog s' = klog ++ KernelLog s
    /\ irql_after klog start = start.
Proof.
  intros Hc Hx Hlev. unfold KiTimedChainedDispatch2ndLvl.
  destruct (loop_effects (Objects s) l start Hc fuel (entry_of P x) x false s
              eq_refl Hx)
    as (c & s' & calls & klog & H1 & _ & _ & _ & _ & _ & _ & _ & H9 & _ & H11 & _).
  exists c, s', klog. split; [exact H1|]. split; [exact H9|]. by apply H11.
Qed.


Lemma walk_to_handler h x l2 :
  valid_ptr h ->
  forall l1 s fuel,
    fwd_seg P (Objects s) (l1 ++ x :: l2) h ->
    Forall valid_ptr (l1 ++ [x]) ->
    h ∉ tl (l1 ++ [x]) ->
    (forall j y, l1 !! j = Some y -> next_answer P s j y = Some false) ->
    next_answer P s (length l1) x = Some true ->
    mode_of (Objects s) x = Some LevelSensitive ->
    (length l1 < fuel)%nat ->
    exists s',
      chained_dispatch_loop P fuel (entry_of P h) (hd x l1) false s
      = Ok Returned s'
      /\ IsrLog s' = (x, true) :: rev (map (fun y => (y, false)) l1) ++ IsrLog s.
Proof.
  intros Hh. induction l1 as [|y l1 IH]; intros s fuel Hf Hv Hnh Hisr Hx Hmode Hfuel.
  - destruct fuel as [|fuel]; [cbn in Hfuel; lia|].
    destruct Hf as [Hfx _]. apply flink_of_Some in Hfx as (o & Ho & Hfl).
    destruct (chained_dispatch_turn_spec P (entry_of P h) x false s o Ho)
      as (s1 & Hturn & Hobjs & Hlog & _).
    cbn [chained_dispatch_loop hd]. rewrite (bind_Ok _ _ _ _ _ Hturn).
    unfold next_answer in Hx. rewrite Ho in Hx. cbn in Hx.
    rewrite Nat.add_0_r in Hx. injection Hx as Hx.
    unfold mode_of in Hmode. rewrite Ho in Hmode. injection Hmode as Hmode.
    unfold turn_outcome. rewrite Hx, Hmode. cbn [orb andb].
    rewrite bool_decide_eq_true_2 by reflexivity.
    exists s1. split; [reflexivity|]. rewrite Hlog, Hx. reflexivity.
  - destruct fuel as [|fuel]; [cbn in Hfuel; lia|].
    cbn [app] in Hf. destruct Hf as [Hfy Hf].
    apply flink_of_Some in Hfy as (o & Ho & Hfl).
    destruct (chained_dispatch_turn_spec P (entry_of P h) y false s o Ho)
      as (s1 & Hturn & Hobjs & Hlog & _).
    cbn [chained_dispatch_loop hd]. rewrite (bind_Ok _ _ _ _ _ Hturn).
    pose proof (Hisr 0%nat y eq_refl) as H0.
    unfold next_answer in H0. rewrite Ho in H0. cbn in H0.
    rewrite Nat.add_0_r in H0. injection H0 as H0.
    rewrite H0 in Hlog.
    unfold turn_outcome. rewrite H0. cbn [orb andb negb]. rewrite andb_true_r.
    rewrite Hfl.
    assert (Ehd : hd h (l1 ++ x :: l2) = hd x l1) by (destruct l1; reflexivity).
    rewrite Ehd.
    cbn [app] in Hv. inversion Hv as [|? ? Hvy Hv']; subst.
    assert (Hz : hd x l1 ∈ l1 ++ [x]).
    { destruct l1; cbn; apply elem_of_cons; by left. }
    assert (Hvz : valid_ptr (hd x l1)).
    { rewrite Forall_forall in Hv'. by apply Hv'. }
    assert (Hzh : hd x l1 <> h).
    { intros E. apply Hnh. cbn [app tl]. by rewrite <- E. }
    assert ((entry_of P (hd x l1) =? entry_of P h) = false) as ->.
    { apply Z.eqb_neq. intros E. apply Hzh. by apply (entry_of_inj P). }
    rewrite object_of_entry_of by exact Hvz.
    destruct (IH s1 fuel) as (s' & Hrun & Hlog'); try done.
    + by rewrite Hobjs.
    + intros Hin. apply Hnh. cbn [app tl].
      destruct l1; cbn in *; apply elem_of_cons; by right.
    + intros j z Hz'. specialize (Hisr (S j) z Hz').
      unfold next_answer in *. rewrite Hobjs, Hlog. cbn [length].
      by rewrite Nat.add_succ_r in Hisr.
    + unfold next_answer in *. rewrite Hobjs, Hlog. cbn [length] in *.
      by rewrite Nat.add_succ_r in Hx.
    + by rewrite Hobjs.
    + cbn in Hfuel. lia.
    + exists s'. split; [exact Hrun|].
      rewrite Hlog', Hlog. cbn [map rev]. by rewrite <- !app_assoc.
Qed.

(** X11: the first handler ends a level-triggered dispatch.  When the
    members [l1] in front of [x] answer FALSE and the level-sensitive
    member [x] answers TRUE, the dispatch calls [l1] in chain order, then
    [x], and returns: the members [l2] behind [x] are not called. *)
Theorem chained_dispatch_stops_at_first_handler s l1 x l2 fuel :
  chain P (Objects s) (l1 ++ x :: l2) ->
  (forall j y, l1 !! j = Some y -> next_answer P s j y = Some false) ->
  next_answer P s (length l1) x = Some true ->
  mode_of (Objects s) x = Some LevelSensitive ->
  (length l1 < fuel)%nat ->
  exists s',
    KiTimedChainedDispatch2ndLvl P fuel (hd 0 (l1 ++ x :: l2)) s = Ok Returned s'
    /\ IsrLog s' = (x, true) :: rev (map (fun y => (y, false)) l1) ++ IsrLog s.
Proof.
  intros (Hnd & Hv & Hl) Hisr Hx Hmode Hfuel.
  assert (Ehd : hd 0 (l1 ++ x :: l2) = hd x l1) by (destruct l1; reflexivity).
  rewrite Ehd. unfold KiTimedChainedDispatch2ndLvl.
  assert (Hsplit : l1 ++ x :: l2 = (l1 ++ [x]) ++ l2)
    by (by rewrite <- app_assoc).
  rewrite Hsplit in Hnd, Hv.
  apply NoDup_app in Hnd as (Hnd1 & _ & _).
  apply Forall_app in Hv as [Hv1 _].
  assert (Hvh : valid_ptr (hd x l1)).
  { rewrite Forall_forall in Hv1. apply Hv1.
    destruct l1; cbn; apply elem_of_cons; by left. }
  apply (walk_to_handler (hd x l1) x l2 Hvh l1 s fuel); try assumption.
  - destruct (l1 ++ x :: l2) as [|h t] eqn:E; [contradiction|].
    destruct Hl as [Hf _].
    assert (h = hd x l1) as <-; [|exact Hf].
    destruct l1; cbn in E; by injection E.
  - destruct l1 as [|a l1]; cbn [hd app tl] in *.
    + intros Hin. by apply elem_of_nil in Hin.
    + by apply NoDup_cons in Hnd1 as [? _].
Qed.

End Timing.

(** ** The dispatch code of an interrupt object *)

Section DispatchCodeBytes.

Context (P : platform).

Lemma load32_store32_other code off v k :
  k + 4 <= off \/ off + 4 <= k ->
  load32 (store32 code off v) k = load32 code k.
Proof.
  intros H. unfold load32. rewrite !store32_other by lia. reflexivity.
Qed.

Lemma copy_code_outside count :
  forall code Index k,
    k < 4 * Index \/ 4 * (Index + Z.of_nat count) <= k ->
    copy_code P code Index count k = code k.
Proof.
  induction count as [|count IH]; intros code Index k Hk; [reflexivity|].
  cbn [copy_code]. rewrite IH by lia. apply store32_other. lia.
Qed.

Lemma copy_code_word count :
  forall code Index0 Index,
    Index0 <= Index < Index0 + Z.of_nat count ->
    load32 (copy_code P code Index0 count) (4 * Index)
    = wrap32 (KiInterruptTemplateCode P Index).
Proof.
  induction count as [|count IH]; intros code Index0 Index Hi; [lia|].
  cbn [copy_code]. destruct (Z.eq_dec Index Index0) as [->|Hne].
  - unfold load32. rewrite !copy_code_outside by lia.
    apply load32_store32.
  - apply IH. lia.
Qed.

Lemma KeInitializeInterrupt_code
    s Interrupt old ServiceRoutine' ServiceContext' SpinLock' Vector' Irql'
    SynchronizeIrql' InterruptMode ShareVector' ProcessorNumber FloatingSave' :
  Objects s !! Interrupt = Some old ->
  exists s' new,
    KeInitializeInterrupt P Interrupt ServiceRoutine' ServiceContext' SpinLock'
      Vector' Irql' SynchronizeIrql' InterruptMode ShareVector' ProcessorNumber
      FloatingSave' s = Ok tt s'
    /\ Objects s' !! Interrupt = Some new
    /\ DispatchCode new =
         store32 (copy_code P (DispatchCode old) 0 (NORMAL_DISPATCH_LENGTH P))
                 (KiInterruptTemplateObject P - KiInterruptTemplate P - 4)
                 (wrap32 Interrupt).
Proof.
  intros Ho.
  destruct s as [objs idt flat hal log lim us tinit tsc isrt calls].
  cbn in Ho. unfold KeInitializeInterrupt.
  destruct (SpinLock' =? 0) eqn:Elock.
  - eexists. eexists. split.
    + repeat kstep.
      erewrite (bind_Ok (copy_template _ _ _ _))
        by (apply copy_template_Ok; lookup_solve).
      rewrite ?insert_insert_eq. repeat kstep. reflexivity.
    + cbn. split; [apply lookup_insert_eq | reflexivity].
  - eexists. eexists. split.
    + repeat kstep.
      erewrite (bind_Ok (copy_template _ _ _ _))
        by (apply copy_template_Ok; lookup_solve).
      rewrite ?insert_insert_eq. repeat kstep. reflexivity.
    + cbn. split; [apply lookup_insert_eq | reflexivity].
Qed.

(** X12: the template copy of KeInitializeInterrupt.  Every ULONG of the
    dispatch code that does not overlap the patched object address equals
    the ULONG of the template with the same index, and no byte beyond
    NORMAL_DISPATCH_LENGTH ULONGs is written, the patch apart. *)
Theorem KeInitializeInterrupt_copies_template
    s Interrupt old ServiceRoutine' ServiceContext' SpinLock' Vector' Irql'
    SynchronizeIrql' InterruptMode ShareVector' ProcessorNumber FloatingSave' :
  Objects s !! Interrupt = Some old ->
  let pl := KiInterruptTemplateObject P - KiInterruptTemplate P - 4 in
  exists s' new,
    KeInitializeInterrupt P Interrupt ServiceRoutine' ServiceContext' SpinLock'
      Vector' Irql' SynchronizeIrql' InterruptMode ShareVector' ProcessorNumber
      FloatingSave' s = Ok tt s'
    /\ Objects s' !! Interrupt = Some new
    /\ (forall Index,
          0 <= Index < Z.of_nat (NORMAL_DISPATCH_LENGTH P) ->
          4 * Index + 4 <= pl \/ pl + 4 <= 4 * Index ->
          load32 (DispatchCode new) (4 * Index)
          = wrap32 (KiInterruptTemplateCode P Index))
    /\ (forall k,
          k < 0 \/ 4 * Z.of_nat (NORMAL_DISPATCH_LENGTH P) <= k ->
          k < pl \/ pl + 4 <= k ->
          DispatchCode new k = DispatchCode old k).
Proof.
  intros Ho pl.
  destruct (KeInitializeInterrupt_code s Interrupt old ServiceRoutine'
              ServiceContext' SpinLock' Vector' Irql' SynchronizeIrql'
              InterruptMode ShareVector' ProcessorNumber FloatingSave' Ho)
    as (s' & new & Hrun & Hnew & Hcode).
  exists s', new. split; [exact Hrun|]. split; [exact Hnew|].
  rewrite Hcode. fold pl. split.
  - intros Index Hi Hpl. rewrite load32_store32_other by lia.
    apply copy_code_word. lia.
  - intros k Hk Hpl. rewrite store32_other by lia.
    apply copy_code_outside. lia.
Qed.

(** X13: the branch patched by KiConnectVectorAndInterruptObject on a
    vector of the IDT.  The displacement stored in the dispatch code,
    added to the address that follows it, is the dispatch entry point
    selected for the connection type (modulo 2^32); every ULONG of the
    dispatch code that does not overlap the displacement keeps its value,
    so that the object address patched at initialization survives; the slot
    of the vector points at the dispatch code; nothing else of the object,
    no other object, no other slot and no line of the HAL is changed. *)
Theorem KiConnectVectorAndInterruptObject_patches_branch s p o T :
  T <> NoConnect -> Objects s !! p = Some o ->
  vector_shape P (Vector o) = 0 -> inspectable P s (Vector o) ->
  let pl := KiInterruptTemplateDispatch P - KiInterruptTemplate P - 4 in
  exists s' o',
    KiConnectVectorAndInterruptObject P p T s = Ok tt s'
    /\ Objects s' !! p = Some o'
    /\ DispatchAddress o' = dispatch_entry P T o
    /\ wrap32 (ptr_add p (off_DispatchCode P + pl + 4)
               + load32 (DispatchCode o') pl)
       = wrap32 (dispatch_entry P T o)
    /\ (forall off, off + 4 <= pl \/ pl + 4 <= off ->
          load32 (DispatchCode o') off = load32 (DispatchCode o) off)
    /\ IDT s' (HalVectorToIDTEntry P (Vector o))
       = ptr_add p (off_DispatchCode P)
    /\ (forall i, i <> HalVectorToIDTEntry P (Vector o) -> IDT s' i = IDT s i)
    /\ (forall x, x <> p -> Objects s' !! x = Objects s !! x)
    /\ registration o' = registration o
    /\ InterruptListEntry o' = InterruptListEntry o
    /\ Connected o' = Connected o
    /\ HalLines s' = HalLines s.
Proof.
  intros HT Ho Hshape Hins pl.
  pose proof (binder_connect P s p o T HT Ho Hshape Hins) as Hrun.
  eexists. exists (rebound P p (dispatch_entry P T o) o).
  split; [exact Hrun|].
  destruct s as [objs idt flat hal log lim us tinit tsc isrt calls].
  cbn [Objects IDT HalLines set_IDT set_Objects].
  split; [apply lookup_insert_eq|]. split; [reflexivity|].
  split.
  { unfold rebound. cbn [DispatchCode set_DispatchCode]. fold pl.
    rewrite load32_store32, wrap32_idem.
    destruct (wrap32_spec (dispatch_entry P T o
                           - ptr_add p (off_DispatchCode P + pl + 4))) as [q ->].
    apply (wrap32_shift _ _ q). lia. }
  split.
  { intros off Hoff. unfold rebound. cbn [DispatchCode set_DispatchCode].
    fold pl. apply load32_store32_other. lia. }
  split.
  { unfold idt_write. rewrite Z.eqb_refl. apply wrap32_idem. }
  split.
  { intros i Hi. unfold idt_write.
    rewrite (proj2 (Z.eqb_neq _ _) Hi). reflexivity. }
  split.
  { intros x Hx. by rewrite lookup_insert_ne. }
  repeat split.
Qed.

End DispatchCodeBytes.

(** ** Vectors on a flat dispatch table *)

Section FlatTable.

Context (P : platform).

Lemma KiGetVectorInfo_flat s v :
  vector_shape P v = 1 -> flat_slot P v <> 0 ->
  KiGetVectorInfo P v s
  = let CurrentDispatch := FlatTable s (flat_slot P v) in
    if CurrentDispatch =? unexpected_stub P v then
      Ok (flat_info P v CurrentDispatch NoConnect) s
    else
      match load_DispatchAddress P
              (InfoInterrupt (flat_info P v CurrentDispatch NoConnect)) s with
      | Ok Dispatch _ => Ok (flat_info P v CurrentDispatch (flat_type P Dispatch)) s
      | Stop c => Stop c
      end.
Proof.
  intros Hshape Hslot. cbv zeta.
  unfold KiGetVectorInfo, flat_info, flat_type, unexpected_stub, flat_slot.
  unfold vector_shape in *. unfold flat_slot in Hslot.
  destruct (HalSystemVectorDispatchEntry P v) as [[ty fl] nd].
  cbn [fst snd] in *. subst ty. cbv beta iota.
  change (1 =? 0) with false. cbv iota.
  unfold read_flat. rewrite (proj2 (Z.eqb_neq _ _) Hslot).
  rewrite bind_assoc, bind_gets, bind_ret.
  cbn [NoDispatch InfoInterrupt ChainedDispatch InterruptDispatch FloatingDispatch].
  destruct (FlatTable s fl =? nd); [reflexivity|].
  unfold bind at 1.
  destruct (load_DispatchAddress P _ s) as [d s1|] eqn:E; [|reflexivity].
  apply load_DispatchAddress_pure in E as ->.
  destruct (d =? KiChainedDispatch2ndLvl P); [reflexivity|].
  rewrite orb_diag. destruct (d =? KiInterruptDispatch2ndLvl P); reflexivity.
Qed.

Lemma misread_in_code_insert m N o :
  is_Some (m !! N) -> misread_in_code P m N ->
  misread_in_code P (<[N := o]> m) N.
Proof.
  intros [n Hn] (H1 & H2 & H3 & H4 & H5).
  split; [exact H1|]. split; [exact H2|]. split; [exact H3|]. split.
  - rewrite lookup_insert_ne; [exact H4|]. intros E. rewrite <- E in H4. congruence.
  - intros k Hk. apply H5. destruct (decide (k = N)) as [->|Hne].
    + by exists n.
    + by rewrite lookup_insert_ne in Hk.
Qed.

Lemma encloses_only (m : gmap Z KINTERRUPT) a N :
  forallb (fun k => implb (encloses P k a) (k =? N)) (map fst (map_to_list m))
  = true ->
  forall k, is_Some (m !! k) -> encloses P k a = true -> k = N.
Proof.
  intros H k [v Hk] Hen. rewrite forallb_forall in H.
  specialize (H k). rewrite Hen in H. cbn in H. apply Z.eqb_eq, H.
  apply list_elem_of_In, list_elem_of_fmap. exists (k, v).
  split; [reflexivity|]. by apply elem_of_map_to_list.
Qed.

(** The inspector on a flat vector bound to the object at [N]. *)
Lemma inspect_flat_bound st v N o :
  vector_shape P v = 1 -> flat_slot P v <> 0 -> valid_ptr N ->
  FlatTable st (flat_slot P v) = flat_entry P N ->
  flat_entry P N <> unexpected_stub P v ->
  Objects st !! N = Some o ->
  misread_in_code P (Objects st) N ->
  KiGetVectorInfo P v st
  = Ok (flat_info P v (flat_entry P N)
          (flat_type P (load32 (DispatchCode o) (misread_offset P)))) st.
Proof.
  intros Hshape Hslot HvN Hflat Hstub Ho ((Hc & Ha & Hd) & Hin & Htop & Hnone & Hone).
  rewrite KiGetVectorInfo_flat by assumption. cbv zeta.
  rewrite Hflat, (proj2 (Z.eqb_neq _ _) Hstub).
  unfold misread_offset in *. unfold valid_ptr in HvN.
  set (d := KiInterruptTemplate2ndDispatch P - KiInterruptTemplate P) in *.
  assert (Hp : InfoInterrupt (flat_info P v (flat_entry P N) NoConnect)
               = N + off_DispatchCode P + 2 * d).
  { unfold flat_info, flat_entry, ptr_add. cbn [InfoInterrupt]. fold d.
    rewrite (wrap32_small (N + (off_DispatchCode P + d)))
      by (unfold valid_ptr; lia).
    replace (N + (off_DispatchCode P + d) - KiInterruptTemplate P
             + KiInterruptTemplate2ndDispatch P)
      with (N + off_DispatchCode P + 2 * d) by (unfold d; lia).
    apply wrap32_small. unfold valid_ptr. lia. }
  rewrite Hp.
  assert (Ha' : ptr_add (N + off_DispatchCode P + 2 * d) (off_DispatchAddress P)
                = N + off_DispatchCode P + (2 * d + off_DispatchAddress P)).
  { unfold ptr_add. rewrite wrap32_small by (unfold valid_ptr; lia). lia. }
  rewrite (load_DispatchAddress_code P _ st N o Hnone Ho).
  - rewrite Ha'.
    replace (N + off_DispatchCode P + (2 * d + off_DispatchAddress P)
             - (N + off_DispatchCode P))
      with (2 * d + off_DispatchAddress P) by lia.
    reflexivity.
  - rewrite Ha'. unfold encloses.
    apply andb_true_iff. split; [apply Z.leb_le | apply Z.leb_le]; lia.
  - rewrite Ha'. exact Hone.
Qed.

Lemma binder_flat_free s p o T :
  T <> NoConnect -> Objects s !! p = Some o ->
  vector_shape P (Vector o) = 1 -> flat_slot P (Vector o) <> 0 ->
  FlatTable s (flat_slot P (Vector o)) = unexpected_stub P (Vector o) ->
  KiConnectVectorAndInterruptObject P p T s
  = Ok tt
      (set_FlatTable
         (fun flat r => if r =? flat_slot P (Vector o) then flat_entry P p
                        else flat r)
         (set_Objects
            (insert p (rebound P p
                         (if decide (T = NormalConnect)
                          then KiInterruptDispatch2ndLvl P
                          else KiChainedDispatch2ndLvl P) o)) s)).
Proof.
  intros HT0 Ho Hshape Hslot Hfree.
  unfold KiConnectVectorAndInterruptObject.
  erewrite bind_load by exact Ho.
  rewrite (bind_Ok _ _ _ _ _
             (eq_trans (KiGetVectorInfo_flat s (Vector o) Hshape Hslot)
                       ltac:(cbv zeta; rewrite Hfree, Z.eqb_refl; reflexivity))).
  rewrite decide_False by exact HT0.
  cbn [FlatDispatch flat_info NoDispatch InterruptDispatch FloatingDispatch
       ChainedDispatch].
  rewrite (proj2 (Z.eqb_neq _ _) Hslot).
  destruct s as [objs idt flat hal log lim us tinit tsc isrt calls].
  cbn [Objects] in Ho.
  repeat kstep. unfold write_flat, modify, rebound, flat_entry. proj_simpl.
  destruct (decide (T = NormalConnect)); destruct (FloatingSave o); reflexivity.
Qed.

Lemma connect_flat_free s N n :
  Objects s !! N = Some n -> valid_ptr N -> connectable P n ->
  Connected n = false ->
  vector_shape P (Vector n) = 1 -> flat_slot P (Vector n) <> 0 ->
  FlatTable s (flat_slot P (Vector n)) = unexpected_stub P (Vector n) ->
  HalEnableResult P (Vector n) (Irql n) (Mode n) = true ->
  KeConnectInterrupt P N s
  = Ok true
      (set_KernelLog (pinned (Number n))
         (set_HalLines (cons (HalEnable (Vector n) (Irql n) (Mode n) true))
            (set_FlatTable
               (fun flat r => if r =? flat_slot P (Vector n) then flat_entry P N
                              else flat r)
               (set_Objects (insert N (flat_owner P N n)) s)))).
Proof.
  intros Hn HvN Hc Hconn Hshape Hslot Hfree Hen.
  destruct s as [objs idt flat hal log lim us tinit tsc isrt calls].
  cbn [Objects IDT FlatTable HalLines] in *.
  unfold KeConnectInterrupt.
  repeat kstep. rewrite (connectable_guard P n Hc). cbn [negb].
  repeat kstep. rewrite Hconn. cbn [negb]. repeat kstep.
  match goal with
  | |- context [bind (KiGetVectorInfo P (Vector n)) _ ?st] =>
      rewrite (bind_Ok _ _ _ _ _
                 (eq_trans (KiGetVectorInfo_flat st (Vector n) Hshape Hslot)
                    ltac:(cbv zeta; cbn [FlatTable]; rewrite Hfree, Z.eqb_refl;
                          reflexivity)))
  end.
  cbn [InfoType flat_info]. rewrite decide_True by reflexivity.
  repeat kstep.
  match goal with
  | |- context [bind (InitializeListHead P (entry_of P N)) _ ?st] =>
      let H := fresh in
      assert (H : Objects st !! N = Some (set_Connected true n))
        by lookup_solve;
      rewrite (bind_Ok _ _ _ _ _ (InitializeListHead_spec P st N _ HvN H));
      clear H
  end.
  proj_simpl. rewrite ?insert_insert_eq. rewrite ?bind_assoc.
  match goal with
  | |- context [bind (KiConnectVectorAndInterruptObject P N NormalConnect) _ ?st] =>
      let H := fresh in
      assert (H : Objects st !! N
                  = Some (set_InterruptListEntry
                            {| Flink := entry_of P N; Blink := entry_of P N |}
                            (set_Connected true n)))
        by lookup_solve;
      rewrite (bind_Ok _ _ _ _ _
                 (binder_flat_free st N _ NormalConnect
                    ltac:(discriminate) H Hshape Hslot Hfree));
      clear H
  end.
  proj_simpl. rewrite ?insert_insert_eq.
  cbn [Vector set_InterruptListEntry set_Connected].
  repeat kstep. unfold HalEnableSystemInterrupt. repeat kstep.
  cbn [Mode rebound set_DispatchCode set_DispatchAddress
       set_InterruptListEntry set_Connected].
  rewrite Hen. cbn [negb andb]. unfold pinned, flat_owner.
  rewrite decide_True by reflexivity. reflexivity.
Qed.

Lemma disconnect_flat_bound st N o :
  Objects st !! N = Some o -> valid_ptr N -> Connected o = true ->
  vector_shape P (Vector o) = 1 -> flat_slot P (Vector o) <> 0 ->
  FlatTable st (flat_slot P (Vector o)) = flat_entry P N ->
  flat_entry P N <> unexpected_stub P (Vector o) ->
  misread_in_code P (Objects st) N ->
  flat_type P (load32 (DispatchCode o) (misread_offset P)) <> ChainConnect ->
  KeDisconnectInterrupt P N st
  = Ok true
      (set_KernelLog (unpinned (Number o))
         (set_Objects (insert N (set_Connected false o))
            (set_FlatTable
               (fun flat r => if r =? flat_slot P (Vector o)
                              then unexpected_stub P (Vector o) else flat r)
               (set_HalLines (cons (HalDisable (Vector o) (Irql o))) st)))).
Proof.
  intros Ho HvN Hconn Hshape Hslot Hflat Hstub Hlay Hty.
  destruct st as [objs idt flat hal log lim us tinit tsc isrt calls].
  cbn [Objects FlatTable] in *.
  unfold KeDisconnectInterrupt.
  repeat kstep. rewrite Hconn. repeat kstep.
  match goal with
  | |- context [bind (KiGetVectorInfo P (Vector o)) _ ?st] =>
      rewrite (bind_Ok _ _ _ _ _
                 (inspect_flat_bound st (Vector o) N o Hshape Hslot HvN Hflat
                    Hstub Ho Hlay))
  end.
  cbn [InfoType flat_info]. rewrite decide_False by exact Hty.
  repeat kstep. unfold HalDisableSystemInterrupt. repeat kstep.
  unfold KiConnectVectorAndInterruptObject. repeat kstep.
  match goal with
  | |- context [bind (KiGetVectorInfo P (Vector o)) _ ?st] =>
      rewrite (bind_Ok _ _ _ _ _
                 (inspect_flat_bound st (Vector o) N o Hshape Hslot HvN Hflat
                    Hstub Ho Hlay))
  end.
  rewrite decide_True by reflexivity. repeat kstep.
  cbn [FlatDispatch NoDispatch flat_info].
  rewrite (proj2 (Z.eqb_neq _ _) Hslot).
  unfold write_flat. repeat kstep. reflexivity.
Qed.

Lemma connect_flat_refused st N o M m :
  Objects st !! N = Some o -> valid_ptr N ->
  Objects st !! M = Some m -> connectable P m -> Connected m = false ->
  vector_shape P (Vector m) = 1 -> flat_slot P (Vector m) <> 0 ->
  FlatTable st (flat_slot P (Vector m)) = flat_entry P N ->
  flat_entry P N <> unexpected_stub P (Vector m) ->
  misread_in_code P (Objects st) N ->
  flat_type P (load32 (DispatchCode o) (misread_offset P)) = UnknownConnect ->
  KeConnectInterrupt P M st = Ok false (set_KernelLog (pinned (Number m)) st).
Proof.
  intros Ho HvN Hm Hc Hconn Hshape Hslot Hflat Hstub Hlay Hty.
  destruct st as [objs idt flat hal log lim us tinit tsc isrt calls].
  cbn [Objects FlatTable] in *.
  unfold KeConnectInterrupt.
  repeat kstep. rewrite (connectable_guard P m Hc). cbn [negb].
  repeat kstep. rewrite Hconn. cbn [negb]. repeat kstep.
  match goal with
  | |- context [bind (KiGetVectorInfo P (Vector m)) _ ?st] =>
      rewrite (bind_Ok _ _ _ _ _
                 (inspect_flat_bound st (Vector m) N o Hshape Hslot HvN Hflat
                    Hstub Ho Hlay))
  end.
  cbn [InfoType flat_info]. rewrite Hty.
  rewrite decide_False by discriminate. rewrite decide_True by reflexivity.
  repeat kstep. cbn [andb]. reflexivity.
Qed.

(** X14: a vector on a flat dispatch table (dispatch type 1).  A first
    connection succeeds: the flat slot receives the address of the dispatch
    code plus the offset [d] of KiInterruptTemplate2ndDispatch in the
    template, the object dispatches through KiInterruptDispatch2ndLvl, the
    IDT is not written.  From then on KiGetVectorInfo takes as occupant the
    address [N + off_DispatchCode + 2 * d] instead of [N], and reads as
    dispatch address the ULONG at offset [2 * d + off_DispatchAddress] of
    the dispatch code of the object.  When that ULONG is neither of the
    second-level entry points, the vector is classified UnknownConnect
    although its occupant is bound to the normal entry point; no other
    object can join the vector; and KeDisconnectInterrupt on the object
    disables the line, puts the slot back on the unexpected-interrupt
    stub and returns TRUE. *)
Theorem flat_vector_occupant_is_misread s N n :
  Objects s !! N = Some n -> valid_ptr N -> connectable P n ->
  Connected n = false ->
  vector_shape P (Vector n) = 1 -> flat_slot P (Vector n) <> 0 ->
  FlatTable s (flat_slot P (Vector n)) = unexpected_stub P (Vector n) ->
  flat_entry P N <> unexpected_stub P (Vector n) ->
  HalEnableResult P (Vector n) (Irql n) (Mode n) = true ->
  misread_in_code P (Objects s) N ->
  flat_type P (load32 (DispatchCode (flat_owner P N n)) (misread_offset P))
  = UnknownConnect ->
  exists s1 s2,
    KeConnectInterrupt P N s = Ok true s1
    /\ Objects s1 = <[N := flat_owner P N n]> (Objects s)
    /\ installed_target P s1 (Vector n) = flat_entry P N
    /\ IDT s1 = IDT s
    /\ HalLines s1 = HalEnable (Vector n) (Irql n) (Mode n) true :: HalLines s
    /\ occupant_of P (Vector n) (installed_target P s1 (Vector n)) = N
    /\ DispatchAddress (flat_owner P N n) = normal_entry P (Vector n)
    /\ KiGetVectorInfo P (Vector n) s1
       = Ok (flat_info P (Vector n) (flat_entry P N) UnknownConnect) s1
    /\ InfoInterrupt (flat_info P (Vector n) (flat_entry P N) UnknownConnect)
       = N + off_DispatchCode P
         + 2 * (KiInterruptTemplate2ndDispatch P - KiInterruptTemplate P)
    /\ (forall M m,
          M <> N -> Objects s !! M = Some m -> connectable P m ->
          Connected m = false -> Vector m = Vector n ->
          KeConnectInterrupt P M s1
          = Ok false (set_KernelLog (pinned (Number m)) s1))
    /\ KeDisconnectInterrupt P N s1 = Ok true s2
    /\ installed_target P s2 (Vector n) = unexpected_stub P (Vector n)
    /\ Objects s2 = <[N := set_Connected false (flat_owner P N n)]> (Objects s)
    /\ HalLines s2 = HalDisable (Vector n) (Irql n) :: HalLines s1
    /\ KernelLog s2 = unpinned (Number n) (KernelLog s1).
Proof.
  intros Hn HvN Hc Hconn Hshape Hslot Hfree Hstub Hen Hlay Hty.
  pose proof (connect_flat_free s N n Hn HvN Hc Hconn Hshape Hslot Hfree Hen)
    as Hrun1.
  match type of Hrun1 with _ = Ok true ?st => set (s1 := st) in * end.
  assert (Ho1 : Objects s1 !! N = Some (flat_owner P N n)).
  { unfold s1. destruct s. cbn. apply lookup_insert_eq. }
  assert (Hflat1 : FlatTable s1 (flat_slot P (Vector n)) = flat_entry P N).
  { unfold s1. destruct s. cbn. by rewrite Z.eqb_refl. }
  assert (Hlay1 : misread_in_code P (Objects s1) N).
  { unfold s1. destruct s. cbn. apply misread_in_code_insert; [by exists n | exact Hlay]. }
  assert (Hv1 : Vector (flat_owner P N n) = Vector n) by reflexivity.
  assert (Htarget : installed_target P s1 (Vector n) = flat_entry P N).
  { unfold installed_target. rewrite Hshape. exact Hflat1. }
  pose proof (inspect_flat_bound s1 (Vector n) N _ Hshape Hslot HvN Hflat1 Hstub
                Ho1 Hlay1) as Hinfo.
  rewrite Hty in Hinfo.
  pose proof (disconnect_flat_bound s1 N (flat_owner P N n) Ho1 HvN eq_refl
                Hshape Hslot Hflat1 Hstub Hlay1
                ltac:(rewrite Hty; discriminate)) as Hrun2.
  match type of Hrun2 with _ = Ok true ?st => set (s2 := st) in * end.
  destruct Hlay as ((Hc0 & Ha0 & Hd0) & Hin & Htop & Hnone & Hone).
  exists s1, s2.
  split; [exact Hrun1|].
  split. { unfold s1. destruct s. reflexivity. }
  split; [exact Htarget|].
  split. { unfold s1. destruct s. reflexivity. }
  split. { unfold s1. destruct s. reflexivity. }
  split.
  { rewrite Htarget. unfold occupant_of, flat_entry. rewrite Hshape.
    change (1 =? 0) with false. cbv iota. by apply CONTAINING_RECORD_ptr_add. }
  split.
  { unfold normal_entry. rewrite Hshape. reflexivity. }
  split; [exact Hinfo|].
  split.
  { unfold flat_info, flat_entry, ptr_add. cbn [InfoInterrupt].
    unfold misread_offset in Hin. unfold valid_ptr in HvN.
    rewrite (wrap32_small (N + _)) by (unfold valid_ptr; lia).
    match goal with
    | |- wrap32 ?x = ?y => replace x with y by lia
    end.
    apply wrap32_small. unfold valid_ptr. lia. }
  split.
  { intros M m HMN Hm Hcm Hconnm Hvm.
    apply (connect_flat_refused s1 N (flat_owner P N n) M m); try assumption.
    - unfold s1. destruct s. cbn. by rewrite lookup_insert_ne.
    - by rewrite Hvm.
    - by rewrite Hvm.
    - by rewrite Hvm.
    - by rewrite Hvm. }
  split; [exact Hrun2|].
  split.
  { unfold installed_target. rewrite Hshape. unfold s2, s1. destruct s. cbn.
    by rewrite Z.eqb_refl. }
  split.
  { unfold s2, s1. destruct s. cbn. by rewrite insert_insert_eq. }
  split. { unfold s2, s1. destruct s. reflexivity. }
  unfold s2, s1. destruct s. reflexivity.
Qed.

End FlatTable.

(** ** From initialization to dispatch *)

Section EndToEnd.

Context (P : platform).
Hypothesis entries_differ : KiInterruptDispatch P <> KiChainedDispatch P.

Lemma KeInitializeInterrupt_run
    s Interrupt old ServiceRoutine' ServiceContext' SpinLock' Vector' Irql'
    SynchronizeIrql' InterruptMode ShareVector' ProcessorNumber FloatingSave' :
  Objects s !! Interrupt = Some old ->
  exists s' new,
    KeInitializeInterrupt P Interrupt ServiceRoutine' ServiceContext' SpinLock'
      Vector' Irql' SynchronizeIrql' InterruptMode ShareVector' ProcessorNumber
      FloatingSave' s = Ok tt s'
    /\ Objects s' = <[Interrupt := new]> (Objects s)
    /\ IDT s' = IDT s /\ FlatTable s' = FlatTable s /\ HalLines s' = HalLines s
    /\ IsrLog s' = IsrLog s /\ KiIsrTscLimit s' = KiIsrTscLimit s
    /\ registration new
       = (ServiceRoutine', ServiceContext',
          (if SpinLock' =? 0 then ptr_add Interrupt (off_SpinLock P) else SpinLock'),
          Vector', Irql', SynchronizeIrql', FloatingSave', ProcessorNumber,
          ShareVector', InterruptMode)
    /\ Connected new = false.
Proof.
  intros Ho.
  destruct s as [objs idt flat hal log lim us tinit tsc isrt calls].
  cbn in Ho. unfold KeInitializeInterrupt.
  destruct (SpinLock' =? 0) eqn:Elock.
  - eexists. eexists. split.
    + repeat kstep.
      erewrite (bind_Ok (copy_template _ _ _ _))
        by (apply copy_template_Ok; lookup_solve).
      rewrite ?insert_insert_eq. repeat kstep. reflexivity.
    + cbn. repeat (split; [reflexivity|]). reflexivity.
  - eexists. eexists. split.
    + repeat kstep.
      erewrite (bind_Ok (copy_template _ _ _ _))
        by (apply copy_template_Ok; lookup_solve).
      rewrite ?insert_insert_eq. repeat kstep. reflexivity.
    + cbn. repeat (split; [reflexivity|]). reflexivity.
Qed.

(** X15: from registration to the call.  An object initialized with valid
    parameters and no floating save, connected to a free vector whose line
    the HAL enables, and then dispatched by KiTimedInterruptDispatch: the
    three calls succeed; the dispatch acquires the spin lock chosen at
    initialization (the built-in lock when none was passed), then calls the
    registered routine with the object and the registered context, then
    releases that lock; the HAL has seen the one enable. *)
Theorem registered_routine_is_called
    s N old Routine Context_ Lock Vector_ Irql_ Sync Mode_ Share Number_ :
  Objects s !! N = Some old -> valid_ptr N ->
  Irql_ <= HIGH_LEVEL P -> Number_ < KeNumberProcessors P -> Irql_ <= Sync ->
  vector_free P s Vector_ ->
  ptr_add N (off_DispatchCode P) <> unexpected_stub P Vector_ ->
  HalEnableResult P Vector_ Irql_ Mode_ = true ->
  let effect := CallServiceRoutine P (length (IsrLog s)) Routine N Context_ in
  let ActualLock_ := if Lock =? 0 then ptr_add N (off_SpinLock P) else Lock in
  exists s1 s2 s3,
    KeInitializeInterrupt P N Routine Context_ Lock Vector_ Irql_ Sync Mode_
      Share Number_ false s = Ok tt s1
    /\ KeConnectInterrupt P N s1 = Ok true s2
    /\ KiTimedInterruptDispatch P N s2 = Ok tt s3
    /\ IsrLog s3 = (N, isr_handled effect) :: IsrLog s
    /\ KernelLog s3
       = (if (KiIsrTscLimit s <? wrap64 (isr_cycles effect - isr_nested effect))
             && KdDebuggerEnabled P
          then [DbgBreakPoint] else [])
         ++ KiReleaseSpinLock ActualLock_
         :: InterruptService Routine N Context_
         :: KiAcquireSpinLock ActualLock_ :: KernelLog s2
    /\ HalLines s3 = HalEnable Vector_ Irql_ Mode_ true :: HalLines s.
Proof.
  intros Hold HvN Hi Hnum Hsync Hfree Hstub Hen effect ActualLock_.
  destruct (KeInitializeInterrupt_run s N old Routine Context_ Lock Vector_ Irql_
              Sync Mode_ Share Number_ false Hold)
    as (s1 & new & Hrun1 & Hobj1 & Hidt1 & _ & Hhal1 & Hlog1 & Hlim1 & Hreg & Hconn).
  unfold registration in Hreg.
  injection Hreg as Hr Hc Hl Hv Hq Hs Hf Hn Hsh Hm.
  assert (Hnew : Objects s1 !! N = Some new)
    by (rewrite Hobj1; apply lookup_insert_eq).
  assert (Hcable : connectable P new).
  { unfold connectable. rewrite Hq, Hn, Hs, Hf. auto. }
  assert (Hfree1 : vector_free P s1 (Vector new)).
  { rewrite Hv. destruct Hfree as [H1 H2]. split; [exact H1|]. by rewrite Hidt1. }
  destruct (connect_free_run P s1 N new Hnew HvN Hcable Hconn Hfree1
              ltac:(by rewrite Hv)) as (Hrun2 & _ & _).
  cbv zeta in Hrun2. rewrite Hv, Hq, Hm, Hen in Hrun2.
  match type of Hrun2 with _ = Ok true ?st => set (s2 := st) in * end.
  assert (Ho2 : Objects s2 !! N = Some (first_owner P N new)).
  { unfold s2. destruct s1. cbn. apply lookup_insert_eq. }
  destruct (KiTimedInterruptDispatch_run P s2 N _ Ho2)
    as (s3 & Hrun3 & Hlog3 & Hk3 & _ & _ & _ & _ & _ & Hhal3 & _).
  assert (Elog : IsrLog s2 = IsrLog s) by (unfold s2; destruct s1; exact Hlog1).
  assert (Elim : KiIsrTscLimit s2 = KiIsrTscLimit s)
    by (unfold s2; destruct s1; exact Hlim1).
  assert (Ehal : HalLines s2 = HalEnable Vector_ Irql_ Mode_ true :: HalLines s).
  { unfold s2. destruct s1. cbn in *. by rewrite Hhal1. }
  assert (Er : ServiceRoutine (first_owner P N new) = Routine) by exact Hr.
  assert (Ec : ServiceContext (first_owner P N new) = Context_) by exact Hc.
  assert (El : ActualLock (first_owner P N new) = ActualLock_) by exact Hl.
  rewrite Er, Ec, Elog in Hlog3, Hk3. rewrite Elim in Hk3.
  exists s1, s2, s3.
  split; [exact Hrun1|]. split; [exact Hrun2|]. split; [exact Hrun3|].
  split; [exact Hlog3|].
  split. { rewrite Hk3. unfold service_calls. rewrite El, Er, Ec. cbn [andb app].
           rewrite <- app_assoc. reflexivity. }
  congruence.
Qed.



End EndToEnd.

(** ** Further properties on the concrete platform *)

Ltac concrete_shareable :=
  split; [unfold valid_ptr; lia|];
  split; [vm_compute; discriminate|];
  eexists; split; [concrete_object|];
  split; [concrete_connectable|];
  split; [vm_compute; reflexivity|];
  split; [vm_compute; reflexivity|];
  split; vm_compute; reflexivity.

(** Witness of X1: the sole owner of vector 0x41 does not allow sharing. *)
Lemma KeConnectInterrupt_refuses_to_share_witness :
  exists s',
    KeConnectInterrupt (pc true 0 quiet_isr) 0x2000
      (pc_exclusive (pc true 0 quiet_isr)) = Ok false s'
    /\ HalLines s' = [HalEnable 0x41 5 Latched true]
    /\ IDT s' 0x41 = 0x103C.
Proof.
  assert (Hrun :
    KeConnectInterrupt (pc true 0 quiet_isr) 0x2000
      (pc_exclusive (pc true 0 quiet_isr))
    = Ok false
        (set_KernelLog
           (pinned (Number (object_at (pc_exclusive (pc true 0 quiet_isr)) 0x2000)))
           (pc_exclusive (pc true 0 quiet_isr)))).
  { apply (KeConnectInterrupt_refuses_to_share (pc true 0 quiet_isr)
             (pc_entries_differ _ _ _)
             (pc_exclusive (pc true 0 quiet_isr)) 0x41 [0x1000] 0x2000
             (object_at (pc_exclusive (pc true 0 quiet_isr)) 0x2000) 0x1000
             (object_at (pc_exclusive (pc true 0 quiet_isr)) 0x1000)).
    - concrete_held.
    - reflexivity.
    - concrete_object.
    - concrete_object.
    - concrete_connectable.
    - vm_compute; reflexivity.
    - vm_compute; reflexivity.
    - right. left. vm_compute; reflexivity. }
  eexists. split; [exact Hrun|]. split; vm_compute; reflexivity.
Defined.

(** Witness of X2: the slot of vector 0x41 holds the dispatch code of an
    object that is on no dispatch entry point. *)
Lemma KeConnectInterrupt_unknown_occupant_witness :
  exists info s',
    KiGetVectorInfo (pc true 0 quiet_isr) 0x41 (pc_stray (pc true 0 quiet_isr))
    = Ok info (pc_stray (pc true 0 quiet_isr))
    /\ InfoType info = UnknownConnect
    /\ KeConnectInterrupt (pc true 0 quiet_isr) 0x2000
         (pc_stray (pc true 0 quiet_isr)) = Ok false s'.
Proof.
  destruct (KeConnectInterrupt_unknown_occupant (pc true 0 quiet_isr)
              (pc_stray (pc true 0 quiet_isr)) 0x2000
              (object_at (pc_stray (pc true 0 quiet_isr)) 0x2000)
              (object_at (pc_stray (pc true 0 quiet_isr)) 0x1000))
    as [Hinfo Hrun].
  - concrete_object.
  - concrete_connectable.
  - vm_compute; reflexivity.
  - reflexivity.
  - vm_compute; discriminate.
  - concrete_object.
  - vm_compute; discriminate.
  - vm_compute; discriminate.
  - vm_compute; discriminate.
  - eexists. eexists. split; [exact Hinfo|]. split; [reflexivity | exact Hrun].
Defined.

(** Witness of X3: a HAL that reports dispatch type 2. *)
Lemma KiGetVectorInfo_mismatched_hal_witness :
  KiGetVectorInfo (pc true 2 quiet_isr) 0x41 (pc_single (pc true 2 quiet_isr))
  = Stop MISMATCHED_HAL
  /\ KeConnectInterrupt (pc true 2 quiet_isr) 0x1000
       (pc_single (pc true 2 quiet_isr)) = Stop MISMATCHED_HAL.
Proof.
  destruct (KiGetVectorInfo_mismatched_hal (pc true 2 quiet_isr)
              (pc_single (pc true 2 quiet_isr)) 0x41) as (H1 & H2 & _).
  - vm_compute; discriminate.
  - vm_compute; discriminate.
  - split; [exact H1|].
    apply (H2 0x1000 (object_at (pc_single (pc true 2 quiet_isr)) 0x1000)).
    + concrete_object.
    + vm_compute; reflexivity.
    + concrete_connectable.
    + vm_compute; reflexivity.
Defined.

(** Witness of X4: the three connected objects of the PC are disconnected
    in the order 0x2000, 0x1000, 0x3000. *)
Lemma disconnect_each_frees_vector_witness :
  exists s',
    disconnect_each (pc true 0 quiet_isr) [0x2000; 0x1000; 0x3000]
      (pc_shared (pc true 0 quiet_isr) Latched) = Ok [true; true; true] s'
    /\ IDT s' 0x41 = 0x80540077
    /\ HalLines s'
       = HalDisable 0x41 5 :: HalLines (pc_shared (pc true 0 quiet_isr) Latched).
Proof.
  destruct (disconnect_each_frees_vector (pc true 0 quiet_isr)
              (pc_entries_differ _ _ _)
              (pc_shared (pc true 0 quiet_isr) Latched) 0x41
              [0x1000; 0x2000; 0x3000] [0x2000; 0x1000; 0x3000])
    as (s' & ox & Hrun & Hfree & Hox & Hhal & _).
  - concrete_held.
  - apply perm_swap.
  - exists s'. split; [exact Hrun|]. split; [exact (proj2 Hfree)|].
    rewrite Hhal. f_equal. f_equal.
    assert (E : Irql <$> Objects (pc_shared (pc true 0 quiet_isr) Latched) !! 0x3000
                = Some 5) by (vm_compute; reflexivity).
    cbn [List.last] in Hox. rewrite Hox in E. by injection E.
Defined.

(** Witness of X5: the three objects of the PC connected in the order
    0x1000, 0x2000, 0x3000 and disconnected in the order 0x3000, 0x1000,
    0x2000. *)
Lemma connect_each_disconnect_each_witness :
  exists s1 s2,
    connect_each (pc true 0 quiet_isr) [0x1000; 0x2000; 0x3000]
      (pc_ready (pc true 0 quiet_isr) Latched) = Ok [true; true; true] s1
    /\ chain (pc true 0 quiet_isr) (Objects s1) [0x1000; 0x2000; 0x3000]
    /\ disconnect_each (pc true 0 quiet_isr) [0x3000; 0x1000; 0x2000] s1
       = Ok [true; true; true] s2
    /\ HalLines s2 = [HalDisable 0x41 5; HalEnable 0x41 5 Latched true].
Proof.
  destruct (connect_each_disconnect_each (pc true 0 quiet_isr)
              (pc_entries_differ _ _ _)
              (pc_ready (pc true 0 quiet_isr) Latched) 0x41 Latched
              0x1000 [0x2000; 0x3000]
              (object_at (pc_ready (pc true 0 quiet_isr) Latched) 0x1000)
              [0x3000; 0x1000; 0x2000])
    as (s1 & s2 & ox & Hrun1 & Hheld & Hrun2 & _ & Hox & Hhal & _).
  - apply (bool_decide_unpack _). vm_compute. exact I.
  - split; vm_compute; reflexivity.
  - repeat (apply List.Forall_cons; [concrete_shareable|]). apply List.Forall_nil.
  - concrete_object.
  - reflexivity.
  - etrans; [apply perm_swap|]. apply perm_skip, perm_swap.
  - exists s1, s2. split; [exact Hrun1|]. split; [exact (proj1 (proj2 Hheld))|].
    split; [exact Hrun2|]. rewrite Hhal.
    assert (E : Irql <$> Objects (pc_ready (pc true 0 quiet_isr) Latched) !! 0x2000
                = Some 5) by (vm_compute; reflexivity).
    cbn [List.last] in Hox. rewrite Hox in E. injection E as ->.
    vm_compute. reflexivity.
Defined.

(** Witness of X6: the object at 0x3000 joins the chain of 0x1000 and
    0x2000 and leaves it again. *)
Lemma join_then_leave_restores_chain_witness :
  exists s1 s2,
    KeConnectInterrupt (pc true 0 quiet_isr) 0x3000
      (pc_pair (pc true 0 quiet_isr) Latched) = Ok true s1
    /\ KeDisconnectInterrupt (pc true 0 quiet_isr) 0x3000 s1 = Ok true s2
    /\ chain (pc true 0 quiet_isr) (Objects s2) [0x1000; 0x2000]
    /\ HalLines s2 = HalLines (pc_pair (pc true 0 quiet_isr) Latched).
Proof.
  destruct (join_then_leave_restores_chain (pc true 0 quiet_isr)
              (pc_entries_differ _ _ _)
              (pc_pair (pc true 0 quiet_isr) Latched) 0x41 [0x1000; 0x2000]
              0x3000 (object_at (pc_pair (pc true 0 quiet_isr) Latched) 0x3000)
              0x1000 (object_at (pc_pair (pc true 0 quiet_isr) Latched) 0x1000))
    as (s1 & s2 & Hrun1 & _ & Hrun2 & Hheld & _ & Hhal & _).
  - concrete_held.
  - apply (bool_decide_unpack _). vm_compute. exact I.
  - concrete_object.
  - unfold valid_ptr; lia.
  - concrete_connectable.
  - vm_compute; reflexivity.
  - vm_compute; reflexivity.
  - vm_compute; reflexivity.
  - vm_compute; discriminate.
  - reflexivity.
  - concrete_object.
  - vm_compute; reflexivity.
  - vm_compute; reflexivity.
  - exists s1, s2. split; [exact Hrun1|]. split; [exact Hrun2|].
    split; [exact (proj1 (proj2 Hheld)) | exact Hhal].
Defined.

(** Witness of X7: disconnecting the example object, registered for
    processor 40, before it was ever connected; the affinity is 1 << 8. *)
Lemma calls_with_nothing_to_do_witness :
  exists s',
    KeDisconnectInterrupt (pc true 0 quiet_isr) 0x1000
      (pc_on_processor (pc true 0 quiet_isr) 40) = Ok false s'
    /\ HalLines s' = []
    /\ KernelLog s'
       = [KeRevertToUserAffinityThread; KiUnlockDispatcherDatabase;
          KiLockDispatcherDatabase; KeSetSystemAffinityThread 0x100;
          KeSweepDcache false].
Proof.
  destruct (calls_with_nothing_to_do (pc true 0 quiet_isr)
              (pc_on_processor (pc true 0 quiet_isr) 40) 0x1000
              (object_at (pc_on_processor (pc true 0 quiet_isr) 40) 0x1000))
    as [_ H].
  - concrete_object.
  - eexists. split; [apply H; vm_compute; reflexivity|].
    split; vm_compute; reflexivity.
Defined.

(** Witness of X8: the example object takes an interrupt. *)
Lemma KiTimedInterruptDispatch_accounts_witness :
  exists s',
    KiTimedInterruptDispatch (pc true 0 quiet_isr) 0x1000
      (pc_single (pc true 0 quiet_isr)) = Ok tt s'
    /\ IsrLog s' = [(0x1000, false)]
    /\ KernelLog s'
       = [KiReleaseSpinLock 0x1014; InterruptService 7 0x1000 8;
          KiAcquireSpinLock 0x1014; KeSweepDcache false]
    /\ IsrTime s' = 10.
Proof.
  destruct (KiTimedInterruptDispatch_accounts (pc true 0 quiet_isr)
              (pc_single (pc true 0 quiet_isr)) 0x1000
              (object_at (pc_single (pc true 0 quiet_isr)) 0x1000))
    as (s' & Hrun & Hlog & Hk & _ & Ht & _).
  - concrete_object.
  - exists s'. split; [exact Hrun|].
    split; [rewrite Hlog; vm_compute; reflexivity|].
    split; [|rewrite Ht; vm_compute; reflexivity].
    rewrite Hk. vm_compute. reflexivity.
Defined.


(** Witness of X10: the three objects of the PC have request level 5. *)
Lemma chained_dispatch_restores_irql_witness :
  exists c s' klog,
    KiTimedChainedDispatch2ndLvl (pc true 0 quiet_isr) 7 0x1000
      (pc_shared (pc true 0 quiet_isr) Latched) = Ok c s'
    /\ KernelLog s' = klog ++ KernelLog (pc_shared (pc true 0 quiet_isr) Latched)
    /\ irql_after klog 5 = 5.
Proof.
  apply (chained_dispatch_restores_irql (pc true 0 quiet_isr)
           (pc_shared (pc true 0 quiet_isr) Latched)
           [0x1000; 0x2000; 0x3000] 0x1000 7 5).
  - concrete_chain.
  - apply elem_of_cons. by left.
  - intros y o Hy Ho.
    assert (E : Irql <$> Objects (pc_shared (pc true 0 quiet_isr) Latched) !! y
                = Some 5).
    { repeat (apply elem_of_cons in Hy as [->|Hy]; [vm_compute; reflexivity|]).
      apply elem_of_nil in Hy. destruct Hy. }
    rewrite Ho in E. injection E as E. exact E.
Defined.

(** Witness of X11: three level-triggered objects, of which the second
    reports the interrupt handled; the third is not called. *)
Lemma chained_dispatch_stops_at_first_handler_witness :
  exists s',
    KiTimedChainedDispatch2ndLvl (pc true 0 second_handles) 2 0x1000
      (pc_shared (pc true 0 second_handles) LevelSensitive) = Ok Returned s'
    /\ IsrLog s' = [(0x2000, true); (0x1000, false)].
Proof.
  destruct (chained_dispatch_stops_at_first_handler (pc true 0 second_handles)
              (pc_shared (pc true 0 second_handles) LevelSensitive)
              [0x1000] 0x2000 [0x3000] 2)
    as (s' & Hrun & Hlog).
  - concrete_chain.
  - intros j y Hj. destruct j as [|j]; cbn in Hj; simplify_eq.
    vm_compute; reflexivity.
  - vm_compute; reflexivity.
  - vm_compute; reflexivity.
  - cbn. lia.
  - exists s'. split; [exact Hrun|]. rewrite Hlog. vm_compute. reflexivity.
Defined.

(** Witness of X12: initializing the raw object at 0x1000 on the PC. *)
Lemma KeInitializeInterrupt_copies_template_witness :
  exists s' new,
    KeInitializeInterrupt (pc true 0 quiet_isr) 0x1000 7 8 0 0x41 5 5
      LevelSensitive false 0 false (pc_boot (pc true 0 quiet_isr) 0) = Ok tt s'
    /\ Objects s' !! 0x1000 = Some new
    /\ load32 (DispatchCode new) 0 = 0x90909090
    /\ load32 (DispatchCode new) (4 * 105) = 0x909090F9
    /\ DispatchCode new (4 * 106) = 0.
Proof.
  destruct (KeInitializeInterrupt_copies_template (pc true 0 quiet_isr)
              (pc_boot (pc true 0 quiet_isr) 0) 0x1000 raw_object
              7 8 0 0x41 5 5 LevelSensitive false 0 false eq_refl)
    as (s' & new & Hrun & Hnew & Hword & Hout).
  exists s', new. split; [exact Hrun|]. split; [exact Hnew|].
  split; [|split].
  - apply (Hword 0); [cbn; lia | left; vm_compute; discriminate].
  - apply (Hword 105); [cbn; lia | right; vm_compute; discriminate].
  - apply (Hout (4 * 106)); [right; cbn; lia | right; vm_compute; discriminate].
Defined.

(** Witness of X13: binding the example object to the normal dispatch. *)
Lemma KiConnectVectorAndInterruptObject_patches_branch_witness :
  exists s' o',
    KiConnectVectorAndInterruptObject (pc true 0 quiet_isr) 0x1000 NormalConnect
      (pc_single (pc true 0 quiet_isr)) = Ok tt s'
    /\ Objects s' !! 0x1000 = Some o'
    /\ wrap32 (0x10A7 + load32 (DispatchCode o') 0x67) = 0x80542000
    /\ load32 (DispatchCode o') 0x60 = 0x1000
    /\ IDT s' 0x41 = 0x103C.
Proof.
  destruct (KiConnectVectorAndInterruptObject_patches_branch
              (pc true 0 quiet_isr) (pc_single (pc true 0 quiet_isr)) 0x1000
              (object_at (pc_single (pc true 0 quiet_isr)) 0x1000) NormalConnect)
    as (s' & o' & Hrun & Ho' & _ & Hland & Hkeep & Hidt & _).
  - discriminate.
  - concrete_object.
  - vm_compute; reflexivity.
  - intros H. exfalso. apply H. vm_compute; reflexivity.
  - exists s', o'. split; [exact Hrun|]. split; [exact Ho'|].
    split; [exact Hland|]. split; [|exact Hidt].
    rewrite (Hkeep 0x60) by (left; vm_compute; discriminate).
    vm_compute. reflexivity.
Defined.

(** Witness of X14: the example object on a PC whose HAL dispatches vector
    0x41 through a flat table.  The inspector reads the ULONG at offset
    0xDE of the dispatch code of the object, which is template code. *)
Lemma flat_vector_occupant_is_misread_witness :
  exists s1 s2,
    KeConnectInterrupt (pc true 1 quiet_isr) 0x1000
      (pc_single (pc true 1 quiet_isr)) = Ok true s1
    /\ FlatTable s1 0x80550104 = 0x109B
    /\ KiGetVectorInfo (pc true 1 quiet_isr) 0x41 s1
       = Ok (flat_info (pc true 1 quiet_isr) 0x41 0x109B UnknownConnect) s1
    /\ KeDisconnectInterrupt (pc true 1 quiet_isr) 0x1000 s1 = Ok true s2
    /\ FlatTable s2 0x80550104 = 0x80543000.
Proof.
  assert (Hv : Vector (object_at (pc_single (pc true 1 quiet_isr)) 0x1000) = 0x41)
    by (vm_compute; reflexivity).
  destruct (flat_vector_occupant_is_misread (pc true 1 quiet_isr)
              (pc_single (pc true 1 quiet_isr)) 0x1000
              (object_at (pc_single (pc true 1 quiet_isr)) 0x1000))
    as (s1 & s2 & Hrun1 & _ & Hflat1 & _ & _ & _ & _ & Hinfo & _ & _ & Hrun2
        & Hflat2 & _).
  - concrete_object.
  - unfold valid_ptr; lia.
  - concrete_connectable.
  - vm_compute; reflexivity.
  - reflexivity.
  - vm_compute; discriminate.
  - vm_compute; reflexivity.
  - vm_compute; discriminate.
  - reflexivity.
  - split; [split; [|split]; vm_compute; discriminate|].
    split; [vm_compute; discriminate|].
    split; [vm_compute; discriminate|].
    split; [vm_compute; reflexivity|].
    apply encloses_only. vm_compute. reflexivity.
  - vm_compute. reflexivity.
  - rewrite Hv in Hflat1, Hinfo, Hflat2.
    exists s1, s2. split; [exact Hrun1|]. split; [exact Hflat1|].
    split; [exact Hinfo|]. split; [exact Hrun2 | exact Hflat2].
Defined.

(** Witness of X15: the raw object at 0x1000 is initialized, connected and
    takes an interrupt. *)
Lemma registered_routine_is_called_witness :
  exists s1 s2 s3,
    KeInitializeInterrupt (pc true 0 quiet_isr) 0x1000 7 8 0 0x41 5 5
      LevelSensitive false 0 false (pc_boot (pc true 0 quiet_isr) 0) = Ok tt s1
    /\ KeConnectInterrupt (pc true 0 quiet_isr) 0x1000 s1 = Ok true s2
    /\ KiTimedInterruptDispatch (pc true 0 quiet_isr) 0x1000 s2 = Ok tt s3
    /\ IsrLog s3 = [(0x1000, false)]
    /\ KernelLog s3
       = KiReleaseSpinLock 0x1014 :: InterruptService 7 0x1000 8
         :: KiAcquireSpinLock 0x1014 :: KernelLog s2
    /\ HalLines s3 = [HalEnable 0x41 5 LevelSensitive true].
Proof.
  destruct (registered_routine_is_called (pc true 0 quiet_isr)
              (pc_boot (pc true 0 quiet_isr) 0) 0x1000 raw_object
              7 8 0 0x41 5 5 LevelSensitive false 0 eq_refl)
    as (s1 & s2 & s3 & H1 & H2 & H3 & Hlog & Hk & Hhal).
  - unfold valid_ptr; lia.
  - cbn; lia.
  - cbn; lia.
  - lia.
  - split; vm_compute; reflexivity.
  - vm_compute; discriminate.
  - reflexivity.
  - exists s1, s2, s3. split; [exact H1|]. split; [exact H2|].
    split; [exact H3|]. split; [exact Hlog|]. split; [exact Hk | exact Hhal].
Defined.

